(** * Business crawler: a shallow embedding of [main.py]

    The development follows the layout of the program:

    - [PyStr]: Python [str] values and the built-in string operations the
      crawler calls ([split], [strip], [replace], [join], slicing, [len]);
    - [Sanitizer]: [sanitize_filename];
    - [SizeFormatter]: [get_file_size_human_readable], with the true division
      and the [.2f] formatting of CPython written out on exact rationals;
    - [Crawler]: [extract_entities], [scrape_content], the body of the
      result loop, the body of the query loop and [main], over the
      collaborators (search, fetch, structured extraction, HTML paragraph
      scan, entity tagger, URL parser, clock, file writers) gathered in the
      record [Env];
    - [Scenarios]: small concrete worlds on which the model is run;
    - [Outputs]: the loading of the blacklist, the file names of a query
      and what the trace of a run hands to the writers;
    - [AsWritten]: the result loop with [urlparse] before its [try], and
      [main] with the name [args] resolved as Python resolves it.

    Python [int] is [Z], a [str] is the list of its code points, a [dict]
    whose iteration order matters is an association list in insertion order,
    and an exception is a value of [result]. *)

From Stdlib Require Import ZArith NArith QArith Qabs List Bool Ascii String Lia.
From Stdlib Require Import Permutation Sorted.
Import ListNotations.

(* ================================================================== *)
(** * Python strings *)
(* ================================================================== *)

Module PyStr.

(** A [str] is a sequence of Unicode code points. *)
Definition codepoint := N.
Definition pystr := list codepoint.

(** ASCII literals of the source are written through [lit]. *)
Definition lit (s : string) : pystr :=
  List.map N_of_ascii (list_ascii_of_string s).

Definition eqb (a b : pystr) : bool :=
  if list_eq_dec N.eq_dec a b then true else false.

(** [len(s)] *)
Definition len {A : Type} (s : list A) : Z := Z.of_nat (List.length s).

(** Truthiness of a [str]: the empty string is false. *)
Definition truthy (s : pystr) : bool :=
  match s with [] => false | _ :: _ => true end.

(** [str.isspace] on one code point: the code points CPython's
    [_PyUnicode_IsWhitespace] accepts. [split] without argument and [strip]
    without argument use this class. *)
Definition isspace (c : codepoint) : bool :=
  ((9 <=? c) && (c <=? 13)           (* \t \n \v \f \r *)
   || (28 <=? c) && (c <=? 32)       (* FS GS RS US and the space *)
   || (c =? 133) || (c =? 160)       (* NEL, no-break space *)
   || (c =? 5760)                    (* U+1680 *)
   || (8192 <=? c) && (c <=? 8202)   (* U+2000 .. U+200A *)
   || (c =? 8232) || (c =? 8233)     (* U+2028, U+2029 *)
   || (c =? 8239) || (c =? 8287)     (* U+202F, U+205F *)
   || (c =? 12288))%N.               (* U+3000 *)

(** [s.split()]: the maximal runs of non-whitespace code points, in order.
    [cur] is the word being read, kept reversed. *)
Fixpoint split_aux (cur : pystr) (s : pystr) : list pystr :=
  match s with
  | [] => match cur with [] => [] | _ => [rev cur] end
  | c :: s' =>
      if isspace c
      then match cur with
           | [] => split_aux [] s'
           | _ => rev cur :: split_aux [] s'
           end
      else split_aux (c :: cur) s'
  end.

Definition split (s : pystr) : list pystr := split_aux [] s.

(** [len(s.split())] *)
Definition word_count (s : pystr) : Z := len (split s).

(** [s.lstrip()], [s.rstrip()], [s.strip()] *)
Fixpoint lstrip (s : pystr) : pystr :=
  match s with
  | c :: s' => if isspace c then lstrip s' else s
  | [] => []
  end.

Definition rstrip (s : pystr) : pystr := rev (lstrip (rev s)).

Definition strip (s : pystr) : pystr := rstrip (lstrip s).

(** [s.replace(old, new)] for one-character [old] and [new]. *)
Definition replace_char (old new : codepoint) (s : pystr) : pystr :=
  List.map (fun c => if (c =? old)%N then new else c) s.

(** [sep.join(parts)] *)
Fixpoint join (sep : pystr) (parts : list pystr) : pystr :=
  match parts with
  | [] => []
  | [p] => p
  | p :: rest => p ++ sep ++ join sep rest
  end.

(** [s[:n]] for a non-negative [n] *)
Definition slice_to (n : nat) (s : pystr) : pystr := firstn n s.

Definition newline : codepoint := 10%N.
Definition space : codepoint := 32%N.

End PyStr.

Import PyStr.

(* ================================================================== *)
(** * Filename sanitizer *)
(* ================================================================== *)

Module Sanitizer.

(** The character class [[a-zA-Z0-9_]]. *)
Definition allowed (c : codepoint) : bool :=
  ((97 <=? c) && (c <=? 122)     (* a-z *)
   || (65 <=? c) && (c <=? 90)   (* A-Z *)
   || (48 <=? c) && (c <=? 57)   (* 0-9 *)
   || (c =? 95))%N.              (* _ *)

Definition underscore : codepoint := 95%N.

(** [re.sub(r"[^a-zA-Z0-9_]", "_", name)]: every match of the negated class
    is one code point, and each is replaced by ["_"]. *)
Definition sanitize_filename (name : pystr) : pystr :=
  List.map (fun c => if allowed c then c else underscore) name.

End Sanitizer.

Import Sanitizer.

(* ================================================================== *)
(** * Size formatter *)
(* ================================================================== *)

Module SizeFormatter.

(** ** Decimal rendering of an [int] *)

Fixpoint uint_codes (d : Decimal.uint) : pystr :=
  match d with
  | Decimal.Nil => []
  | Decimal.D0 d => 48%N :: uint_codes d
  | Decimal.D1 d => 49%N :: uint_codes d
  | Decimal.D2 d => 50%N :: uint_codes d
  | Decimal.D3 d => 51%N :: uint_codes d
  | Decimal.D4 d => 52%N :: uint_codes d
  | Decimal.D5 d => 53%N :: uint_codes d
  | Decimal.D6 d => 54%N :: uint_codes d
  | Decimal.D7 d => 55%N :: uint_codes d
  | Decimal.D8 d => 56%N :: uint_codes d
  | Decimal.D9 d => 57%N :: uint_codes d
  end.

(** [str(n)], also what [f"{n}"] renders. *)
Definition str_of_int (n : Z) : pystr :=
  match n with
  | Zneg p => 45%N :: uint_codes (Pos.to_uint p)
  | _ => uint_codes (N.to_uint (Z.to_N n))
  end.

(** ** Floats as exact rationals

    A finite double is a rational number. The two float operations of the
    program are the true division of two ints and the [.2f] format; CPython
    rounds both correctly (to nearest, ties to even), so both are functions of
    the exact value. *)

(** The integer nearest to [num / den], ties to even ([den > 0]). *)
Definition round_half_even (num den : Z) : Z :=
  let q := (num / den)%Z in
  let r := (num mod den)%Z in
  match (2 * r ?= den)%Z with
  | Lt => q
  | Gt => (q + 1)%Z
  | Eq => if Z.even q then q else (q + 1)%Z
  end.

(** [floor (log2 (p / q))] for positive [p] and [q]. *)
Definition floor_log2 (p q : Z) : Z :=
  let l := (Z.log2 p - Z.log2 q)%Z in
  let reaches :=
    if (0 <=? l)%Z then (q * 2 ^ l <=? p)%Z else (q <=? p * 2 ^ (- l))%Z in
  if reaches then l else (l - 1)%Z.

(** [a / b] on ints [a >= 0], [b > 0]: the double nearest to the quotient,
    that is the quotient rounded to 53 significant bits. (The sizes of this
    program are far below the overflow threshold of a double.) *)
Definition truediv (a b : Z) : Q :=
  if (a =? 0)%Z then 0%Q
  else
    let e := floor_log2 a b in
    let s := (52 - e)%Z in
    if (0 <=? s)%Z
    then Qmake (round_half_even (a * 2 ^ s) b) (Z.to_pos (2 ^ s))
    else Qmake (round_half_even a (b * 2 ^ (- s)) * 2 ^ (- s)) 1.

Definition two_digits (n : Z) : pystr :=
  [Z.to_N (48 + n / 10); Z.to_N (48 + n mod 10)].

(** The hundredths [n] that [f"{x:.2f}"] prints for [x >= 0]. *)
Definition hundredths (x : Q) : Z :=
  round_half_even (100 * Qnum x) (Zpos (Qden x)).

(** The text of [n] hundredths: integer part, point, two decimals. *)
Definition fixed2 (n : Z) : pystr :=
  str_of_int (n / 100) ++ lit "." ++ two_digits (n mod 100).

(** [f"{x:.2f}"] for [x >= 0]. *)
Definition format_2f (x : Q) : pystr := fixed2 (hundredths x).

(** ** The file system seen by the formatter

    [getsize p] is [None] when [os.path.exists(p)] is false, and the byte
    length of the file otherwise. *)
Definition filesystem := pystr -> option Z.

Definition get_file_size_human_readable (getsize : filesystem)
    (file_path : pystr) : pystr :=
  match getsize file_path with
  | Some size_bytes =>
      if (size_bytes <? 1024)%Z then
        str_of_int size_bytes ++ lit " B"
      else if (size_bytes <? 1024 * 1024)%Z then
        format_2f (truediv size_bytes 1024) ++ lit " KB"
      else
        format_2f (truediv size_bytes (1024 * 1024)) ++ lit " MB"
  | None => lit "N/A"
  end.

(** A file system with the four files of the repository's test and one
    file of more than 2^53 bytes. *)
Definition test_fs : filesystem := fun p =>
  if PyStr.eqb p (lit "empty.txt") then Some 0%Z
  else if PyStr.eqb p (lit "bytes.txt") then Some 500%Z
  else if PyStr.eqb p (lit "kb.txt") then Some 1500%Z
  else if PyStr.eqb p (lit "mb.txt") then Some (1024 * 1024 * 2)%Z
  else if PyStr.eqb p (lit "huge.txt") then Some (2 ^ 53 + 2 ^ 17 + 1)%Z
  else None.

End SizeFormatter.

Import SizeFormatter.

(* ================================================================== *)
(** * The crawler *)
(* ================================================================== *)

Module Crawler.

(** ** Exceptions *)

(** The handlers of [main] tell two classes apart: [except IOError] and
    [except Exception]. [OtherError] stands for every exception of class
    [Exception] that is not an [IOError]. *)
Inductive exn : Type := IOError | OtherError.

Definition is_ioerror (e : exn) : bool :=
  match e with IOError => true | OtherError => false end.

Inductive result (A : Type) : Type :=
| Ret (a : A)
| Raise (e : exn).

Arguments Ret {A} a.
Arguments Raise {A} e.

Definition bind {A B : Type} (m : result A) (k : A -> result B) : result B :=
  match m with
  | Ret a => k a
  | Raise e => Raise e
  end.

Notation "x <- m ;; k" := (bind m (fun x => k))
  (at level 61, m at next level, right associativity).

(** ** Data model *)

(** One search result: [result.get("href")] and [result.get("title")]; the
    title may be missing from the dictionary. *)
Record SearchResult : Type := {
  href : pystr;
  title : option pystr
}.

(** [extract_entities] returns a dict from label to the list of its distinct
    surface strings. *)
Definition Entities : Type := list (pystr * list pystr).

Record ScrapedRecord : Type := {
  r_topic : pystr;
  r_title : pystr;
  r_url : pystr;
  r_domain : pystr;
  r_snippet : pystr;
  r_content : pystr;
  r_scraped_at : pystr;
  r_entities : Entities;
  r_keywords : list pystr
}.

(** The value type of [domain_stats]: [{"success": _, "fail": _}]. *)
Record DomainStat : Type := {
  success : Z;
  fail : Z
}.

(** [domain_stats] is a [defaultdict]; its iteration order is the order in
    which the keys were inserted, so it is an association list with distinct
    keys, new keys at the end. *)
Definition stats_dict : Type := list (pystr * DomainStat).

(** A row of the domain summary: domain, successes, failures. *)
Record SummaryRow : Type := {
  row_domain : pystr;
  row_successes : Z;
  row_failures : Z
}.

(** What a run does to the outside, in order: the three [logging.info] lines
    that announce a step (searching a query, skipping a blacklisted URL,
    scraping a URL) and the file writes. The other log lines report outcomes
    and are not recorded. *)
Inductive event : Type :=
| LogSearching (query : pystr)
| LogSkipping (url : pystr)
| LogScraping (url : pystr)
| WriteQueryCsv (path : pystr) (rows : list ScrapedRecord)
| WriteFailedLog (path : pystr) (urls : list pystr)
| WriteMergedCsv (path : pystr) (rows : list ScrapedRecord)
| WriteMergedJson (path : pystr) (rows : list ScrapedRecord)
| WriteDomainSummary (path : pystr) (rows : list SummaryRow).

(** The collaborators. Those that look at the world (network, clock, file
    system) also take the number of world accesses made so far, so that two
    calls with the same argument may differ. *)
Record Env : Type := {
  (** [ddgs.text(query, max_results=max_results)] *)
  ddgs_text : nat -> pystr -> Z -> result (list SearchResult);
  (** [trafilatura.fetch_url(url)] *)
  fetch_url : nat -> pystr -> result (option pystr);
  (** [trafilatura.extract(downloaded, favor_recall=True,
      include_comments=True)] *)
  extract : pystr -> result (option pystr);
  (** [[p.get_text() for p in BeautifulSoup(downloaded,
      "html.parser").find_all("p")]] *)
  find_all_p_text : pystr -> result (list pystr);
  (** [[(ent.label_, ent.text) for ent in nlp(text).ents]] *)
  nlp_ents : pystr -> result (list (pystr * pystr));
  (** [urlparse(url).netloc] *)
  netloc : pystr -> pystr;
  (** [datetime.utcnow().isoformat()] *)
  utcnow_isoformat : nat -> pystr;
  (** [pd.DataFrame(rows).to_csv(path, index=False)] *)
  to_csv : nat -> pystr -> list ScrapedRecord -> result unit;
  (** [pd.DataFrame(rows).to_json(path, orient="records", indent=2)] *)
  to_json : nat -> pystr -> list ScrapedRecord -> result unit;
  (** [with open(path, "w") as f: for url in urls: f.write(url + "\n")] *)
  write_lines : nat -> pystr -> list pystr -> result unit;
  (** [pd.DataFrame(rows).to_csv(path, index=False)] on the summary rows *)
  summary_to_csv : nat -> pystr -> list SummaryRow -> result unit
}.

(** ** Configuration ([config.py]) *)

Definition MAX_RESULTS_PER_QUERY : Z := 10.
Definition MIN_WORDS_FOR_CONTENT : Z := 50.
Definition OUTPUT_DIR : pystr := lit "output".

(** ** The [domain_stats] dictionary *)

Definition zero_stat : DomainStat := {| success := 0; fail := 0 |}.

Fixpoint lookup (d : pystr) (m : stats_dict) : option DomainStat :=
  match m with
  | [] => None
  | (k, v) :: m' => if PyStr.eqb k d then Some v else lookup d m'
  end.

(** [domain_stats[d]] on a [defaultdict]: a missing key is first inserted
    with the value of the factory, [{"success": 0, "fail": 0}]. *)
Definition getitem (d : pystr) (m : stats_dict) : stats_dict :=
  match lookup d m with
  | Some _ => m
  | None => m ++ [(d, zero_stat)]
  end.

Definition update (d : pystr) (f : DomainStat -> DomainStat)
    (m : stats_dict) : stats_dict :=
  List.map (fun kv => if PyStr.eqb (fst kv) d then (fst kv, f (snd kv)) else kv) m.

(** [domain_stats[d]["success"] += 1] *)
Definition incr_success (d : pystr) (m : stats_dict) : stats_dict :=
  update d (fun s => {| success := success s + 1; fail := fail s |})
         (getitem d m).

(** [domain_stats[d]["fail"] += 1] *)
Definition incr_fail (d : pystr) (m : stats_dict) : stats_dict :=
  update d (fun s => {| success := success s; fail := fail s + 1 |})
         (getitem d m).

(** The counters of [d] as a reader sees them; a domain without an entry has
    none, which counts as zero. *)
Definition successes_of (d : pystr) (m : stats_dict) : Z :=
  match lookup d m with Some s => success s | None => 0 end.

Definition failures_of (d : pystr) (m : stats_dict) : Z :=
  match lookup d m with Some s => fail s | None => 0 end.

(** ** [sorted(items, key=...)]

    Python's [sorted] is stable. An insertion sort that places an element
    before the first element whose key is not smaller is a stable sort, and
    the result of a stable sort is determined by the keys. *)
Section Sorted.
Variable A : Type.
Variable key : A -> Z.

Fixpoint insert_by (x : A) (l : list A) : list A :=
  match l with
  | [] => [x]
  | y :: l' => if (key x <=? key y)%Z then x :: l else y :: insert_by x l'
  end.

Definition sorted (l : list A) : list A := fold_right insert_by [] l.
End Sorted.

Arguments insert_by {A} key x l.
Arguments sorted {A} key l.

(** The rows handed to the summary writer:
    [[{"domain": d, "successes": s["success"], "failures": s["fail"]}
      for d, s in sorted(domain_stats.items(), key=lambda x: -x[1]["success"])]] *)
Definition domain_summary_rows (m : stats_dict) : list SummaryRow :=
  List.map (fun kv => {| row_domain := fst kv;
                         row_successes := success (snd kv);
                         row_failures := fail (snd kv) |})
           (sorted (fun kv => - success (snd kv))%Z m).

(** ** The snippet: [content[:300].strip().replace("\n", " ") + "..."] *)
Definition make_snippet (content : pystr) : pystr :=
  replace_char newline space (strip (slice_to 300 content)) ++ lit "...".

(** ** Run state *)

Record state : Type := {
  all_data : list ScrapedRecord;
  domain_stats : stats_dict;
  trace : list event;
  tick : nat
}.

(** The two lists local to one query. *)
Record qstate : Type := {
  query_data : list ScrapedRecord;
  failed_urls : list pystr
}.

Definition initial_state : state :=
  {| all_data := []; domain_stats := []; trace := []; tick := 0 |}.

Definition empty_qstate : qstate := {| query_data := []; failed_urls := [] |}.

(** A step recorded in the trace. *)
Definition emit (ev : event) (st : state) : state :=
  {| all_data := all_data st; domain_stats := domain_stats st;
     trace := trace st ++ [ev]; tick := tick st |}.

(** One access to the world. *)
Definition advance (st : state) : state :=
  {| all_data := all_data st; domain_stats := domain_stats st;
     trace := trace st; tick := S (tick st) |}.

Definition with_stats (m : stats_dict) (st : state) : state :=
  {| all_data := all_data st; domain_stats := m;
     trace := trace st; tick := tick st |}.

(** [failed_urls.append(url); domain_stats[domain]["fail"] += 1] *)
Definition record_failure (url domain : pystr) (qs : qstate * state)
    : qstate * state :=
  ({| query_data := query_data (fst qs);
      failed_urls := failed_urls (fst qs) ++ [url] |},
   with_stats (incr_fail domain (domain_stats (snd qs))) (snd qs)).

(** [query_data.append(rec); domain_stats[domain]["success"] += 1] *)
Definition record_success (rec : ScrapedRecord) (domain : pystr)
    (qs : qstate * state) : qstate * state :=
  ({| query_data := query_data (fst qs) ++ [rec];
      failed_urls := failed_urls (fst qs) |},
   with_stats (incr_success domain (domain_stats (snd qs))) (snd qs)).

(** How a run ends: normally, or with an exception no handler caught. *)
Inductive outcome : Type :=
| Finished (st : state)
| Crashed (e : exn) (st : state).

Definition final_state (o : outcome) : state :=
  match o with Finished st => st | Crashed _ st => st end.

Definition and_then (o : outcome) (k : state -> outcome) : outcome :=
  match o with
  | Finished st => k st
  | Crashed e st => Crashed e st
  end.

(** The state a block of [main] ends in, whether it ends normally or not:
    the accumulators are those of [st] and the trace is that of [st]
    followed by [evs]. *)
Definition ends_with (st : state) (evs : list event) (o : outcome) : Prop :=
  all_data (final_state o) = all_data st
  /\ domain_stats (final_state o) = domain_stats st
  /\ trace (final_state o) = trace st ++ evs.

(** [try: <write> except IOError: <log>]: an [IOError] is logged and the run
    goes on; any other exception leaves [main]. *)
Definition except_ioerror (r : result unit) (st : state) : outcome :=
  match r with
  | Ret _ => Finished st
  | Raise e => if is_ioerror e then Finished st else Crashed e st
  end.

Definition mem (d : pystr) (s : list pystr) : bool :=
  existsb (PyStr.eqb d) s.

(** The acceptance test of [scrape_content] on a value of type [str | None]:
    [text and len(text.split()) >= min_words]. *)
Definition long_enough (min_words : Z) (text : option pystr) : bool :=
  match text with
  | Some c => truthy c && (min_words <=? len (split c))%Z
  | None => false
  end.

Section Program.
Variable E : Env.

(** The labels of the dictionary literal of [extract_entities], in
    insertion order (the literal names ["LOC"] twice; the key keeps its
    first position). *)
Definition entity_labels : list pystr :=
  List.map lit
    ["PERSON"; "ORG"; "GPE"; "LOC"; "PRODUCT"; "EVENT"; "DATE"; "NORP";
     "FAC"; "LAW"; "LANGUAGE"; "MONEY"; "ORDINAL"; "PERCENT"; "QUANTITY";
     "CARDINAL"; "WORK_OF_ART"; "TIME"]%string.

(** [extract_entities]. [list(set(v))] keeps one copy of each string; the
    order Python gives them is not specified, the model keeps the order of
    [nodup]. *)
Definition extract_entities (text : pystr) : result Entities :=
  ents <- nlp_ents E text ;;
  Ret (flat_map
         (fun k =>
            let v := List.map snd
                       (List.filter (fun e => PyStr.eqb (fst e) k) ents) in
            match v with
            | [] => []
            | _ => [(k, nodup (list_eq_dec N.eq_dec) v)]
            end)
         entity_labels).

(** [search_links] *)
Definition search_links (t : nat) (query : pystr) (max_results : Z)
    : result (list SearchResult) :=
  ddgs_text E t query max_results.

(** [scrape_content]; [t] is the number of world accesses before the
    call. *)
Definition scrape_content (t : nat) (url : pystr) (min_words : Z)
    : result (option pystr) :=
  downloaded <- fetch_url E t url ;;
  match downloaded with
  | Some d =>
      if truthy d then
        content <- extract E d ;;
        if long_enough min_words content then Ret content
        else
          ps <- find_all_p_text E d ;;
          let fallback_text := join [newline] (List.filter truthy ps) in
          if long_enough min_words (Some fallback_text)
          then Ret (Some fallback_text)
          else Ret None
      else Ret None
  | None => Ret None
  end.

Variable blacklist : list pystr.

(** The body of [for result in search_results]. *)
Definition process_result (query : pystr) (result : SearchResult)
    (qs : qstate * state) : qstate * state :=
  let url := href result in
  let title :=
    match title result with Some t => t | None => lit "Untitled" end in
  let domain := netloc E url in
  if mem domain blacklist then
    record_failure url domain (fst qs, emit (LogSkipping url) (snd qs))
  else
    let st := emit (LogScraping url) (snd qs) in
    let q := fst qs in
    match scrape_content (tick st) url MIN_WORDS_FOR_CONTENT with
    | Ret (Some content) =>
        let st := advance st in
        if truthy content then
          let snippet := make_snippet content in
          let scraped_at := utcnow_isoformat E (tick st) in
          let st := advance st in
          match extract_entities content with
          | Ret entities =>
              record_success
                {| r_topic := query; r_title := title; r_url := url;
                   r_domain := domain; r_snippet := snippet;
                   r_content := content; r_scraped_at := scraped_at;
                   r_entities := entities; r_keywords := [] |}
                domain (q, st)
          | Raise _ => record_failure url domain (q, st)
          end
        else record_failure url domain (q, st)
    | Ret None => record_failure url domain (q, advance st)
    | Raise _ => record_failure url domain (q, advance st)
    end.

Variable max_results : Z.

(** [all_data.extend(query_data)] *)
Definition extend_all_data (rows : list ScrapedRecord) (st : state)
    : state :=
  {| all_data := all_data st ++ rows; domain_stats := domain_stats st;
     trace := trace st; tick := tick st |}.

(** [if query_data: try: df.to_csv(output_path) except IOError: ...] *)
Definition save_query_data (output_path : pystr) (q : qstate) (st : state)
    : outcome :=
  match query_data q with
  | [] => Finished st
  | _ =>
      let st := emit (WriteQueryCsv output_path (query_data q)) st in
      except_ioerror (to_csv E (tick st) output_path (query_data q))
                     (advance st)
  end.

(** [if failed_urls: try: <write one URL per line> except IOError: ...] *)
Definition save_failed_urls (failed_log_path : pystr) (q : qstate)
    (st : state) : outcome :=
  match failed_urls q with
  | [] => Finished st
  | _ =>
      let st := emit (WriteFailedLog failed_log_path (failed_urls q)) st in
      except_ioerror
        (write_lines E (tick st) failed_log_path (failed_urls q))
        (advance st)
  end.

(** The end of the body of [for query in args.queries]: the two writes
    and [all_data.extend(query_data)]. *)
Definition query_tail (output_path failed_log_path : pystr) (q : qstate)
    (st : state) : outcome :=
  and_then (save_query_data output_path q st)
    (fun st =>
       and_then (save_failed_urls failed_log_path q st)
         (fun st => Finished (extend_all_data (query_data q) st))).

(** The body of [for query in args.queries]. *)
Definition run_query (query : pystr) (st : state) : outcome :=
  let st := emit (LogSearching query) st in
  let searched := search_links (tick st) query max_results in
  let st := advance st in
  match searched with
  | Raise _ => Finished st
  | Ret [] => Finished st
  | Ret search_results =>
      let safe_name := sanitize_filename query in
      let output_path := OUTPUT_DIR ++ lit "/" ++ safe_name ++ lit ".csv" in
      let failed_log_path :=
        OUTPUT_DIR ++ lit "/" ++ safe_name ++ lit "_failed.txt" in
      let qs :=
        fold_left (fun acc r => process_result query r acc)
                  search_results (empty_qstate, st) in
      query_tail output_path failed_log_path (fst qs) (snd qs)
  end.

Fixpoint run_queries (queries : list pystr) (st : state) : outcome :=
  match queries with
  | [] => Finished st
  | query :: rest => and_then (run_query query st) (run_queries rest)
  end.

(** The two merged files, written in one [try] block. *)
Definition save_merged (st : state) : outcome :=
  match all_data st with
  | [] => Finished st
  | _ =>
      let merged_csv := OUTPUT_DIR ++ lit "/_all_queries_merged.csv" in
      let merged_json := OUTPUT_DIR ++ lit "/_all_queries_merged.json" in
      let st := emit (WriteMergedCsv merged_csv (all_data st)) st in
      match to_csv E (tick st) merged_csv (all_data st) with
      | Ret _ =>
          let st := emit (WriteMergedJson merged_json (all_data st))
                         (advance st) in
          except_ioerror (to_json E (tick st) merged_json (all_data st))
                         (advance st)
      | Raise e => except_ioerror (Raise e) (advance st)
      end
  end.

Definition save_domain_summary (st : state) : outcome :=
  let domain_log := OUTPUT_DIR ++ lit "/_domain_stats_summary.csv" in
  let rows := domain_summary_rows (domain_stats st) in
  let st := emit (WriteDomainSummary domain_log rows) st in
  except_ioerror (summary_to_csv E (tick st) domain_log rows) (advance st).

(** [main], from the two empty accumulators to the summary. The command
    line supplies [queries], [max_results] and the blacklist. *)
Definition main (queries : list pystr) : outcome :=
  and_then (run_queries queries initial_state)
           (fun st => and_then (save_merged st) save_domain_summary).

End Program.

(** ** Reading a trace *)

Section Observers.
Variable E : Env.

(** The hosts of the URLs the result loop has handled, in order: each
    iteration logs either the skip or the scrape of its URL. *)
Definition attempted_hosts (tr : list event) : list pystr :=
  flat_map (fun ev =>
              match ev with
              | LogSkipping url | LogScraping url => [netloc E url]
              | _ => []
              end) tr.

(** The number of URLs attempted for domain [d]. *)
Definition attempts (d : pystr) (tr : list event) : Z :=
  Z.of_nat (count_occ (list_eq_dec N.eq_dec) (attempted_hosts tr) d).
End Observers.

(** The distinct elements of a list in the order of their first
    occurrence. *)
Definition first_seen (l : list pystr) : list pystr :=
  fold_left (fun seen d => if mem d seen then seen else seen ++ [d]) l [].

(** The queries whose search was started, in order. *)
Definition searched_queries (tr : list event) : list pystr :=
  flat_map (fun ev => match ev with LogSearching q => [q] | _ => [] end) tr.

(** The URLs whose scrape was started, in order. *)
Definition scraped_urls (tr : list event) : list pystr :=
  flat_map (fun ev => match ev with LogScraping u => [u] | _ => [] end) tr.

Definition is_merged_csv_write (ev : event) : bool :=
  match ev with WriteMergedCsv _ _ => true | _ => false end.

Definition is_merged_json_write (ev : event) : bool :=
  match ev with WriteMergedJson _ _ => true | _ => false end.

Definition is_summary_write (ev : event) : bool :=
  match ev with WriteDomainSummary _ _ => true | _ => false end.

Definition is_query_write (ev : event) : bool :=
  match ev with WriteQueryCsv _ _ | WriteFailedLog _ _ => true | _ => false end.

(** The keys of [domain_stats], in iteration order. *)
Definition keys (m : stats_dict) : list pystr := List.map fst m.

Local Open Scope Z_scope.

(** ** The bookkeeping invariant *)

(** For every domain the two counters add up to the number of URLs
    attempted for it. *)
Definition counted (E : Env) (st : state) : Prop :=
  forall d : pystr,
    (successes_of d (domain_stats st) + failures_of d (domain_stats st)
     = attempts E d (trace st)).

(** The dictionary has one entry per attempted host, in the order in which
    the hosts were first met, and no counter is negative. *)
Definition well_formed (E : Env) (st : state) : Prop :=
  keys (domain_stats st) = first_seen (attempted_hosts E (trace st))
  /\ counted E st
  /\ forall d : pystr,
       (0 <= successes_of d (domain_stats st))
       /\ (0 <= failures_of d (domain_stats st)).

(** Events that are not a step of the result loop. *)
Definition is_attempt (ev : event) : bool :=
  match ev with
  | LogSkipping _ | LogScraping _ => true
  | _ => false
  end.

(** The writers fail only the way [main] expects a write to fail. *)
Definition writers_raise_ioerror_only (E : Env) : Prop :=
  (forall t p rows e, to_csv E t p rows = Raise e -> e = IOError)
  /\ (forall t p rows e, to_json E t p rows = Raise e -> e = IOError)
  /\ (forall t p urls e, write_lines E t p urls = Raise e -> e = IOError)
  /\ (forall t p rows e, summary_to_csv E t p rows = Raise e -> e = IOError).

End Crawler.

Import Crawler.

(* ================================================================== *)
(** * Scenarios *)
(* ================================================================== *)

(** Small concrete worlds, in the style of the scenarios of the
    specification: two pages that scrape well, one blacklisted host, one
    query without results and one query whose search raises. *)
Module Scenarios.

Definition url_a : pystr := lit "https://example.com/a".
Definition url_b : pystr := lit "https://blocked.org/x".
Definition url_c : pystr := lit "https://news.site/c".
Definition url_d : pystr := lit "https://example.com/d".

Definition host_of (url : pystr) : pystr :=
  if PyStr.eqb url url_a then lit "example.com"
  else if PyStr.eqb url url_b then lit "blocked.org"
  else if PyStr.eqb url url_c then lit "news.site"
  else if PyStr.eqb url url_d then lit "example.com"
  else [].

(** Fifty one-letter words; the text ends with a space. *)
Definition fifty_words : pystr := List.concat (List.repeat (lit "a ") 50).

Definition page : pystr := lit "<html><body>page</body></html>".
Definition bare_page : pystr := lit "<html></html>".

Definition search (q : pystr) : result (list SearchResult) :=
  if PyStr.eqb q (lit "test") then
    Ret [ {| href := url_a; title := Some (lit "A") |};
          {| href := url_b; title := None |};
          {| href := url_d; title := Some (lit "D") |} ]
  else if PyStr.eqb q (lit "other") then
    Ret [ {| href := url_c; title := Some (lit "C") |} ]
  else if PyStr.eqb q (lit "nothing") then Ret []
  else Raise OtherError.

Definition fetch (url : pystr) : result (option pystr) :=
  if PyStr.eqb url url_a || PyStr.eqb url url_c then Ret (Some page)
  else if PyStr.eqb url url_d then Ret (Some bare_page)
  else Ret None.

Definition structured (d : pystr) : result (option pystr) :=
  if PyStr.eqb d page then Ret (Some fifty_words) else Ret None.

(** The world is built from the entity tagger and the table writer, the
    two collaborators the scenarios vary. *)
Definition world (tagger : pystr -> result (list (pystr * pystr)))
    (csv : pystr -> result unit) : Env :=
  {| ddgs_text := fun _ q _ => search q;
     fetch_url := fun _ url => fetch url;
     extract := structured;
     find_all_p_text := fun _ => Ret [];
     nlp_ents := tagger;
     netloc := host_of;
     utcnow_isoformat := fun _ => lit "2024-01-01T00:00:00";
     to_csv := fun _ path _ => csv path;
     to_json := fun _ _ _ => Ret tt;
     write_lines := fun _ _ _ => Ret tt;
     summary_to_csv := fun _ _ _ => Ret tt |}.

(** Every collaborator answers. *)
Definition calm : Env := world (fun _ => Ret []) (fun _ => Ret tt).

(** The entity tagger raises on every text. *)
Definition tagger_raises : Env :=
  world (fun _ => Raise OtherError) (fun _ => Ret tt).

(** Writing the merged table fails with an [IOError]. *)
Definition merged_csv_fails : Env :=
  world (fun _ => Ret [])
        (fun path =>
           if PyStr.eqb path (lit "output/_all_queries_merged.csv")
           then Raise IOError else Ret tt).

Definition blacklist : list pystr := [lit "blocked.org"].

Definition first_result : SearchResult :=
  {| href := url_a; title := Some (lit "A") |}.

End Scenarios.

(* ================================================================== *)
(** * The rest of [main] *)
(* ================================================================== *)

Module Outputs.

(** ** Loading the blacklist *)

(** What [os.path.exists(path)], [open(path, "r")] and the iteration over
    the file give: [None] when the path does not exist; otherwise the lines
    of the file, each with its line end, or the exception raised while
    opening or reading. *)
Definition text_files : Type := pystr -> option (result (list pystr)).

(** The block of [main] that loads the blacklist:
    [{line.strip() for line in f if line.strip()}] when the file can be
    read, the empty set when the path does not exist or an [IOError] is
    caught. The set is kept as the list of its elements in file order; the
    program only tests membership. An exception that is not an [IOError]
    leaves [main]. *)
Definition load_blacklist (files : text_files) (path : pystr)
    : result (list pystr) :=
  match files path with
  | Some (Ret lines) =>
      Ret (List.map strip
             (List.filter (fun line => truthy (strip line)) lines))
  | Some (Raise e) => if is_ioerror e then Ret [] else Raise e
  | None => Ret []
  end.

(** ** The table of [extract_entities] *)

(** The surface strings that [ents] tags [k], in the order of the tagger:
    the list [entities[k]] after the loop over [doc.ents]. *)
Definition tagged (ents : list (pystr * pystr)) (k : pystr) : list pystr :=
  List.map snd (List.filter (fun e => PyStr.eqb (fst e) k) ents).

(** The item of the returned dictionary for label [k], if any. *)
Definition entity_row (ents : list (pystr * pystr)) (k : pystr) : Entities :=
  match tagged ents k with
  | [] => []
  | _ => [(k, nodup (list_eq_dec N.eq_dec) (tagged ents k))]
  end.

(** ** The two file names of a query *)

(** [f"{OUTPUT_DIR}/{safe_name}.csv"] *)
Definition output_path_of (query : pystr) : pystr :=
  OUTPUT_DIR ++ lit "/" ++ sanitize_filename query ++ lit ".csv".

(** [f"{OUTPUT_DIR}/{safe_name}_failed.txt"] *)
Definition failed_log_path_of (query : pystr) : pystr :=
  OUTPUT_DIR ++ lit "/" ++ sanitize_filename query ++ lit "_failed.txt".

(** ** Reading the outputs *)

(** The URLs the run hands to its failure-log writes, in order. A write is
    recorded when it is attempted: whether the writer then succeeds, and
    whether a later write to the same path replaces the file, is not part
    of this list. *)
Definition urls_sent_to_failure_logs (tr : list event) : list pystr :=
  flat_map (fun ev =>
              match ev with
              | WriteFailedLog _ urls => urls
              | _ => []
              end) tr.

(** The number of records of domain [d] among [rows]. *)
Definition count_domain (d : pystr) (rows : list ScrapedRecord) : Z :=
  len (List.filter (fun rec => PyStr.eqb (r_domain rec) d) rows).

(** The number of URLs of host [d] among [urls]. *)
Definition count_host (E : Env) (d : pystr) (urls : list pystr) : Z :=
  len (List.filter (fun url => PyStr.eqb (netloc E url) d) urls).

(** The counters agree with what the run hands to its writers: the
    successes of a domain are its records in [all_data], its failures are
    its URLs among those sent to the failure-log writes. *)
Definition accounted (E : Env) (st : state) : Prop :=
  forall d : pystr,
    (successes_of d (domain_stats st) = count_domain d (all_data st)
     /\ failures_of d (domain_stats st)
        = count_host E d (urls_sent_to_failure_logs (trace st)))%Z.

(** The sum of [f] over a list. *)
Definition sum_over {A : Type} (f : A -> Z) (l : list A) : Z :=
  fold_right (fun x acc => (f x + acc)%Z) 0%Z l.

(** The sum of a column of the summary. *)
Definition column_sum (column : SummaryRow -> Z) (rows : list SummaryRow)
    : Z :=
  sum_over column rows.

(** What holds of a record whatever the page: its domain is the host of
    its URL and is not blacklisted, its content is not empty and has the
    configured number of words, its snippet is made from its content, and
    its keywords are empty. *)
Definition record_ok (E : Env) (blacklist : list pystr)
    (rec : ScrapedRecord) : Prop :=
  r_domain rec = netloc E (r_url rec)
  /\ ~ In (r_domain rec) blacklist
  /\ r_content rec <> []
  /\ (MIN_WORDS_FOR_CONTENT <= word_count (r_content rec))%Z
  /\ r_snippet rec = make_snippet (r_content rec)
  /\ r_keywords rec = [].

(** [l] is [l1] and [l2] interleaved, each in its own order. *)
Inductive interleaved {A : Type} : list A -> list A -> list A -> Prop :=
| interleaved_nil : interleaved [] [] []
| interleaved_left (x : A) (l1 l2 l : list A) :
    interleaved l1 l2 l -> interleaved (x :: l1) l2 (x :: l)
| interleaved_right (x : A) (l1 l2 l : list A) :
    interleaved l1 l2 l -> interleaved l1 (x :: l2) (x :: l).

(** A blacklist file of four lines: two hosts, one of them padded with
    blanks, and two blank lines. *)
Definition blacklist_file : text_files := fun path =>
  if PyStr.eqb path (lit "blacklist.txt") then
    Some (Ret [ [32; 32; 98; 108; 111; 99; 107; 101; 100; 46; 111; 114;
                 103; 32; 10]%N;
                [10]%N;
                lit "spam.example" ++ [10%N];
                [32; 9; 10]%N ])
  else if PyStr.eqb path (lit "locked.txt") then Some (Raise IOError)
  else None.

End Outputs.

Import Outputs.

(* ================================================================== *)
(** * [main] as it is written *)
(* ================================================================== *)

(** The definitions above take the command line as given and the host of
    a URL as a value. This module adds the two places where the source does
    neither: [urlparse(url).netloc] is evaluated before the [try] of the
    result loop, and the name [args] is read without ever being assigned. *)
Module AsWritten.

(** [urlparse(url).netloc]: the network location of the URL, or the
    [ValueError] that [urlparse] raises on a malformed URL. *)
Definition url_parser : Type := pystr -> result pystr.

(** The collaborators of [E] with the parser as URL parser; where the
    parser raises no host is ever asked for. *)
Definition with_parser (E : Env) (parse : url_parser) : Env :=
  {| ddgs_text := ddgs_text E;
     fetch_url := fetch_url E;
     extract := extract E;
     find_all_p_text := find_all_p_text E;
     nlp_ents := nlp_ents E;
     netloc := fun url => match parse url with Ret d => d | Raise _ => [] end;
     utcnow_isoformat := utcnow_isoformat E;
     to_csv := to_csv E;
     to_json := to_json E;
     write_lines := write_lines E;
     summary_to_csv := summary_to_csv E |}.

(** How the result loop ends: after its last result, or with the exception
    that left it and the state of the two lists at that point. *)
Inductive loop_outcome : Type :=
| Continue (qs : qstate * state)
| Abort (e : exn) (qs : qstate * state).

(** The body of [for result in search_results] with its first statements as
    written: [domain = urlparse(url).netloc] stands before the [try], so its
    exception leaves the loop, before anything is logged or counted. *)
Definition process_result_unguarded (E : Env) (parse : url_parser)
    (blacklist : list pystr) (query : pystr) (result : SearchResult)
    (qs : qstate * state) : loop_outcome :=
  match parse (href result) with
  | Raise e => Abort e qs
  | Ret _ =>
      Continue (process_result (with_parser E parse) blacklist query result qs)
  end.

Fixpoint process_results_unguarded (E : Env) (parse : url_parser)
    (blacklist : list pystr) (query : pystr) (rs : list SearchResult)
    (qs : qstate * state) : loop_outcome :=
  match rs with
  | [] => Continue qs
  | r :: rs' =>
      match process_result_unguarded E parse blacklist query r qs with
      | Continue qs' =>
          process_results_unguarded E parse blacklist query rs' qs'
      | Abort e qs' => Abort e qs'
      end
  end.

(** The body of [for query in args.queries]; an exception of the result
    loop leaves [main]. *)
Definition run_query_unguarded (E : Env) (parse : url_parser)
    (blacklist : list pystr) (max_results : Z) (query : pystr) (st : state)
    : outcome :=
  let st := emit (LogSearching query) st in
  let searched := search_links E (tick st) query max_results in
  let st := advance st in
  match searched with
  | Raise _ => Finished st
  | Ret [] => Finished st
  | Ret search_results =>
      match process_results_unguarded E parse blacklist query search_results
                                      (empty_qstate, st) with
      | Abort e qs => Crashed e (snd qs)
      | Continue qs =>
          query_tail (with_parser E parse) (output_path_of query)
                     (failed_log_path_of query) (fst qs) (snd qs)
      end
  end.

Fixpoint run_queries_unguarded (E : Env) (parse : url_parser)
    (blacklist : list pystr) (max_results : Z) (queries : list pystr)
    (st : state) : outcome :=
  match queries with
  | [] => Finished st
  | query :: rest =>
      and_then (run_query_unguarded E parse blacklist max_results query st)
               (run_queries_unguarded E parse blacklist max_results rest)
  end.

(** The value of [args]: [args.queries], [args.max_results] and
    [args.blacklist]. *)
Record Args : Type := {
  a_queries : list pystr;
  a_max_results : Z;
  a_blacklist : pystr
}.

(** [main] from the loading of the blacklist on, for a value of [args]. *)
Definition main_with_args (E : Env) (parse : url_parser)
    (files : text_files) (args : Args) : outcome :=
  match load_blacklist files (a_blacklist args) with
  | Raise e => Crashed e initial_state
  | Ret blacklist =>
      and_then
        (run_queries_unguarded E parse blacklist (a_max_results args)
                               (a_queries args) initial_state)
        (fun st =>
           and_then (save_merged (with_parser E parse) st)
                    (save_domain_summary (with_parser E parse)))
  end.

(** The names [main] assigns, which are its local variables. *)
Definition names_assigned_in_main : list string :=
  ["parser"; "blacklist"; "f"; "e"; "all_data"; "domain_stats"; "query";
   "search_results"; "safe_name"; "output_path"; "failed_log_path";
   "query_data"; "failed_urls"; "tqdm"; "result"; "url"; "title"; "domain";
   "content"; "snippet"; "scraped_at"; "entities"; "df"; "df_all";
   "merged_csv"; "merged_json"; "domain_log"]%string.

(** The names the module binds: its imports, [nlp] and its functions. *)
Definition names_of_the_module : list string :=
  ["argparse"; "os"; "re"; "pd"; "datetime"; "DDGS"; "fetch_url"; "extract";
   "BeautifulSoup"; "urlparse"; "logging"; "defaultdict"; "spacy"; "Dict";
   "List"; "Any"; "Set"; "MAX_RESULTS_PER_QUERY"; "MIN_WORDS_FOR_CONTENT";
   "OUTPUT_DIR"; "BLACKLIST_FILE"; "nlp"; "extract_entities"; "search_links";
   "scrape_content"; "sanitize_filename"; "get_file_size_human_readable";
   "main"]%string.

(** Whether reading [name] inside [main] finds a binding ([args] is no
    built-in name either). *)
Definition name_is_bound (name : string) : bool :=
  existsb (String.eqb name) (names_assigned_in_main ++ names_of_the_module).

(** [main] as written: the parser is built, the output directory made and
    logging configured, none of which the model observes; then
    [args.blacklist] is read. [value_of] gives the value a bound name
    holds; a name without binding raises [NameError]. The two log messages
    of [main] whose string literal is left open (after the per-query CSV
    write and after the merged writes) are read as closed; as the file
    stands Python refuses the module with a [SyntaxError] before any of it
    runs. *)
Definition main_as_written (E : Env) (parse : url_parser)
    (files : text_files) (value_of : string -> Args) : outcome :=
  if name_is_bound "args"
  then main_with_args E parse files (value_of "args"%string)
  else Crashed OtherError initial_state.

(** ** A world with a malformed URL *)

(** [urlparse] raises [ValueError] on this URL. *)
Definition broken_url : pystr := lit "http://[".

Definition strict_parser : url_parser := fun url =>
  if PyStr.eqb url broken_url then Raise OtherError
  else Ret (Scenarios.host_of url).

(** A parser that accepts every URL. *)
Definition lenient_parser : url_parser := fun url =>
  Ret (Scenarios.host_of url).

Definition broken_results : list SearchResult :=
  [ {| href := Scenarios.url_a; title := Some (lit "A") |};
    {| href := broken_url; title := None |};
    {| href := Scenarios.url_c; title := Some (lit "C") |} ].

(** The calm world, except that the query ["broken"] finds three results
    of which the second has the malformed URL. *)
Definition broken_world : Env :=
  {| ddgs_text := fun _ q _ =>
       if PyStr.eqb q (lit "broken") then Ret broken_results
       else Scenarios.search q;
     fetch_url := fetch_url Scenarios.calm;
     extract := extract Scenarios.calm;
     find_all_p_text := find_all_p_text Scenarios.calm;
     nlp_ents := nlp_ents Scenarios.calm;
     netloc := netloc Scenarios.calm;
     utcnow_isoformat := utcnow_isoformat Scenarios.calm;
     to_csv := to_csv Scenarios.calm;
     to_json := to_json Scenarios.calm;
     write_lines := write_lines Scenarios.calm;
     summary_to_csv := summary_to_csv Scenarios.calm |}.

Definition command_line (queries : list pystr) : Args :=
  {| a_queries := queries;
     a_max_results := MAX_RESULTS_PER_QUERY;
     a_blacklist := lit "blacklist.txt" |}.

End AsWritten.

Import AsWritten.

(* ================================================================== *)
(** * Properties *)
(* ================================================================== *)

(** ** Strings *)

Lemma pystr_eqb_eq (a b : pystr) : PyStr.eqb a b = true <-> a = b.
Proof.
  unfold PyStr.eqb. destruct (list_eq_dec N.eq_dec a b); split; congruence.
Qed.

Lemma pystr_eqb_refl (a : pystr) : PyStr.eqb a a = true.
Proof. now apply pystr_eqb_eq. Qed.

Lemma pystr_eqb_neq (a b : pystr) : PyStr.eqb a b = false <-> a <> b.
Proof.
  unfold PyStr.eqb. destruct (list_eq_dec N.eq_dec a b); split; congruence.
Qed.

Lemma pystr_eqb_sym (a b : pystr) : PyStr.eqb a b = PyStr.eqb b a.
Proof.
  destruct (PyStr.eqb b a) eqn:H.
  - apply pystr_eqb_eq in H. subst. apply pystr_eqb_refl.
  - apply pystr_eqb_neq in H. apply pystr_eqb_neq. congruence.
Qed.

(** ** Filename sanitizer *)

Lemma underscore_allowed : allowed underscore = true.
Proof. reflexivity. Qed.

Lemma sanitize_char_allowed (c : codepoint) :
  allowed (if allowed c then c else underscore) = true.
Proof. destruct (allowed c) eqn:H; [exact H | exact underscore_allowed]. Qed.

Lemma sanitize_filename_allowed (s : pystr) :
  Forall (fun c => allowed c = true) (sanitize_filename s).
Proof.
  unfold sanitize_filename. induction s as [|c s IH]; simpl.
  - constructor.
  - constructor; [apply sanitize_char_allowed | exact IH].
Qed.

Lemma sanitize_filename_fixes_allowed (s : pystr) :
  Forall (fun c => allowed c = true) s -> sanitize_filename s = s.
Proof.
  unfold sanitize_filename. induction 1 as [|c s Hc _ IH]; simpl.
  - reflexivity.
  - rewrite Hc, IH. reflexivity.
Qed.

(** C5. [sanitize_filename] is a function on all strings; its result holds
    only characters of [[A-Za-z0-9_]], is as long as its argument, and is the
    argument with each character outside the class replaced, position by
    position, by one underscore: three adjacent disallowed characters give
    three underscores. *)
Theorem sanitize_filename_one_for_one :
  forall s : pystr,
    Forall (fun c => allowed c = true) (sanitize_filename s)
    /\ List.length (sanitize_filename s) = List.length s
    /\ (forall i : nat,
          nth_error (sanitize_filename s) i
          = option_map (fun c => if allowed c then c else underscore)
                       (nth_error s i))
    /\ sanitize_filename (lit "a!@#b") = lit "a___b".
Proof.
  intros s. split; [apply sanitize_filename_allowed|].
  split; [apply length_map|].
  split; [|reflexivity].
  intros i. unfold sanitize_filename. apply nth_error_map.
Qed.

(** C6. On the input of the repository's test, [sanitize_filename] returns
    one underscore for each of the ten punctuation characters, not the
    string the test expects. *)
Theorem sanitize_filename_special_chars :
  sanitize_filename (lit "file with!@#$%^&*()special chars")
  = lit "file_with__________special_chars"
  /\ sanitize_filename (lit "file with!@#$%^&*()special chars")
     <> lit "file_with_special_chars".
Proof.
  split; [reflexivity|].
  vm_compute. discriminate.
Qed.

(** C10. [sanitize_filename] is idempotent: every character of a result is
    in the allowed class, so a second application leaves it unchanged. *)
Theorem sanitize_filename_idempotent :
  forall s : pystr,
    sanitize_filename (sanitize_filename s) = sanitize_filename s
    /\ Forall (fun c => (if allowed c then c else underscore) = c)
              (sanitize_filename s).
Proof.
  intros s. split.
  - apply sanitize_filename_fixes_allowed, sanitize_filename_allowed.
  - eapply Forall_impl; [|apply sanitize_filename_allowed].
    intros c Hc. simpl in Hc. now rewrite Hc.
Qed.

(** ** Size formatter *)

Local Open Scope Z_scope.

Lemma round_half_even_near (num den : Z) :
  0 < den -> 2 * Z.abs (round_half_even num den * den - num) <= den.
Proof.
  intros Hd. unfold round_half_even.
  pose proof (Z.div_mod num den ltac:(lia)) as Hdm.
  pose proof (Z.mod_pos_bound num den Hd) as Hr.
  destruct (Z.compare_spec (2 * (num mod den)) den) as [H|H|H];
    [destruct (Z.even (num / den))| |]; nia.
Qed.

Lemma round_half_even_exact (q den : Z) :
  0 < den -> round_half_even (q * den) den = q.
Proof.
  intros Hd. unfold round_half_even.
  rewrite Z.div_mul, Z.mod_mul by lia.
  destruct (Z.compare_spec (2 * 0) den); try lia. 
Qed.

Lemma hundredths_near (x : Q) :
  (Qabs ((hundredths x # 100) - x) <= 1 # 200)%Q.
Proof.
  destruct x as [p d]. unfold hundredths. cbn [Qnum Qden].
  pose proof (round_half_even_near (100 * p) (Zpos d) ltac:(lia)) as H.
  set (n := round_half_even (100 * p) (Zpos d)) in *.
  unfold Qle, Qabs, Qminus, Qplus, Qopp. cbn [Qnum Qden].
  rewrite !Pos2Z.inj_mul. lia.
Qed.

Lemma floor_log2_pow2 (a k : Z) :
  0 < a -> 0 <= k -> floor_log2 a (2 ^ k) = Z.log2 a - k.
Proof.
  intros Ha Hk. unfold floor_log2. rewrite Z.log2_pow2 by lia.
  pose proof (Z.log2_spec a Ha) as [Hlo _].
  pose proof (Z.log2_nonneg a) as Hl.
  destruct (0 <=? Z.log2 a - k) eqn:Hs.
  - apply Z.leb_le in Hs.
    replace (2 ^ k * 2 ^ (Z.log2 a - k)) with (2 ^ Z.log2 a)
      by (rewrite <- Z.pow_add_r by lia; f_equal; lia).
    apply Z.leb_le in Hlo. now rewrite Hlo.
  - apply Z.leb_gt in Hs.
    assert (H : 2 ^ k <= a * 2 ^ (- (Z.log2 a - k))).
    { replace (2 ^ k) with (2 ^ Z.log2 a * 2 ^ (- (Z.log2 a - k)))
        by (rewrite <- Z.pow_add_r by lia; f_equal; lia).
      apply Z.mul_le_mono_nonneg_r; [apply Z.pow_nonneg; lia | exact Hlo]. }
    apply Z.leb_le in H. now rewrite H.
Qed.

Lemma truediv_pow2_unfold (a k : Z) :
  0 < a -> 0 <= k -> Z.log2 a <= 52 + k ->
  truediv a (2 ^ k)
  = Qmake (round_half_even (a * 2 ^ (52 - (Z.log2 a - k))) (2 ^ k))
          (Z.to_pos (2 ^ (52 - (Z.log2 a - k)))).
Proof.
  intros Ha Hk Hl. unfold truediv.
  destruct (Z.eqb_spec a 0) as [->|_]; [lia|].
  rewrite floor_log2_pow2 by assumption.
  destruct (Z.leb_spec 0 (52 - (Z.log2 a - k))); [reflexivity | lia].
Qed.

Lemma truediv_pow2_near (a k : Z) :
  0 < a -> 0 <= k -> Z.log2 a <= 52 + k ->
  (Qabs (truediv a (2 ^ k) - (a # Z.to_pos (2 ^ k)))
   <= 1 # Z.to_pos (2 ^ (53 - (Z.log2 a - k))))%Q.
Proof.
  intros Ha Hk Hl. rewrite truediv_pow2_unfold by assumption.
  set (s := 52 - (Z.log2 a - k)).
  assert (Hs : 0 <= s) by (unfold s; lia).
  replace (53 - (Z.log2 a - k)) with (s + 1) by (unfold s; lia).
  assert (Hpk : 0 < 2 ^ k) by (apply Z.pow_pos_nonneg; lia).
  assert (Hps : 0 < 2 ^ s) by (apply Z.pow_pos_nonneg; lia).
  pose proof (round_half_even_near (a * 2 ^ s) (2 ^ k) Hpk) as H.
  set (m := round_half_even (a * 2 ^ s) (2 ^ k)) in *.
  unfold Qle, Qabs, Qminus, Qplus, Qopp. cbn [Qnum Qden].
  rewrite !Pos2Z.inj_mul, !Z2Pos.id
    by (try assumption; apply Z.pow_pos_nonneg; lia).
  rewrite Z.pow_add_r, Z.pow_1_r by lia.
  nia.
Qed.

Lemma truediv_pow2_exact (a k : Z) :
  0 < a < 2 ^ 53 -> 0 <= k ->
  (truediv a (2 ^ k) == a # Z.to_pos (2 ^ k))%Q.
Proof.
  intros [Ha Hlt] Hk.
  assert (Hl : Z.log2 a < 53) by (apply Z.log2_lt_pow2; lia).
  rewrite truediv_pow2_unfold by lia.
  set (s := 52 - (Z.log2 a - k)).
  assert (Hpk : 0 < 2 ^ k) by (apply Z.pow_pos_nonneg; lia).
  assert (Hps : 0 < 2 ^ s) by (apply Z.pow_pos_nonneg; unfold s; lia).
  assert (Hsplit : 2 ^ s = 2 ^ (s - k) * 2 ^ k).
  { rewrite <- Z.pow_add_r by (unfold s; lia). f_equal. lia. }
  replace (a * 2 ^ s) with ((a * 2 ^ (s - k)) * 2 ^ k) by (rewrite Hsplit; ring).
  rewrite round_half_even_exact by assumption.
  unfold Qeq. cbn [Qnum Qden]. rewrite !Z2Pos.id by assumption.
  rewrite Hsplit. ring.
Qed.

(** C7. [get_file_size_human_readable] returns ["N/A"] for a path that does
    not exist. For a file of [b] bytes it returns [b] and [" B"] below 1024;
    from 1024 and below 1024^2 the hundredths nearest to [b/1024], printed
    with two decimals, and [" KB"]; from 1024^2 on the hundredths nearest to
    the float quotient [b/1024^2], printed with two decimals, and [" MB"].
    The float quotient is [b/1024^2] itself below 2^53 bytes and within
    1/2048 of it for every size a file can have. 0 bytes give ["0 B"], 500
    bytes ["500 B"], 1500 bytes ["1.46 KB"], 2 MiB ["2.00 MB"]. *)
Theorem get_file_size_human_readable_spec :
  forall (getsize : filesystem) (file_path : pystr),
    (getsize file_path = None ->
     get_file_size_human_readable getsize file_path = lit "N/A")
    /\ (forall b : Z,
          getsize file_path = Some b -> b < 2 ^ 63 ->
          (b < 1024 ->
           get_file_size_human_readable getsize file_path
           = str_of_int b ++ lit " B")
          /\ (1024 <= b < 1024 * 1024 ->
              exists n : Z,
                get_file_size_human_readable getsize file_path
                = fixed2 n ++ lit " KB"
                /\ (Qabs ((n # 100) - (b # 1024)) <= 1 # 200)%Q)
          /\ (1024 * 1024 <= b ->
              exists n : Z,
                get_file_size_human_readable getsize file_path
                = fixed2 n ++ lit " MB"
                /\ (Qabs ((n # 100) - truediv b (1024 * 1024)) <= 1 # 200)%Q
                /\ (Qabs (truediv b (1024 * 1024) - (b # 1048576))
                    <= 1 # 2048)%Q
                /\ (b < 2 ^ 53 ->
                    (truediv b (1024 * 1024) == b # 1048576)%Q)))
    /\ (getsize file_path = Some 0 ->
        get_file_size_human_readable getsize file_path = lit "0 B")
    /\ (getsize file_path = Some 500 ->
        get_file_size_human_readable getsize file_path = lit "500 B")
    /\ (getsize file_path = Some 1500 ->
        get_file_size_human_readable getsize file_path = lit "1.46 KB")
    /\ (getsize file_path = Some (2 * 1024 * 1024) ->
        get_file_size_human_readable getsize file_path = lit "2.00 MB").
Proof.
  intros getsize file_path. unfold get_file_size_human_readable.
  split; [intros ->; reflexivity|].
  split.
  - intros b -> Hmax. split; [|split].
    + intros Hb. destruct (Z.ltb_spec b 1024); [reflexivity | lia].
    + intros [Hlo Hhi].
      destruct (Z.ltb_spec b 1024); [lia|].
      destruct (Z.ltb_spec b (1024 * 1024)); [|lia].
      exists (hundredths (truediv b 1024)). split; [reflexivity|].
      assert (Hex : (truediv b 1024 == b # 1024)%Q).
      { change 1024 with (2 ^ 10) at 1.
        change 1024%positive with (Z.to_pos (2 ^ 10)).
        apply truediv_pow2_exact; lia. }
      rewrite <- Hex. apply hundredths_near.
    + intros Hlo.
      destruct (Z.ltb_spec b 1024); [lia|].
      destruct (Z.ltb_spec b (1024 * 1024)); [lia|].
      exists (hundredths (truediv b (1024 * 1024))).
      split; [reflexivity|]. split; [apply hundredths_near|].
      change (1024 * 1024) with (2 ^ 20).
      change 1048576%positive with (Z.to_pos (2 ^ 20)).
      split.
      * assert (Hl : Z.log2 b < 63) by (apply Z.log2_lt_pow2; lia).
        eapply Qle_trans; [apply truediv_pow2_near; lia|].
        assert (H20 : 20 <= Z.log2 b) by (apply Z.log2_le_pow2; lia).
        unfold Qle. cbn [Qnum Qden].
        rewrite Z2Pos.id by (apply Z.pow_pos_nonneg; lia).
        change (Zpos 2048) with (2 ^ 11).
        rewrite !Z.mul_1_l. apply Z.pow_le_mono_r; lia.
      * intros H53. apply truediv_pow2_exact; lia.
  - repeat split; intros ->; vm_compute; reflexivity.
Qed.

(** Above 2^53 bytes the quotient is rounded to a double before it is
    printed. For 2^53 + 2^17 + 1 bytes the double is 8589934592.125, which
    prints as [.12]; the exact quotient is just above it and its nearest
    hundredth is [.13]. *)
Lemma float_quotient_above_2_53 :
  get_file_size_human_readable test_fs (lit "huge.txt")
  = lit "8589934592.12 MB"
  /\ hundredths ((2 ^ 53 + 2 ^ 17 + 1) # 1048576) = 858993459213.
Proof. split; vm_compute; reflexivity. Qed.

(** The theorem at the 1500-byte file of the test file system. *)
Lemma get_file_size_human_readable_spec_witness :
  test_fs (lit "kb.txt") = Some 1500
  /\ get_file_size_human_readable test_fs (lit "kb.txt") = lit "1.46 KB".
Proof.
  split; [reflexivity|].
  apply (get_file_size_human_readable_spec test_fs (lit "kb.txt")).
  reflexivity.
Defined.

(** ** The crawler *)

(** ** The statistics dictionary *)

Lemma lookup_app (d : pystr) (m1 m2 : stats_dict) :
  lookup d (m1 ++ m2)
  = match lookup d m1 with Some s => Some s | None => lookup d m2 end.
Proof.
  induction m1 as [|[k v] m1 IH]; simpl; [reflexivity|].
  destruct (PyStr.eqb k d); [reflexivity | exact IH].
Qed.

Lemma lookup_update (d d' : pystr) (f : DomainStat -> DomainStat)
    (m : stats_dict) :
  lookup d' (update d f m)
  = if PyStr.eqb d' d then option_map f (lookup d' m) else lookup d' m.
Proof.
  induction m as [|[k v] m IH]; simpl.
  - now destruct (PyStr.eqb d' d).
  - destruct (PyStr.eqb k d) eqn:Hkd; simpl;
      destruct (PyStr.eqb k d') eqn:Hkd'; simpl.
    + apply pystr_eqb_eq in Hkd'. subst k. now rewrite Hkd.
    + exact IH.
    + apply pystr_eqb_eq in Hkd'. subst k. now rewrite Hkd.
    + exact IH.
Qed.

Lemma lookup_getitem (d d' : pystr) (m : stats_dict) :
  lookup d' (getitem d m)
  = match lookup d' m with
    | Some s => Some s
    | None => if PyStr.eqb d' d then Some zero_stat else None
    end.
Proof.
  unfold getitem. destruct (lookup d m) eqn:Hd.
  - destruct (lookup d' m) eqn:Hd'; [reflexivity|].
    destruct (PyStr.eqb d' d) eqn:He; [|reflexivity].
    apply pystr_eqb_eq in He. congruence.
  - rewrite lookup_app. destruct (lookup d' m); [reflexivity|].
    simpl. rewrite (pystr_eqb_sym d d'). now destruct (PyStr.eqb d' d).
Qed.

Lemma lookup_None_keys (d : pystr) (m : stats_dict) :
  lookup d m = None <-> ~ In d (keys m).
Proof.
  induction m as [|[k v] m IH]; simpl.
  - tauto.
  - destruct (PyStr.eqb k d) eqn:H.
    + apply pystr_eqb_eq in H. split; [discriminate | tauto].
    + apply pystr_eqb_neq in H. rewrite IH. tauto.
Qed.

Lemma mem_In (d : pystr) (s : list pystr) : mem d s = true <-> In d s.
Proof.
  unfold mem. rewrite existsb_exists. split.
  - intros (x & Hx & He). apply pystr_eqb_eq in He. now subst.
  - intros H. exists d. split; [exact H | apply pystr_eqb_refl].
Qed.

Lemma mem_keys_lookup (d : pystr) (m : stats_dict) :
  mem d (keys m) = match lookup d m with Some _ => true | None => false end.
Proof.
  destruct (lookup d m) eqn:H.
  - apply mem_In. destruct (in_dec (list_eq_dec N.eq_dec) d (keys m)) as [|n];
      [assumption|]. apply lookup_None_keys in n. congruence.
  - apply lookup_None_keys in H. destruct (mem d (keys m)) eqn:Hm;
      [|reflexivity]. apply mem_In in Hm. contradiction.
Qed.

Lemma keys_update (d : pystr) (f : DomainStat -> DomainStat) (m : stats_dict) :
  keys (update d f m) = keys m.
Proof.
  unfold keys, update. rewrite map_map. apply map_ext.
  intros [k v]. simpl. now destruct (PyStr.eqb k d).
Qed.

Lemma keys_getitem (d : pystr) (m : stats_dict) :
  keys (getitem d m) = if mem d (keys m) then keys m else keys m ++ [d].
Proof.
  rewrite mem_keys_lookup. unfold getitem.
  destruct (lookup d m); [reflexivity|].
  unfold keys. now rewrite map_app.
Qed.

Lemma keys_incr_success (d : pystr) (m : stats_dict) :
  keys (incr_success d m) = if mem d (keys m) then keys m else keys m ++ [d].
Proof. unfold incr_success. now rewrite keys_update, keys_getitem. Qed.

Lemma keys_incr_fail (d : pystr) (m : stats_dict) :
  keys (incr_fail d m) = if mem d (keys m) then keys m else keys m ++ [d].
Proof. unfold incr_fail. now rewrite keys_update, keys_getitem. Qed.

(** The counters after one increment. *)
Lemma successes_of_incr_success (d d' : pystr) (m : stats_dict) :
  successes_of d' (incr_success d m)
  = if PyStr.eqb d' d then successes_of d' m + 1 else successes_of d' m.
Proof.
  unfold successes_of, incr_success.
  rewrite lookup_update, lookup_getitem.
  destruct (PyStr.eqb d' d); destruct (lookup d' m); reflexivity.
Qed.

Lemma failures_of_incr_success (d d' : pystr) (m : stats_dict) :
  failures_of d' (incr_success d m) = failures_of d' m.
Proof.
  unfold failures_of, incr_success.
  rewrite lookup_update, lookup_getitem.
  destruct (PyStr.eqb d' d); destruct (lookup d' m); reflexivity.
Qed.

Lemma successes_of_incr_fail (d d' : pystr) (m : stats_dict) :
  successes_of d' (incr_fail d m) = successes_of d' m.
Proof.
  unfold successes_of, incr_fail.
  rewrite lookup_update, lookup_getitem.
  destruct (PyStr.eqb d' d); destruct (lookup d' m); reflexivity.
Qed.

Lemma failures_of_incr_fail (d d' : pystr) (m : stats_dict) :
  failures_of d' (incr_fail d m)
  = if PyStr.eqb d' d then failures_of d' m + 1 else failures_of d' m.
Proof.
  unfold failures_of, incr_fail.
  rewrite lookup_update, lookup_getitem.
  destruct (PyStr.eqb d' d); destruct (lookup d' m); reflexivity.
Qed.

(** ** Word counts and the acceptance test *)

Lemma word_count_nil : word_count [] = 0.
Proof. reflexivity. Qed.

Lemma word_count_nonneg (s : pystr) : 0 <= word_count s.
Proof. unfold word_count, len. lia. Qed.

Lemma truthy_true (s : pystr) : truthy s = true <-> s <> [].
Proof. destruct s; simpl; split; congruence. Qed.

Lemma truthy_false (s : pystr) : truthy s = false <-> s = [].
Proof. destruct s; simpl; split; congruence. Qed.

Lemma positive_word_count_truthy (s : pystr) :
  1 <= word_count s -> truthy s = true.
Proof. destruct s; [rewrite word_count_nil; lia | reflexivity]. Qed.

Lemma long_enough_Some (min_words : Z) (c : pystr) :
  long_enough min_words (Some c) = true
  <-> c <> [] /\ min_words <= word_count c.
Proof.
  unfold long_enough, word_count.
  rewrite andb_true_iff, Z.leb_le, truthy_true. tauto.
Qed.

Lemma long_enough_Some_false (min_words : Z) (c : pystr) :
  long_enough min_words (Some c) = false
  <-> c = [] \/ word_count c < min_words.
Proof.
  unfold long_enough, word_count.
  rewrite andb_false_iff, Z.leb_gt, truthy_false. tauto.
Qed.

(** ** [scrape_content] *)

Section ScrapeContent.
Variable E : Env.

Lemma scrape_content_accepts (t : nat) (url : pystr) (min_words : Z)
    (c : pystr) :
  scrape_content E t url min_words = Ret (Some c) ->
  c <> [] /\ min_words <= word_count c.
Proof.
  unfold scrape_content, bind.
  destruct (fetch_url E t url) as [[d|]|]; try discriminate.
  destruct (truthy d); try discriminate.
  destruct (extract E d) as [content|]; try discriminate.
  destruct (long_enough min_words content) eqn:Hc.
  - intros [= ->]. now apply long_enough_Some.
  - destruct (find_all_p_text E d) as [ps|]; try discriminate.
    destruct (long_enough min_words (Some _)) eqn:Hf; try discriminate.
    intros [= <-]. now apply long_enough_Some.
Qed.
End ScrapeContent.

(** C1, as stated, at threshold 0: the page has no structured text and no
    paragraph, so the newline-joined paragraph text is the empty string, of
    zero words, which reaches the threshold; [scrape_content] returns
    nothing and not that text. *)
Lemma scrape_content_threshold_zero_counterexample :
  fetch_url Scenarios.calm 0 Scenarios.url_d = Ret (Some Scenarios.bare_page)
  /\ extract Scenarios.calm Scenarios.bare_page = Ret None
  /\ find_all_p_text Scenarios.calm Scenarios.bare_page = Ret []
  /\ 0 <= word_count (join [newline] (List.filter truthy []))
  /\ scrape_content Scenarios.calm 0 Scenarios.url_d 0
     <> Ret (Some (join [newline] (List.filter truthy []))).
Proof.
  repeat split; try reflexivity; vm_compute; discriminate.
Qed.

(** C1, amended. When the fetch returns nothing, or an empty document,
    [scrape_content] returns nothing. When it returns a non-empty document:
    the structured text is returned if it is non-empty and has at least
    [min_words] words; otherwise the newline-joined text of the paragraphs
    with non-empty text is returned if it is non-empty and has at least
    [min_words] words; otherwise nothing is returned. For a threshold of at
    least one, a text that reaches the threshold is non-empty. *)
Theorem scrape_content_cases :
  forall (E : Env) (t : nat) (url : pystr) (min_words : Z),
    (fetch_url E t url = Ret None ->
     scrape_content E t url min_words = Ret None)
    /\ (fetch_url E t url = Ret (Some []) ->
        scrape_content E t url min_words = Ret None)
    /\ (forall d : pystr,
          fetch_url E t url = Ret (Some d) -> d <> [] ->
          forall content : option pystr,
            extract E d = Ret content ->
            (forall c : pystr,
               content = Some c -> c <> [] -> min_words <= word_count c ->
               scrape_content E t url min_words = Ret (Some c))
            /\ (forall ps : list pystr,
                  find_all_p_text E d = Ret ps ->
                  (forall c : pystr,
                     content = Some c ->
                     c = [] \/ word_count c < min_words) ->
                  let fallback_text := join [newline] (List.filter truthy ps) in
                  (fallback_text <> [] ->
                   min_words <= word_count fallback_text ->
                   scrape_content E t url min_words = Ret (Some fallback_text))
                  /\ (fallback_text = []
                      \/ word_count fallback_text < min_words ->
                      scrape_content E t url min_words = Ret None)))
    /\ (1 <= min_words ->
        forall c : pystr, min_words <= word_count c -> c <> []).
Proof.
  intros E t url min_words.
  split; [intros H; unfold scrape_content; now rewrite H|].
  split; [intros H; unfold scrape_content; now rewrite H|].
  split.
  - intros d Hf Hd content He.
    assert (Hhead : scrape_content E t url min_words
                    = if long_enough min_words content then Ret content
                      else
                        ps <- find_all_p_text E d ;;
                        (if long_enough min_words
                              (Some (join [newline] (List.filter truthy ps)))
                         then Ret (Some (join [newline] (List.filter truthy ps)))
                         else Ret None)).
    { unfold scrape_content. rewrite Hf. simpl.
      apply truthy_true in Hd. rewrite Hd, He. reflexivity. }
    split.
    + intros c -> Hc Hw. rewrite Hhead.
      assert (H : long_enough min_words (Some c) = true)
        by now apply long_enough_Some.
      now rewrite H.
    + intros ps Hp Hrej fallback_text.
      assert (Hno : long_enough min_words content = false).
      { destruct content as [c|]; [|reflexivity].
        apply long_enough_Some_false. now apply Hrej. }
      rewrite Hhead, Hno, Hp. unfold bind. fold fallback_text. split.
      * intros Hne Hw.
        assert (H : long_enough min_words (Some fallback_text) = true)
          by now apply long_enough_Some.
        now rewrite H.
      * intros Hsmall.
        assert (H : long_enough min_words (Some fallback_text) = false)
          by now apply long_enough_Some_false.
        now rewrite H.
  - intros Hmin c Hw. apply truthy_true, positive_word_count_truthy. lia.
Qed.

(** The theorem at the first page of the scenario: the structured text has
    fifty words and is returned at the configured threshold. *)
Lemma scrape_content_cases_witness :
  scrape_content Scenarios.calm 0 Scenarios.url_a MIN_WORDS_FOR_CONTENT
  = Ret (Some Scenarios.fifty_words).
Proof.
  refine (proj1 (proj1 (proj2 (proj2
            (scrape_content_cases Scenarios.calm 0 Scenarios.url_a
                                  MIN_WORDS_FOR_CONTENT)))
            Scenarios.page _ _ (Some Scenarios.fifty_words) _)
            Scenarios.fifty_words _ _ _).
  - reflexivity.
  - discriminate.
  - reflexivity.
  - reflexivity.
  - discriminate.
  - vm_compute. discriminate.
Defined.

(** ** First occurrences *)

Lemma first_seen_snoc (l : list pystr) (d : pystr) :
  first_seen (l ++ [d])
  = if mem d (first_seen l) then first_seen l else first_seen l ++ [d].
Proof. unfold first_seen. now rewrite fold_left_app. Qed.

Lemma first_seen_In (l : list pystr) (d : pystr) :
  In d (first_seen l) <-> In d l.
Proof.
  induction l as [|x l IH] using rev_ind; [reflexivity|].
  rewrite first_seen_snoc, in_app_iff. simpl.
  destruct (mem x (first_seen l)) eqn:Hm.
  - apply mem_In in Hm. rewrite IH in *. intuition (subst; auto).
  - rewrite in_app_iff, IH. simpl. tauto.
Qed.

Lemma first_seen_NoDup (l : list pystr) : NoDup (first_seen l).
Proof.
  induction l as [|x l IH] using rev_ind; [constructor|].
  rewrite first_seen_snoc.
  destruct (mem x (first_seen l)) eqn:Hm; [exact IH|].
  apply NoDup_app; [exact IH | repeat constructor; auto |].
  intros a Ha [<-|[]]. apply mem_In in Ha. congruence.
Qed.

(** ** Reading a trace *)

Section Traces.
Variable E : Env.

Lemma attempted_hosts_snoc (tr : list event) (ev : event) :
  attempted_hosts E (tr ++ [ev])
  = attempted_hosts E tr
    ++ match ev with
       | LogSkipping url | LogScraping url => [netloc E url]
       | _ => []
       end.
Proof.
  unfold attempted_hosts. rewrite flat_map_app. simpl.
  now rewrite app_nil_r.
Qed.

Lemma attempted_hosts_other (tr : list event) (ev : event) :
  is_attempt ev = false ->
  attempted_hosts E (tr ++ [ev]) = attempted_hosts E tr.
Proof.
  intros H. rewrite attempted_hosts_snoc.
  destruct ev; try discriminate; apply app_nil_r.
Qed.

Lemma attempts_snoc_host (tr : list event) (ev : event) (url d : pystr) :
  ev = LogSkipping url \/ ev = LogScraping url ->
  attempts E d (tr ++ [ev])
  = if PyStr.eqb d (netloc E url) then attempts E d tr + 1
    else attempts E d tr.
Proof.
  intros Hev. unfold attempts. rewrite attempted_hosts_snoc.
  assert (Hh : match ev with
               | LogSkipping u | LogScraping u => [netloc E u]
               | _ => []
               end = [netloc E url]) by (destruct Hev; now subst).
  rewrite Hh, count_occ_app, Nat2Z.inj_add. cbn [count_occ].
  destruct (list_eq_dec N.eq_dec (netloc E url) d) as [->|Hne].
  - now rewrite pystr_eqb_refl.
  - assert (Hb : PyStr.eqb d (netloc E url) = false)
      by (apply pystr_eqb_neq; congruence).
    rewrite Hb. apply Z.add_0_r.
Qed.
End Traces.

(** ** One iteration of the result loop *)

Section ResultLoop.
Variable E : Env.
Variable blacklist : list pystr.

(** What an iteration does: it logs one step for its URL and either
    records a failure or appends a record and records a success. *)
Lemma process_result_effect (query : pystr) (r : SearchResult)
    (q : qstate) (st : state) :
  let url := href r in
  let d := netloc E url in
  let q' := fst (process_result E blacklist query r (q, st)) in
  let st' := snd (process_result E blacklist query r (q, st)) in
  all_data st' = all_data st
  /\ (exists ev : event,
        (ev = LogSkipping url \/ ev = LogScraping url)
        /\ trace st' = trace st ++ [ev])
  /\ ((domain_stats st' = incr_fail d (domain_stats st)
       /\ query_data q' = query_data q
       /\ failed_urls q' = failed_urls q ++ [url])
      \/ (domain_stats st' = incr_success d (domain_stats st)
          /\ failed_urls q' = failed_urls q
          /\ exists rec : ScrapedRecord,
               query_data q' = query_data q ++ [rec])).
Proof.
  cbv zeta. unfold process_result. cbv zeta. cbn [fst snd].
  destruct (mem (netloc E (href r)) blacklist).
  - cbn. split; [reflexivity|]. split; [eauto|]. left. auto.
  - destruct (scrape_content E _ (href r) MIN_WORDS_FOR_CONTENT)
      as [[content|]|e].
    + destruct (truthy content).
      * destruct (extract_entities E content) as [ents|e]; cbn.
        -- split; [reflexivity|]. split; [eauto|]. right. eauto.
        -- split; [reflexivity|]. split; [eauto|]. left. auto.
      * cbn. split; [reflexivity|]. split; [eauto|]. left. auto.
    + cbn. split; [reflexivity|]. split; [eauto|]. left. auto.
    + cbn. split; [reflexivity|]. split; [eauto|]. left. auto.
Qed.

(** The counters of an iteration: exactly one of the two counters of the
    URL's domain grows, by one, and no other counter changes. *)
Lemma process_result_counters (query : pystr) (r : SearchResult)
    (q : qstate) (st : state) :
  let d := netloc E (href r) in
  let m := domain_stats st in
  let m' := domain_stats (snd (process_result E blacklist query r (q, st))) in
  ((successes_of d m' = successes_of d m + 1
    /\ failures_of d m' = failures_of d m)
   \/ (successes_of d m' = successes_of d m
       /\ failures_of d m' = failures_of d m + 1))
  /\ (forall d' : pystr,
        d' <> d ->
        successes_of d' m' = successes_of d' m
        /\ failures_of d' m' = failures_of d' m).
Proof.
  cbv zeta.
  destruct (process_result_effect query r q st) as (_ & _ & [H|H]).
  - destruct H as (-> & _). split.
    + right. rewrite successes_of_incr_fail, failures_of_incr_fail.
      now rewrite pystr_eqb_refl.
    + intros d' Hd'. apply pystr_eqb_neq in Hd'.
      rewrite successes_of_incr_fail, failures_of_incr_fail.
      now rewrite Hd'.
  - destruct H as (-> & _). split.
    + left. rewrite successes_of_incr_success, failures_of_incr_success.
      now rewrite pystr_eqb_refl.
    + intros d' Hd'. apply pystr_eqb_neq in Hd'.
      rewrite successes_of_incr_success, failures_of_incr_success.
      now rewrite Hd'.
Qed.

Lemma process_result_well_formed (query : pystr) (r : SearchResult)
    (q : qstate) (st : state) :
  well_formed E st ->
  well_formed E (snd (process_result E blacklist query r (q, st))).
Proof.
  intros (Hk & Hc & Hn).
  pose proof (process_result_counters query r q st) as Hcnt.
  destruct (process_result_effect query r q st)
    as (_ & (ev & Hev & Htr) & Hst).
  cbv zeta in *.
  set (st' := snd (process_result E blacklist query r (q, st))) in *.
  set (d := netloc E (href r)) in *.
  split; [|split].
  - rewrite Htr, attempted_hosts_snoc.
    assert (Hh : match ev with
                 | LogSkipping u | LogScraping u => [netloc E u]
                 | _ => []
                 end = [d]) by (destruct Hev; now subst).
    rewrite Hh, first_seen_snoc, <- Hk.
    destruct Hst as [(Hs & _)|(Hs & _)]; rewrite Hs.
    + apply keys_incr_fail.
    + apply keys_incr_success.
  - intros d'. rewrite Htr, (attempts_snoc_host E (trace st) ev (href r) d' Hev).
    fold d. specialize (Hc d').
    destruct (list_eq_dec N.eq_dec d' d) as [->|Hne].
    + rewrite pystr_eqb_refl. destruct Hcnt as [[(? & ?)|(? & ?)] _]; lia.
    + assert (Hb : PyStr.eqb d' d = false) by now apply pystr_eqb_neq.
      rewrite Hb. destruct Hcnt as [_ Ho].
      destruct (Ho d' Hne). lia.
  - intros d'. specialize (Hn d').
    destruct (list_eq_dec N.eq_dec d' d) as [->|Hne].
    + destruct Hcnt as [[(? & ?)|(? & ?)] _]; lia.
    + destruct Hcnt as [_ Ho]. destruct (Ho d' Hne). lia.
Qed.

Lemma process_results_well_formed (query : pystr)
    (rs : list SearchResult) (qs : qstate * state) :
  well_formed E (snd qs) ->
  well_formed E
    (snd (fold_left (fun acc r => process_result E blacklist query r acc)
                    rs qs)).
Proof.
  revert qs. induction rs as [|r rs IH]; intros [q st] H; [exact H|].
  simpl. apply IH.
  destruct (process_result E blacklist query r (q, st)) eqn:Hp.
  change s with (snd (q0, s)). rewrite <- Hp.
  now apply process_result_well_formed.
Qed.
End ResultLoop.

(** ** Handlers *)

Lemma final_state_except_ioerror (r : result unit) (st : state) :
  final_state (except_ioerror r st) = st.
Proof. destruct r as [u|e]; [reflexivity | now destruct e]. Qed.

Lemma except_ioerror_finished (r : result unit) (st : state) :
  (forall e, r = Raise e -> e = IOError) ->
  except_ioerror r st = Finished st.
Proof.
  intros H. destruct r as [u|e]; [reflexivity|].
  now rewrite (H e eq_refl).
Qed.

Lemma final_state_and_then (o : outcome) (k : state -> outcome) :
  final_state (and_then o k)
  = match o with
    | Finished st => final_state (k st)
    | Crashed _ st => st
    end.
Proof. now destruct o. Qed.

(** ** The steps between two iterations leave the bookkeeping alone *)

Lemma well_formed_same (E : Env) (st st' : state) :
  domain_stats st' = domain_stats st ->
  attempted_hosts E (trace st') = attempted_hosts E (trace st) ->
  well_formed E st -> well_formed E st'.
Proof.
  intros Hs Ht (Hk & Hc & Hn). unfold well_formed, counted, attempts.
  rewrite Hs, Ht. auto.
Qed.

Section Run.
Variable E : Env.

Lemma save_query_data_ends (path : pystr) (q : qstate) (st : state) :
  ends_with st
    match query_data q with
    | [] => []
    | _ => [WriteQueryCsv path (query_data q)]
    end
    (save_query_data E path q st).
Proof.
  unfold ends_with, save_query_data.
  destruct (query_data q); cbn [final_state].
  - now rewrite app_nil_r.
  - now rewrite final_state_except_ioerror.
Qed.

Lemma save_failed_urls_ends (path : pystr) (q : qstate) (st : state) :
  ends_with st
    match failed_urls q with
    | [] => []
    | _ => [WriteFailedLog path (failed_urls q)]
    end
    (save_failed_urls E path q st).
Proof.
  unfold ends_with, save_failed_urls.
  destruct (failed_urls q); cbn [final_state].
  - now rewrite app_nil_r.
  - now rewrite final_state_except_ioerror.
Qed.

Lemma save_domain_summary_ends (st : state) :
  ends_with st
    [WriteDomainSummary (OUTPUT_DIR ++ lit "/_domain_stats_summary.csv")
                        (domain_summary_rows (domain_stats st))]
    (save_domain_summary E st).
Proof.
  unfold ends_with, save_domain_summary. cbv zeta.
  now rewrite final_state_except_ioerror.
Qed.

Lemma save_merged_ends (st : state) :
  exists evs : list event,
    ends_with st evs (save_merged E st)
    /\ Forall (fun ev => is_merged_csv_write ev = true
                         \/ is_merged_json_write ev = true) evs.
Proof.
  unfold ends_with, save_merged.
  destruct (all_data st) as [|rec rows] eqn:Ha.
  - exists []. cbn [final_state]. rewrite app_nil_r, Ha. auto.
  - cbv zeta. destruct (to_csv E _ _ _) as [u|e].
    + eexists [_; _]. rewrite final_state_except_ioerror. cbn.
      rewrite <- app_assoc. repeat split; auto.
    + eexists [_]. rewrite final_state_except_ioerror. cbn.
      repeat split; auto.
Qed.
End Run.

Lemma searched_queries_app (tr1 tr2 : list event) :
  searched_queries (tr1 ++ tr2) = searched_queries tr1 ++ searched_queries tr2.
Proof. apply flat_map_app. Qed.

Lemma searched_queries_none (evs : list event) :
  Forall (fun ev => match ev with LogSearching _ => False | _ => True end) evs ->
  searched_queries evs = [].
Proof.
  induction 1 as [|ev evs Hev _ IH]; [reflexivity|].
  simpl. rewrite IH. now destruct ev.
Qed.

Lemma attempted_hosts_app (E : Env) (tr1 tr2 : list event) :
  attempted_hosts E (tr1 ++ tr2)
  = attempted_hosts E tr1 ++ attempted_hosts E tr2.
Proof. apply flat_map_app. Qed.

Lemma attempted_hosts_none (E : Env) (evs : list event) :
  Forall (fun ev => is_attempt ev = false) evs ->
  attempted_hosts E evs = [].
Proof.
  induction 1 as [|ev evs Hev _ IH]; [reflexivity|].
  simpl. rewrite IH. now destruct ev.
Qed.

Section RunLemmas.
Variable E : Env.
Variable blacklist : list pystr.
Variable max_results : Z.

(** The result loop logs one step per result, for the host of the
    result, and leaves [all_data] alone. *)
Lemma process_results_trace (query : pystr) (rs : list SearchResult)
    (qs : qstate * state) :
  let qs' := fold_left (fun acc r => process_result E blacklist query r acc)
                       rs qs in
  all_data (snd qs') = all_data (snd qs)
  /\ exists evs : list event,
       trace (snd qs') = trace (snd qs) ++ evs
       /\ Forall (fun ev => is_attempt ev = true) evs
       /\ attempted_hosts E evs = List.map (fun r => netloc E (href r)) rs.
Proof.
  cbv zeta. revert qs. induction rs as [|r rs IH]; intros [q st].
  - simpl. split; [reflexivity|]. exists []. now rewrite app_nil_r.
  - simpl fold_left.
    destruct (process_result_effect E blacklist query r q st)
      as (Ha & (ev & Hev & Htr) & _).
    destruct (process_result E blacklist query r (q, st)) as [q1 st1].
    cbn [fst snd] in *.
    destruct (IH (q1, st1)) as (Ha' & evs & Htr' & Hall & Hh).
    cbn [fst snd] in *. split; [congruence|].
    exists (ev :: evs). rewrite Htr', Htr, <- app_assoc.
    split; [reflexivity|]. split.
    + constructor; [destruct Hev; now subst | exact Hall].
    + cbn [attempted_hosts flat_map List.map]. fold (attempted_hosts E evs).
      rewrite Hh. destruct Hev; now subst.
Qed.

Lemma query_tail_ends (p1 p2 : pystr) (q : qstate) (st : state) :
  domain_stats (final_state (query_tail E p1 p2 q st)) = domain_stats st
  /\ exists evs : list event,
       trace (final_state (query_tail E p1 p2 q st)) = trace st ++ evs
       /\ Forall (fun ev => is_query_write ev = true) evs.
Proof.
  unfold query_tail.
  destruct (save_query_data_ends E p1 q st) as (_ & Hs1 & H1).
  assert (Hw1 : Forall (fun ev => is_query_write ev = true)
                  match query_data q with
                  | [] => []
                  | _ => [WriteQueryCsv p1 (query_data q)]
                  end)
    by (destruct (query_data q); repeat constructor).
  assert (Hw2 : Forall (fun ev => is_query_write ev = true)
                  match failed_urls q with
                  | [] => []
                  | _ => [WriteFailedLog p2 (failed_urls q)]
                  end)
    by (destruct (failed_urls q); repeat constructor).
  rewrite final_state_and_then.
  destruct (save_query_data E p1 q st) as [st1|e st1];
    cbn [final_state] in *; [|eauto].
  destruct (save_failed_urls_ends E p2 q st1) as (_ & Hs2 & H2).
  rewrite final_state_and_then.
  destruct (save_failed_urls E p2 q st1) as [st2|e st2];
    cbn [final_state extend_all_data domain_stats trace] in *.
  - split; [congruence|]. eexists. rewrite H2, H1, <- app_assoc.
    split; [reflexivity|]. now apply Forall_app.
  - split; [congruence|]. eexists. rewrite H2, H1, <- app_assoc.
    split; [reflexivity|]. now apply Forall_app.
Qed.

Lemma query_tail_finished (p1 p2 : pystr) (q : qstate) (st : state) :
  writers_raise_ioerror_only E ->
  exists st' : state,
    query_tail E p1 p2 q st = Finished st'
    /\ all_data st' = all_data st ++ query_data q.
Proof.
  intros (Hcsv & _ & Hlines & _). unfold query_tail.
  destruct (save_query_data_ends E p1 q st) as (Ha1 & _).
  assert (F1 : exists st1, save_query_data E p1 q st = Finished st1).
  { unfold save_query_data. destruct (query_data q); [eauto|].
    cbv zeta. rewrite except_ioerror_finished; eauto. }
  destruct F1 as (st1 & F1). rewrite F1 in *. cbn [and_then final_state] in *.
  destruct (save_failed_urls_ends E p2 q st1) as (Ha2 & _).
  assert (F2 : exists st2, save_failed_urls E p2 q st1 = Finished st2).
  { unfold save_failed_urls. destruct (failed_urls q); [eauto|].
    cbv zeta. rewrite except_ioerror_finished; eauto. }
  destruct F2 as (st2 & F2). rewrite F2 in *. cbn [and_then final_state] in *.
  eexists. split; [reflexivity|].
  cbn [extend_all_data all_data]. congruence.
Qed.

(** [run_query] as the search followed, when the search gives results,
    by the result loop and the tail. *)
Lemma run_query_unfold (query : pystr) (st : state) :
  let st0 := advance (emit (LogSearching query) st) in
  run_query E blacklist max_results query st
  = match search_links E (tick st) query max_results with
    | Raise _ => Finished st0
    | Ret [] => Finished st0
    | Ret rs =>
        let qs := fold_left
                    (fun acc r => process_result E blacklist query r acc)
                    rs (empty_qstate, st0) in
        query_tail E
          (OUTPUT_DIR ++ lit "/" ++ sanitize_filename query ++ lit ".csv")
          (OUTPUT_DIR ++ lit "/" ++ sanitize_filename query
                      ++ lit "_failed.txt")
          (fst qs) (snd qs)
    end.
Proof. reflexivity. Qed.

(** A query logs its search first; every later step is a step of the
    result loop or a write of one of the query's two files. *)
Lemma run_query_trace (query : pystr) (st : state) :
  exists evs : list event,
    trace (final_state (run_query E blacklist max_results query st))
    = trace st ++ LogSearching query :: evs
    /\ Forall (fun ev => is_attempt ev = true \/ is_query_write ev = true)
              evs.
Proof.
  rewrite run_query_unfold. cbv zeta.
  destruct (search_links E _ query max_results) as [[|r rs]|e];
    try (exists []; split; [reflexivity | constructor]).
  set (st0 := advance (emit (LogSearching query) st)).
  destruct (process_results_trace query (r :: rs) (empty_qstate, st0))
    as (_ & evs & Htr & Hall & _).
  cbv zeta in Htr. cbn [snd] in Htr.
  set (qs := fold_left _ (r :: rs) _) in *.
  destruct (query_tail_ends
              (OUTPUT_DIR ++ lit "/" ++ sanitize_filename query ++ lit ".csv")
              (OUTPUT_DIR ++ lit "/" ++ sanitize_filename query
                          ++ lit "_failed.txt")
              (fst qs) (snd qs)) as (_ & evs' & Htr' & Hall').
  exists (evs ++ evs'). rewrite Htr', Htr. unfold st0.
  cbn [advance emit trace]. rewrite <- !app_assoc. split; [reflexivity|].
  apply Forall_app. split.
  - eapply Forall_impl; [|exact Hall]. intros; now left.
  - eapply Forall_impl; [|exact Hall']. intros; now right.
Qed.

Lemma run_query_well_formed (query : pystr) (st : state) :
  well_formed E st ->
  well_formed E (final_state (run_query E blacklist max_results query st)).
Proof.
  intros Hwf. rewrite run_query_unfold. cbv zeta.
  set (st0 := advance (emit (LogSearching query) st)).
  assert (Hwf0 : well_formed E st0).
  { apply (well_formed_same E st); [reflexivity | | exact Hwf].
    unfold st0. cbn [advance emit trace].
    now apply attempted_hosts_other. }
  destruct (search_links E _ query max_results) as [[|r rs]|e];
    try exact Hwf0.
  pose proof (process_results_well_formed E blacklist query (r :: rs)
                (empty_qstate, st0) Hwf0) as Hloop.
  set (qs := fold_left _ (r :: rs) _) in *.
  destruct (query_tail_ends
              (OUTPUT_DIR ++ lit "/" ++ sanitize_filename query ++ lit ".csv")
              (OUTPUT_DIR ++ lit "/" ++ sanitize_filename query
                          ++ lit "_failed.txt")
              (fst qs) (snd qs)) as (Hs & evs' & Htr' & Hall').
  apply (well_formed_same E (snd qs)); [exact Hs | | exact Hloop].
  rewrite Htr', attempted_hosts_app, (attempted_hosts_none E evs');
    [apply app_nil_r|].
  eapply Forall_impl; [|exact Hall']. intros ev. now destruct ev.
Qed.

Lemma run_query_finished (query : pystr) (st : state) :
  writers_raise_ioerror_only E ->
  exists st' : state,
    run_query E blacklist max_results query st = Finished st'.
Proof.
  intros Hw. rewrite run_query_unfold. cbv zeta.
  destruct (search_links E _ query max_results) as [[|r rs]|e]; eauto.
  match goal with
  | |- context [query_tail E ?p1 ?p2 ?q ?s] =>
      destruct (query_tail_finished p1 p2 q s Hw) as (st' & H & _)
  end.
  eauto.
Qed.

(** A search that raises, or that finds nothing, ends the iteration: the
    two accumulators are untouched, and the search is the only step. *)
Lemma run_query_abandoned (query : pystr) (st : state) :
  (exists e, search_links E (tick st) query max_results = Raise e)
  \/ search_links E (tick st) query max_results = Ret [] ->
  run_query E blacklist max_results query st
  = Finished {| all_data := all_data st;
                domain_stats := domain_stats st;
                trace := trace st ++ [LogSearching query];
                tick := S (tick st) |}.
Proof.
  intros H. rewrite run_query_unfold. cbv zeta.
  destruct H as [(e & ->)| ->]; reflexivity.
Qed.

(** ** All queries *)

Lemma run_queries_well_formed (queries : list pystr) (st : state) :
  well_formed E st ->
  well_formed E
    (final_state (run_queries E blacklist max_results queries st)).
Proof.
  revert st. induction queries as [|q qs IH]; intros st Hwf; [exact Hwf|].
  cbn [run_queries]. rewrite final_state_and_then.
  pose proof (run_query_well_formed q st Hwf) as H1.
  destruct (run_query E blacklist max_results q st) as [st1|e st1];
    cbn [final_state] in H1; auto.
Qed.

Lemma run_queries_finished (queries : list pystr) (st : state) :
  writers_raise_ioerror_only E ->
  exists st' : state,
    run_queries E blacklist max_results queries st = Finished st'
    /\ searched_queries (trace st')
       = searched_queries (trace st) ++ queries.
Proof.
  intros Hw. revert st. induction queries as [|q qs IH]; intros st.
  - exists st. now rewrite app_nil_r.
  - cbn [run_queries].
    destruct (run_query_finished q st Hw) as (st1 & H1).
    destruct (run_query_trace q st) as (evs & Htr & Hall).
    rewrite H1 in *. cbn [and_then final_state] in *.
    destruct (IH st1) as (st' & H' & Hq). exists st'. split; [exact H'|].
    rewrite Hq, Htr, searched_queries_app.
    cbn [searched_queries flat_map]. fold (searched_queries evs).
    rewrite (searched_queries_none evs); [now rewrite <- app_assoc|].
    eapply Forall_impl; [|exact Hall].
    intros ev [H|H]; destruct ev; (discriminate || exact I).
Qed.
End RunLemmas.

(** ** [sorted] is a stable sort *)

Section SortedFacts.
Variable A : Type.
Variable key : A -> Z.

Lemma insert_by_perm (x : A) (l : list A) :
  Permutation (insert_by key x l) (x :: l).
Proof.
  induction l as [|y l IH]; simpl; [reflexivity|].
  destruct (key x <=? key y); [reflexivity|].
  rewrite IH. apply perm_swap.
Qed.

Lemma sorted_perm (l : list A) : Permutation (sorted key l) l.
Proof.
  induction l as [|x l IH]; simpl; [reflexivity|].
  rewrite insert_by_perm. now constructor.
Qed.

Lemma insert_by_ordered (x : A) (l : list A) :
  StronglySorted (fun a b => key a <= key b) l ->
  StronglySorted (fun a b => key a <= key b) (insert_by key x l).
Proof.
  induction 1 as [|y l Hs IH Hy]; simpl.
  - repeat constructor.
  - destruct (Z.leb_spec (key x) (key y)) as [Hle|Hgt].
    + constructor; [now constructor|].
      constructor; [exact Hle|].
      eapply Forall_impl; [|exact Hy]. intros a Ha. simpl in Ha. lia.
    + constructor; [exact IH|].
      eapply Permutation_Forall;
        [symmetry; apply insert_by_perm|].
      constructor; [lia | exact Hy].
Qed.

Lemma sorted_ordered (l : list A) :
  StronglySorted (fun a b => key a <= key b) (sorted key l).
Proof.
  induction l as [|x l IH]; simpl; [constructor|].
  now apply insert_by_ordered.
Qed.

(** Stability: the elements of any one key keep their order. *)
Lemma insert_by_filter (k : Z) (x : A) (l : list A) :
  List.filter (fun a => key a =? k) (insert_by key x l)
  = List.filter (fun a => key a =? k) (x :: l).
Proof.
  induction l as [|y l IH]; [reflexivity|].
  cbn [insert_by].
  destruct (Z.leb_spec (key x) (key y)) as [Hle|Hgt]; [reflexivity|].
  cbn [List.filter] in *. rewrite IH.
  destruct (Z.eqb_spec (key x) k), (Z.eqb_spec (key y) k);
    (reflexivity || lia).
Qed.

Lemma sorted_stable (k : Z) (l : list A) :
  List.filter (fun a => key a =? k) (sorted key l)
  = List.filter (fun a => key a =? k) l.
Proof.
  induction l as [|x l IH]; [reflexivity|].
  cbn [sorted fold_right]. fold (sorted key l).
  rewrite insert_by_filter. cbn [List.filter]. now rewrite IH.
Qed.
End SortedFacts.

Lemma filter_map_commute (A B : Type) (f : A -> B) (p : B -> bool)
    (l : list A) :
  List.filter p (List.map f l) = List.map f (List.filter (fun a => p (f a)) l).
Proof.
  induction l as [|a l IH]; [reflexivity|].
  simpl. rewrite IH. now destruct (p (f a)).
Qed.

Lemma StronglySorted_map_rel (A B : Type) (f : A -> B)
    (R : A -> A -> Prop) (R' : B -> B -> Prop) (l : list A) :
  (forall a b, R a b -> R' (f a) (f b)) ->
  StronglySorted R l -> StronglySorted R' (List.map f l).
Proof.
  intros HR. induction 1 as [|a l Hs IH Ha]; simpl; constructor.
  - exact IH.
  - apply Forall_map. eapply Forall_impl; [|exact Ha]. intros b. apply HR.
Qed.

(** ** The rows of the domain summary *)

Lemma lookup_In (m : stats_dict) (d : pystr) (s : DomainStat) :
  NoDup (keys m) -> In (d, s) m -> lookup d m = Some s.
Proof.
  induction m as [|[k v] m IH]; simpl; [tauto|].
  intros Hnd [H|H].
  - injection H as -> ->. now rewrite pystr_eqb_refl.
  - apply NoDup_cons_iff in Hnd as [Hk Hnd].
    destruct (PyStr.eqb k d) eqn:He.
    + apply pystr_eqb_eq in He. subst k. exfalso. apply Hk.
      change d with (fst (d, s)). now apply in_map.
    + now apply IH.
Qed.

Section SummaryRows.
Variable m : stats_dict.
Hypothesis keys_distinct : NoDup (keys m).

Lemma domain_summary_rows_domains :
  Permutation (List.map row_domain (domain_summary_rows m)) (keys m).
Proof.
  unfold domain_summary_rows, keys. rewrite map_map. cbn [row_domain].
  apply Permutation_map, sorted_perm.
Qed.

Lemma domain_summary_rows_counters (r : SummaryRow) :
  In r (domain_summary_rows m) ->
  row_successes r = successes_of (row_domain r) m
  /\ row_failures r = failures_of (row_domain r) m.
Proof.
  unfold domain_summary_rows. intros H. apply in_map_iff in H.
  destruct H as ([d s] & <- & Hin). cbn [row_domain row_successes row_failures fst snd].
  apply (Permutation_in _ (sorted_perm _ _ m)) in Hin.
  unfold successes_of, failures_of.
  now rewrite (lookup_In m d s keys_distinct Hin).
Qed.

Lemma domain_summary_rows_descending :
  StronglySorted (fun a b => row_successes b <= row_successes a)
                 (domain_summary_rows m).
Proof.
  unfold domain_summary_rows.
  eapply StronglySorted_map_rel; [|apply sorted_ordered].
  intros a b H. cbn in *. lia.
Qed.

Lemma domain_summary_rows_stable (k : Z) :
  List.map row_domain
    (List.filter (fun r => row_successes r =? k) (domain_summary_rows m))
  = List.filter (fun d => successes_of d m =? k) (keys m).
Proof.
  unfold domain_summary_rows, keys.
  rewrite !filter_map_commute, map_map. cbn [row_successes row_domain].
  rewrite (filter_ext (fun a => success (snd a) =? k)
                      (fun a => - success (snd a) =? - k)).
  2: { intros a. destruct (Z.eqb_spec (success (snd a)) k),
                   (Z.eqb_spec (- success (snd a)) (- k));
         (reflexivity || lia). }
  rewrite sorted_stable.
  f_equal. apply filter_ext_in. intros [d s] Hin. cbn [fst snd].
  unfold successes_of. rewrite (lookup_In m d s keys_distinct Hin).
  destruct (Z.eqb_spec (- success s) (- k)), (Z.eqb_spec (success s) k);
    (reflexivity || lia).
Qed.
End SummaryRows.

(** ** The whole run *)

Lemma initial_well_formed (E : Env) : well_formed E initial_state.
Proof.
  split; [reflexivity|]. split; [intros d; reflexivity|].
  intros d. cbn. lia.
Qed.

Lemma well_formed_ends (E : Env) (st : state) (evs : list event)
    (o : outcome) :
  ends_with st evs o ->
  Forall (fun ev => is_attempt ev = false) evs ->
  well_formed E st -> well_formed E (final_state o).
Proof.
  intros (_ & Hs & Ht) Hall. apply well_formed_same; [exact Hs|].
  rewrite Ht, attempted_hosts_app, (attempted_hosts_none E evs Hall).
  apply app_nil_r.
Qed.

Lemma well_formed_keys_NoDup (E : Env) (st : state) :
  well_formed E st -> NoDup (keys (domain_stats st)).
Proof. intros (-> & _). apply first_seen_NoDup. Qed.

Lemma well_formed_entry_iff (E : Env) (st : state) (d : pystr) :
  well_formed E st ->
  (lookup d (domain_stats st) = None <-> attempts E d (trace st) = 0).
Proof.
  intros (Hk & _). rewrite lookup_None_keys, Hk, first_seen_In.
  unfold attempts. rewrite (count_occ_not_In (list_eq_dec N.eq_dec)). lia.
Qed.

Section Main.
Variable E : Env.
Variable blacklist : list pystr.
Variable max_results : Z.

Lemma save_merged_well_formed (st : state) :
  well_formed E st -> well_formed E (final_state (save_merged E st)).
Proof.
  destruct (save_merged_ends E st) as (evs & Hends & Hall).
  apply (well_formed_ends E st evs); [exact Hends|].
  eapply Forall_impl; [|exact Hall].
  intros ev [H|H]; now destruct ev.
Qed.

Lemma save_domain_summary_well_formed (st : state) :
  well_formed E st -> well_formed E (final_state (save_domain_summary E st)).
Proof.
  apply (well_formed_ends E st _ _ (save_domain_summary_ends E st)).
  now repeat constructor.
Qed.

Lemma main_well_formed (queries : list pystr) :
  well_formed E (final_state (main E blacklist max_results queries)).
Proof.
  unfold main. rewrite final_state_and_then.
  pose proof (run_queries_well_formed E blacklist max_results queries
                initial_state (initial_well_formed E)) as H1.
  destruct (run_queries E blacklist max_results queries initial_state)
    as [st1|e st1]; cbn [final_state] in H1; [|exact H1].
  rewrite final_state_and_then.
  pose proof (save_merged_well_formed st1 H1) as H2.
  destruct (save_merged E st1) as [st2|e st2]; cbn [final_state] in H2;
    [|exact H2].
  now apply save_domain_summary_well_formed.
Qed.

Lemma main_inversion (queries : list pystr) (st : state) :
  main E blacklist max_results queries = Finished st ->
  exists st1 st2 : state,
    run_queries E blacklist max_results queries initial_state = Finished st1
    /\ save_merged E st1 = Finished st2
    /\ save_domain_summary E st2 = Finished st.
Proof.
  unfold main.
  destruct (run_queries E blacklist max_results queries initial_state)
    as [st1|e st1] eqn:H1; cbn [and_then]; [|discriminate].
  destruct (save_merged E st1) as [st2|e st2] eqn:H2; cbn [and_then];
    [|discriminate].
  intros H. exists st1, st2. auto.
Qed.
End Main.

(** C2. A domain gets its entry, with both counters zero, the first time
    it is referred to, and an existing entry is left in place. One iteration
    of the result loop adds one to exactly one of the two counters of the
    domain of its URL and changes no other counter, so no counter ever goes
    down. The sum of the two counters of a domain equals the number of URLs
    attempted for it: this holds at the start, is kept by every iteration,
    and holds when the queries are done and when [main] ends; a domain has no
    entry exactly when no URL was attempted for it. *)
Theorem domain_counters_invariant :
  forall (E : Env) (blacklist : list pystr) (max_results : Z),
    (forall (d : pystr) (m : stats_dict),
       lookup d m = None ->
       lookup d (getitem d m) = Some zero_stat
       /\ keys (getitem d m) = keys m ++ [d])
    /\ (forall (d : pystr) (m : stats_dict) (s : DomainStat),
          lookup d m = Some s -> getitem d m = m)
    /\ (forall (query : pystr) (r : SearchResult) (q : qstate) (st : state),
          let d := netloc E (href r) in
          let m := domain_stats st in
          let m' :=
            domain_stats (snd (process_result E blacklist query r (q, st))) in
          ((successes_of d m' = successes_of d m + 1
            /\ failures_of d m' = failures_of d m)
           \/ (successes_of d m' = successes_of d m
               /\ failures_of d m' = failures_of d m + 1))
          /\ (forall d' : pystr,
                d' <> d ->
                successes_of d' m' = successes_of d' m
                /\ failures_of d' m' = failures_of d' m))
    /\ well_formed E initial_state
    /\ (forall (query : pystr) (r : SearchResult) (q : qstate) (st : state),
          well_formed E st ->
          well_formed E (snd (process_result E blacklist query r (q, st))))
    /\ (forall queries : list pystr,
          well_formed E
            (final_state
               (run_queries E blacklist max_results queries initial_state))
          /\ well_formed E
               (final_state (main E blacklist max_results queries)))
    /\ (forall st : state,
          well_formed E st ->
          forall d : pystr,
            successes_of d (domain_stats st) + failures_of d (domain_stats st)
            = attempts E d (trace st)
            /\ 0 <= successes_of d (domain_stats st)
            /\ 0 <= failures_of d (domain_stats st)
            /\ (lookup d (domain_stats st) = None
                <-> attempts E d (trace st) = 0)).
Proof.
  intros E blacklist max_results.
  split.
  { intros d m H. split.
    - rewrite lookup_getitem, H. now rewrite pystr_eqb_refl.
    - rewrite keys_getitem, mem_keys_lookup, H. reflexivity. }
  split; [intros d m s H; unfold getitem; now rewrite H|].
  split; [apply process_result_counters|].
  split; [apply initial_well_formed|].
  split; [apply process_result_well_formed|].
  split.
  { intros queries. split.
    - apply run_queries_well_formed, initial_well_formed.
    - apply main_well_formed. }
  intros st Hwf d. pose proof Hwf as (_ & Hc & Hn).
  split; [apply Hc|]. split; [apply Hn|]. split; [apply Hn|].
  now apply well_formed_entry_iff.
Qed.

(** The theorem on the calm scenario: after the run of two queries the
    counters of [example.com] add up to its two attempts. *)
Lemma domain_counters_invariant_witness :
  let st := final_state
              (main Scenarios.calm Scenarios.blacklist 10
                    [lit "test"; lit "other"]) in
  successes_of (lit "example.com") (domain_stats st)
  + failures_of (lit "example.com") (domain_stats st)
  = attempts Scenarios.calm (lit "example.com") (trace st)
  /\ attempts Scenarios.calm (lit "example.com") (trace st) = 2.
Proof.
  cbv zeta. split; [|reflexivity].
  destruct (domain_counters_invariant Scenarios.calm Scenarios.blacklist 10)
    as (_ & _ & _ & _ & _ & Hrun & Hread).
  apply (Hread _ (proj2 (Hrun [lit "test"; lit "other"]))).
Defined.

Lemma scraped_urls_snoc (tr : list event) (ev : event) :
  scraped_urls (tr ++ [ev])
  = scraped_urls tr ++ match ev with LogScraping u => [u] | _ => [] end.
Proof.
  unfold scraped_urls. rewrite flat_map_app. simpl. now rewrite app_nil_r.
Qed.

Lemma snoc_neq_self (A : Type) (l : list A) (x : A) : l ++ [x] <> l.
Proof.
  intros H. apply (f_equal (@List.length A)) in H.
  rewrite length_app in H. simpl in H. lia.
Qed.

Section OneResult.
Variable E : Env.
Variable blacklist : list pystr.

(** The three ways an iteration can go. *)
Lemma process_result_skip (query : pystr) (r : SearchResult)
    (q : qstate) (st : state) :
  In (netloc E (href r)) blacklist ->
  process_result E blacklist query r (q, st)
  = record_failure (href r) (netloc E (href r))
                   (q, emit (LogSkipping (href r)) st).
Proof.
  intros H. apply mem_In in H. unfold process_result. cbv zeta.
  now rewrite H.
Qed.

Lemma process_result_success (query : pystr) (r : SearchResult)
    (q : qstate) (st : state) (c : pystr) (ents : Entities) :
  ~ In (netloc E (href r)) blacklist ->
  scrape_content E (tick st) (href r) MIN_WORDS_FOR_CONTENT = Ret (Some c) ->
  extract_entities E c = Ret ents ->
  process_result E blacklist query r (q, st)
  = record_success
      {| r_topic := query;
         r_title := match title r with
                    | Some t => t
                    | None => lit "Untitled"
                    end;
         r_url := href r;
         r_domain := netloc E (href r);
         r_snippet := make_snippet c;
         r_content := c;
         r_scraped_at := utcnow_isoformat E (S (tick st));
         r_entities := ents;
         r_keywords := [] |}
      (netloc E (href r))
      (q, advance (advance (emit (LogScraping (href r)) st))).
Proof.
  intros Hb Hs He.
  assert (Hm : mem (netloc E (href r)) blacklist = false).
  { destruct (mem _ blacklist) eqn:H; [|reflexivity].
    apply mem_In in H. contradiction. }
  destruct (scrape_content_accepts E _ _ _ _ Hs) as [Hc _].
  apply truthy_true in Hc.
  unfold process_result. cbv zeta. rewrite Hm. cbn [fst snd emit tick].
  rewrite Hs, Hc, He. reflexivity.
Qed.

Lemma process_result_failure (query : pystr) (r : SearchResult)
    (q : qstate) (st : state) :
  ~ In (netloc E (href r)) blacklist ->
  (forall c ents,
     scrape_content E (tick st) (href r) MIN_WORDS_FOR_CONTENT
     = Ret (Some c) ->
     extract_entities E c <> Ret ents) ->
  exists st1 : state,
    process_result E blacklist query r (q, st)
    = record_failure (href r) (netloc E (href r)) (q, st1)
    /\ domain_stats st1 = domain_stats st
    /\ trace st1 = trace st ++ [LogScraping (href r)].
Proof.
  intros Hb Hno.
  assert (Hm : mem (netloc E (href r)) blacklist = false).
  { destruct (mem _ blacklist) eqn:H; [|reflexivity].
    apply mem_In in H. contradiction. }
  unfold process_result. cbv zeta. rewrite Hm. cbn [fst snd emit tick].
  destruct (scrape_content E (tick st) (href r) MIN_WORDS_FOR_CONTENT)
    as [[c|]|e] eqn:Hs.
  - destruct (truthy c).
    + destruct (extract_entities E c) as [ents|e] eqn:He.
      * exfalso. exact (Hno c ents eq_refl He).
      * eexists. split; [reflexivity|]. split; reflexivity.
    + eexists. split; [reflexivity|]. split; reflexivity.
  - eexists. split; [reflexivity|]. split; reflexivity.
  - eexists. split; [reflexivity|]. split; reflexivity.
Qed.
End OneResult.

(** C3, as stated, where the entity tagger raises: the host is not
    blacklisted and extraction yields fifty words, the configured threshold,
    yet the iteration produces no record and records the URL as failed. *)
Lemma record_iff_extracted_counterexample :
  let p := process_result Scenarios.tagger_raises Scenarios.blacklist
             (lit "test") Scenarios.first_result
             (empty_qstate, initial_state) in
  ~ In (netloc Scenarios.tagger_raises (href Scenarios.first_result))
       Scenarios.blacklist
  /\ scrape_content Scenarios.tagger_raises 0 (href Scenarios.first_result)
                    MIN_WORDS_FOR_CONTENT
     = Ret (Some Scenarios.fifty_words)
  /\ MIN_WORDS_FOR_CONTENT <= word_count Scenarios.fifty_words
  /\ query_data (fst p) = []
  /\ failed_urls (fst p) = [href Scenarios.first_result].
Proof.
  cbv zeta. split.
  - intros [H|[]]. vm_compute in H. discriminate.
  - repeat split; reflexivity || (vm_compute; discriminate).
Qed.

(** C3, amended. An iteration of the result loop appends a record exactly
    when the host of the URL is not a member of the blacklist, extraction
    returns a text, which then has at least the configured number of words,
    and the entity annotation of that text returns. The record carries the
    query, the URL, its host and the extracted text. A blacklisted host is
    not scraped; its URL is appended to the failed URLs and the failure
    counter of the host grows by one, which is also all that a scraped URL
    without a record leaves behind. *)
Theorem record_iff_extracted_and_annotated :
  forall (E : Env) (blacklist : list pystr) (query : pystr)
         (r : SearchResult) (q : qstate) (st : state),
    let url := href r in
    let d := netloc E url in
    let q' := fst (process_result E blacklist query r (q, st)) in
    let st' := snd (process_result E blacklist query r (q, st)) in
    ((exists rec : ScrapedRecord, query_data q' = query_data q ++ [rec])
     <-> (~ In d blacklist
          /\ exists (c : pystr) (ents : Entities),
               scrape_content E (tick st) url MIN_WORDS_FOR_CONTENT
               = Ret (Some c)
               /\ MIN_WORDS_FOR_CONTENT <= word_count c
               /\ extract_entities E c = Ret ents))
    /\ (forall rec : ScrapedRecord,
          query_data q' = query_data q ++ [rec] ->
          r_topic rec = query /\ r_url rec = url /\ r_domain rec = d
          /\ scrape_content E (tick st) url MIN_WORDS_FOR_CONTENT
             = Ret (Some (r_content rec))
          /\ failed_urls q' = failed_urls q
          /\ domain_stats st' = incr_success d (domain_stats st))
    /\ (In d blacklist ->
        scraped_urls (trace st') = scraped_urls (trace st)
        /\ query_data q' = query_data q
        /\ failed_urls q' = failed_urls q ++ [url]
        /\ domain_stats st' = incr_fail d (domain_stats st)
        /\ failures_of d (domain_stats st')
           = failures_of d (domain_stats st) + 1)
    /\ (~ In d blacklist ->
        ~ (exists rec : ScrapedRecord, query_data q' = query_data q ++ [rec]) ->
        scraped_urls (trace st') = scraped_urls (trace st) ++ [url]
        /\ query_data q' = query_data q
        /\ failed_urls q' = failed_urls q ++ [url]
        /\ domain_stats st' = incr_fail d (domain_stats st)
        /\ failures_of d (domain_stats st')
           = failures_of d (domain_stats st) + 1).
Proof.
  intros E blacklist query r q st. cbv zeta.
  destruct (in_dec (list_eq_dec N.eq_dec) (netloc E (href r)) blacklist)
    as [Hin|Hout].
  - (* blacklisted *)
    rewrite (process_result_skip E blacklist query r q st Hin).
    cbn [record_failure fst snd query_data failed_urls with_stats
         domain_stats emit trace].
    split; [|split; [|split]].
    + split; [intros (rec & H) | intros (H & _); contradiction].
      symmetry in H. now apply snoc_neq_self in H.
    + intros rec H. symmetry in H. now apply snoc_neq_self in H.
    + intros _. rewrite scraped_urls_snoc, app_nil_r.
      rewrite failures_of_incr_fail, pystr_eqb_refl. auto.
    + intros H. contradiction.
  - destruct (scrape_content E (tick st) (href r) MIN_WORDS_FOR_CONTENT)
      as [[c|]|e] eqn:Hs.
    2, 3: (* no text *)
      destruct (process_result_failure E blacklist query r q st Hout)
        as (st1 & Hp & Hst & Htr);
        [ intros c ents; rewrite Hs; discriminate |];
      rewrite Hp;
      cbn [record_failure fst snd query_data failed_urls with_stats
           domain_stats trace];
      rewrite Hst, Htr;
      (split; [|split; [|split]]);
      [ split; [intros (rec & H) | intros (_ & c & ents & H & _)];
        [symmetry in H; now apply snoc_neq_self in H | discriminate]
      | intros rec H; symmetry in H; now apply snoc_neq_self in H
      | intros H; contradiction
      | intros _ _; rewrite scraped_urls_snoc,
          failures_of_incr_fail, pystr_eqb_refl; auto ].
    destruct (extract_entities E c) as [ents|e] eqn:He.
    + (* a record *)
      rewrite (process_result_success E blacklist query r q st c ents
                 Hout Hs He).
      cbn [record_success fst snd query_data failed_urls with_stats
           domain_stats advance emit trace].
      destruct (scrape_content_accepts E _ _ _ _ Hs) as [_ Hw].
      split; [|split; [|split]].
      * split; [intros _ | intros _; eexists; reflexivity].
        split; [exact Hout|]. exists c, ents. auto.
      * intros rec H. apply app_inv_head in H. injection H as <-.
        cbn. repeat split; reflexivity.
      * intros H. contradiction.
      * intros _ H. exfalso. apply H. eexists. reflexivity.
    + (* the annotation raised *)
      destruct (process_result_failure E blacklist query r q st Hout)
        as (st1 & Hp & Hst & Htr).
      { intros c' ents. rewrite Hs. intros [= <-]. rewrite He. discriminate. }
      rewrite Hp.
      cbn [record_failure fst snd query_data failed_urls with_stats
           domain_stats trace].
      rewrite Hst, Htr.
      split; [|split; [|split]].
      * split; [intros (rec & H) | intros (_ & c' & ents & H & _ & H')].
        -- symmetry in H. now apply snoc_neq_self in H.
        -- injection H as <-. rewrite He in H'. discriminate.
      * intros rec H. symmetry in H. now apply snoc_neq_self in H.
      * intros H. contradiction.
      * intros _ _. rewrite scraped_urls_snoc,
          failures_of_incr_fail, pystr_eqb_refl. auto.
Qed.

(** The theorem on the first result of the calm scenario: its host is not
    blacklisted, its text is accepted and annotated, and a record is
    appended. *)
Lemma record_iff_extracted_and_annotated_witness :
  exists rec : ScrapedRecord,
    query_data
      (fst (process_result Scenarios.calm Scenarios.blacklist (lit "test")
              Scenarios.first_result (empty_qstate, initial_state)))
    = query_data empty_qstate ++ [rec].
Proof.
  apply (proj1 (record_iff_extracted_and_annotated
                  Scenarios.calm Scenarios.blacklist (lit "test")
                  Scenarios.first_result empty_qstate initial_state)).
  split.
  - intros [H|[]]. vm_compute in H. discriminate.
  - exists Scenarios.fifty_words, []. split; [reflexivity|].
    split; [vm_compute; discriminate | reflexivity].
Defined.

(** C8. When [main] ends normally, the last step of the run is the write of
    the domain summary. Its rows have the three columns domain, successes
    and failures; no domain appears twice; the domains are exactly the hosts
    of the URLs attempted during the run; each row carries the two counters
    of its domain; the rows are in descending order of successes; and the
    domains that share a number of successes appear in the order in which
    they were first met. *)
Theorem domain_summary_sorted_by_successes :
  forall (E : Env) (blacklist : list pystr) (max_results : Z)
         (queries : list pystr) (st : state),
    main E blacklist max_results queries = Finished st ->
    exists (tr : list event) (rows : list SummaryRow),
      trace st
      = tr ++ [WriteDomainSummary (lit "output/_domain_stats_summary.csv")
                                  rows]
      /\ NoDup (List.map row_domain rows)
      /\ (forall d : pystr,
            In d (List.map row_domain rows)
            <-> In d (attempted_hosts E (trace st)))
      /\ (forall r : SummaryRow,
            In r rows ->
            row_successes r = successes_of (row_domain r) (domain_stats st)
            /\ row_failures r = failures_of (row_domain r) (domain_stats st))
      /\ StronglySorted (fun a b => row_successes b <= row_successes a) rows
      /\ (forall k : Z,
            List.map row_domain
              (List.filter (fun r => row_successes r =? k) rows)
            = List.filter (fun d => successes_of d (domain_stats st) =? k)
                          (first_seen (attempted_hosts E (trace st)))).
Proof.
  intros E blacklist max_results queries st Hmain.
  pose proof (main_well_formed E blacklist max_results queries) as Hwf.
  rewrite Hmain in Hwf. cbn [final_state] in Hwf.
  destruct (main_inversion E blacklist max_results queries st Hmain)
    as (st1 & st2 & _ & _ & Hsum).
  destruct (save_domain_summary_ends E st2) as (_ & Hs & Ht).
  rewrite Hsum in Hs, Ht. cbn [final_state] in Hs, Ht.
  rewrite <- Hs in Ht.
  pose proof (well_formed_keys_NoDup E st Hwf) as Hnd.
  destruct Hwf as (Hk & _).
  exists (trace st2), (domain_summary_rows (domain_stats st)).
  split; [exact Ht|].
  pose proof (domain_summary_rows_domains (domain_stats st)) as Hperm.
  split; [eapply Permutation_NoDup; [symmetry; exact Hperm | exact Hnd]|].
  split.
  { intros d.
    rewrite <- (first_seen_In (attempted_hosts E (trace st)) d), <- Hk.
    split.
    - apply Permutation_in. exact Hperm.
    - apply Permutation_in. symmetry. exact Hperm. }
  split; [intros r; now apply domain_summary_rows_counters|].
  split; [apply domain_summary_rows_descending|].
  intros k. rewrite <- Hk. now apply domain_summary_rows_stable.
Qed.

(** The theorem on the calm scenario, where the run of four queries ends
    normally. *)
Lemma domain_summary_sorted_by_successes_witness :
  exists (tr : list event) (rows : list SummaryRow),
    trace (final_state
             (main Scenarios.calm Scenarios.blacklist 10
                   [lit "boom"; lit "test"; lit "nothing"; lit "other"]))
    = tr ++ [WriteDomainSummary (lit "output/_domain_stats_summary.csv") rows]
    /\ NoDup (List.map row_domain rows).
Proof.
  assert (Hmain :
            main Scenarios.calm Scenarios.blacklist 10
                 [lit "boom"; lit "test"; lit "nothing"; lit "other"]
            = Finished
                (final_state
                   (main Scenarios.calm Scenarios.blacklist 10
                         [lit "boom"; lit "test"; lit "nothing";
                          lit "other"])))
    by (vm_compute; reflexivity).
  destruct (domain_summary_sorted_by_successes
              Scenarios.calm Scenarios.blacklist 10
              [lit "boom"; lit "test"; lit "nothing"; lit "other"] _ Hmain)
    as (tr & rows & Htr & Hnd & _).
  exists tr, rows. split; assumption.
Defined.

(** ** Query failures and the writes at the end *)

Section EndOfRun.
Variable E : Env.
Hypothesis writers : writers_raise_ioerror_only E.

Lemma save_merged_finished (st : state) :
  exists st2 : state,
    save_merged E st = Finished st2
    /\ all_data st2 = all_data st
    /\ exists evs : list event,
         trace st2 = trace st ++ evs
         /\ (all_data st <> [] ->
             existsb is_merged_csv_write evs = true
             /\ (existsb is_merged_json_write evs = true
                 \/ to_csv E (tick st) (lit "output/_all_queries_merged.csv")
                           (all_data st)
                    = Raise IOError)).
Proof.
  destruct writers as (Hcsv & Hjson & _).
  unfold save_merged. destruct (all_data st) as [|rec rows] eqn:Ha.
  - exists st. split; [reflexivity|]. split; [exact Ha|].
    exists []. rewrite app_nil_r. split; [reflexivity|]. congruence.
  - cbv zeta. cbn [emit tick advance all_data]. rewrite !Ha.
    match goal with
    | |- context [to_csv E ?t ?p ?r] =>
        destruct (to_csv E t p r) as [u|e] eqn:Hw
    end.
    + rewrite except_ioerror_finished by eauto.
      eexists. split; [reflexivity|]. cbn [advance emit all_data trace].
      split; [exact Ha|]. eexists [_; _]. rewrite <- app_assoc.
      split; [reflexivity|]. intros _. split; [reflexivity|].
      left. reflexivity.
    + pose proof (Hcsv _ _ _ _ Hw) as ->. cbn [except_ioerror is_ioerror].
      eexists. split; [reflexivity|]. cbn [advance emit all_data trace].
      split; [exact Ha|]. eexists [_].
      split; [reflexivity|]. intros _. split; [reflexivity|].
      right. exact Hw.
Qed.

Lemma save_domain_summary_finished (st : state) :
  save_domain_summary E st
  = Finished
      (advance
         (emit (WriteDomainSummary
                  (lit "output/_domain_stats_summary.csv")
                  (domain_summary_rows (domain_stats st))) st)).
Proof.
  destruct writers as (_ & _ & _ & Hsum).
  unfold save_domain_summary. cbv zeta.
  rewrite except_ioerror_finished by eauto. reflexivity.
Qed.
End EndOfRun.

Lemma existsb_app_r (A : Type) (p : A -> bool) (l1 l2 : list A) :
  existsb p l2 = true -> existsb p (l1 ++ l2) = true.
Proof. intros H. rewrite existsb_app, H. apply orb_true_r. Qed.

(** With [args] bound, every host resolved and writers that fail only with
    [IOError], [main] ends normally: every query is searched, in order; the
    domain summary is written last; and when there are records the merged
    CSV write is attempted, and the merged JSON write is attempted unless
    the merged CSV write, at the time it is made, raised [IOError]. *)
Lemma main_ends_normally (E : Env) (blacklist : list pystr)
    (max_results : Z) (queries : list pystr) :
  writers_raise_ioerror_only E ->
  exists st : state,
    main E blacklist max_results queries = Finished st
    /\ searched_queries (trace st) = queries
    /\ (exists (tr : list event) (rows : list SummaryRow),
          trace st
          = tr ++ [WriteDomainSummary
                     (lit "output/_domain_stats_summary.csv") rows])
    /\ (all_data st <> [] ->
        existsb is_merged_csv_write (trace st) = true
        /\ (existsb is_merged_json_write (trace st) = true
            \/ to_csv E
                      (tick (final_state
                               (run_queries E blacklist max_results queries
                                            initial_state)))
                      (lit "output/_all_queries_merged.csv") (all_data st)
               = Raise IOError)).
Proof.
  intros Hw. unfold main.
  destruct (run_queries_finished E blacklist max_results queries
              initial_state Hw) as (st1 & H1 & Hq).
  rewrite H1. cbn [and_then final_state].
  destruct (save_merged_finished E Hw st1)
    as (st2 & H2 & Ha & evs & Htr & Hm).
  rewrite H2. cbn [and_then].
  rewrite (save_domain_summary_finished E Hw st2).
  eexists. split; [reflexivity|]. cbn [advance emit trace all_data].
  split.
  - rewrite Htr, !searched_queries_app, Hq. cbn [app].
    rewrite (searched_queries_none evs).
    + cbn. now rewrite !app_nil_r.
    + destruct (save_merged_ends E st1) as (evs' & (_ & _ & Htr') & Hall).
      rewrite H2 in Htr'. cbn [final_state] in Htr'.
      rewrite Htr in Htr'. apply app_inv_head in Htr'. subst evs'.
      eapply Forall_impl; [|exact Hall].
      intros ev [H|H]; now destruct ev.
  - split; [eauto|]. rewrite Ha. intros Hne.
    destruct (Hm Hne) as (Hc & Hj). rewrite Htr. split.
    + rewrite <- app_assoc. apply existsb_app_r.
      rewrite existsb_app, Hc. reflexivity.
    + destruct Hj as [Hj|Hj]; [left | now right].
      rewrite <- app_assoc. apply existsb_app_r.
      rewrite existsb_app, Hj. reflexivity.
Qed.

(** ** The result loop as written *)

(** The loop goes on exactly as long as the parser accepts the URLs; what
    it has done when it stops is what the loop body does on the results
    before the malformed one. *)
Lemma process_results_unguarded_spec (E : Env) (parse : url_parser)
    (blacklist : list pystr) (query : pystr) (rs : list SearchResult)
    (qs : qstate * state) :
  match process_results_unguarded E parse blacklist query rs qs with
  | Continue qs' =>
      Forall (fun r => exists d, parse (href r) = Ret d) rs
      /\ qs' = fold_left
                 (fun acc r =>
                    process_result (with_parser E parse) blacklist query r acc)
                 rs qs
  | Abort e qs' =>
      exists (pre : list SearchResult) (r : SearchResult)
             (post : list SearchResult),
        rs = pre ++ r :: post
        /\ Forall (fun r => exists d, parse (href r) = Ret d) pre
        /\ parse (href r) = Raise e
        /\ qs' = fold_left
                   (fun acc r =>
                      process_result (with_parser E parse) blacklist query
                                     r acc)
                   pre qs
  end.
Proof.
  revert qs. induction rs as [|r rs IH]; intros qs.
  - cbn. split; [constructor | reflexivity].
  - cbn [process_results_unguarded]. unfold process_result_unguarded.
    destruct (parse (href r)) as [d|e] eqn:Hp.
    + specialize (IH (process_result (with_parser E parse) blacklist query
                                     r qs)).
      destruct (process_results_unguarded E parse blacklist query rs _)
        as [qs'|e qs'].
      * destruct IH as [Hall ->]. split; [|reflexivity].
        constructor; [eauto | exact Hall].
      * destruct IH as (pre & r' & post & -> & Hall & Hr & ->).
        exists (r :: pre), r', post. split; [reflexivity|].
        split; [constructor; [eauto | exact Hall]|].
        split; [exact Hr | reflexivity].
    + exists [], r, rs. split; [reflexivity|]. split; [constructor|].
      split; [exact Hp | reflexivity].
Qed.

(** A query that ends without leaving [main] has run as [run_query] does
    with the hosts the parser returned. *)
Lemma run_query_unguarded_finished (E : Env) (parse : url_parser)
    (blacklist : list pystr) (max_results : Z) (query : pystr)
    (st st' : state) :
  run_query_unguarded E parse blacklist max_results query st = Finished st' ->
  run_query (with_parser E parse) blacklist max_results query st
  = Finished st'.
Proof.
  rewrite run_query_unfold. unfold run_query_unguarded. cbv zeta.
  change (search_links (with_parser E parse)) with (search_links E).
  cbn [emit tick].
  destruct (search_links E (tick st) query max_results) as [[|r rs]|e];
    try (intros H; exact H).
  pose proof (process_results_unguarded_spec E parse blacklist query
                (r :: rs)
                (empty_qstate, advance (emit (LogSearching query) st)))
    as H.
  destruct (process_results_unguarded E parse blacklist query (r :: rs) _)
    as [qs'|e qs'].
  - destruct H as [_ ->]. intros Hq. exact Hq.
  - discriminate.
Qed.

Lemma run_queries_unguarded_finished (E : Env) (parse : url_parser)
    (blacklist : list pystr) (max_results : Z) (queries : list pystr)
    (st st' : state) :
  run_queries_unguarded E parse blacklist max_results queries st
  = Finished st' ->
  run_queries (with_parser E parse) blacklist max_results queries st
  = Finished st'.
Proof.
  revert st. induction queries as [|q qs IH]; intros st;
    [intros H; exact H|].
  cbn [run_queries_unguarded run_queries].
  destruct (run_query_unguarded E parse blacklist max_results q st)
    as [st1|e st1] eqn:Hq; [|discriminate].
  rewrite (run_query_unguarded_finished _ _ _ _ _ _ _ Hq).
  cbn [and_then]. apply IH.
Qed.

(** A run that ends normally, once [args] is bound, is a run of [main] on
    the loaded blacklist with the hosts the parser returned: what is proved
    of [main] holds of it. *)
Lemma main_with_args_finished (E : Env) (parse : url_parser)
    (files : text_files) (args : Args) (st : state) :
  main_with_args E parse files args = Finished st ->
  exists blacklist : list pystr,
    load_blacklist files (a_blacklist args) = Ret blacklist
    /\ main (with_parser E parse) blacklist (a_max_results args)
            (a_queries args)
       = Finished st.
Proof.
  unfold main_with_args, main.
  destruct (load_blacklist files (a_blacklist args)) as [blacklist|e];
    [|discriminate].
  intros H. exists blacklist. split; [reflexivity|].
  destruct (run_queries_unguarded E parse blacklist (a_max_results args)
              (a_queries args) initial_state) as [st1|e st1] eqn:Hq;
    [|discriminate].
  rewrite (run_queries_unguarded_finished _ _ _ _ _ _ _ Hq). exact H.
Qed.

(** A query whose search raises or finds nothing is abandoned after its
    search, whatever the parser does. *)
Lemma run_query_unguarded_abandoned (E : Env) (parse : url_parser)
    (blacklist : list pystr) (max_results : Z) (query : pystr) (st : state) :
  (exists e : exn, search_links E (tick st) query max_results = Raise e)
  \/ search_links E (tick st) query max_results = Ret [] ->
  run_query_unguarded E parse blacklist max_results query st
  = Finished (advance (emit (LogSearching query) st)).
Proof.
  unfold run_query_unguarded. cbv zeta. cbn [emit tick].
  intros [[e ->]| ->]; reflexivity.
Qed.

(** ** Failures that end the run *)

(** C9. The run does not survive its failures. As written, [main] reads
    [args] without ever assigning it, so every run ends with [NameError]
    before the first search: no query is attempted and nothing is written.
    With [args] bound, a search result whose URL [urlparse] rejects ends the
    run inside the result loop: the queries after it are never searched and
    neither the files of that query nor the domain summary are written. And
    in a world whose writers fail only with [IOError], when the write of the
    merged CSV file raises it, the merged JSON file, in the same [try]
    block, is never attempted although records exist. *)
Theorem main_does_not_survive_its_failures :
  (forall (E : Env) (parse : url_parser) (files : text_files)
          (value_of : string -> Args),
     main_as_written E parse files value_of
     = Crashed OtherError initial_state
     /\ searched_queries
          (trace (final_state (main_as_written E parse files value_of)))
        = []
     /\ existsb is_summary_write
          (trace (final_state (main_as_written E parse files value_of)))
        = false)
  /\ (strict_parser broken_url = Raise OtherError
      /\ exists st : state,
           main_with_args broken_world strict_parser blacklist_file
                          (command_line [lit "broken"; lit "test"])
           = Crashed OtherError st
           /\ searched_queries (trace st) = [lit "broken"]
           /\ scraped_urls (trace st) = [Scenarios.url_a]
           /\ existsb is_query_write (trace st) = false
           /\ existsb is_merged_csv_write (trace st) = false
           /\ existsb is_summary_write (trace st) = false)
  /\ (writers_raise_ioerror_only Scenarios.merged_csv_fails
      /\ exists st : state,
           main_with_args Scenarios.merged_csv_fails lenient_parser
                          blacklist_file
                          (command_line [lit "boom"; lit "test"])
           = Finished st
           /\ all_data st <> []
           /\ existsb is_merged_csv_write (trace st) = true
           /\ existsb is_merged_json_write (trace st) = false).
Proof.
  split; [|split].
  - intros E parse files value_of. unfold main_as_written.
    change (name_is_bound "args") with false. cbn. auto.
  - split; [vm_compute; reflexivity|].
    eexists. split; [vm_compute; reflexivity|].
    repeat split; vm_compute; reflexivity.
  - split.
    + unfold writers_raise_ioerror_only, Scenarios.merged_csv_fails,
        Scenarios.world. cbn.
      repeat split; try discriminate.
      intros _ p _ e. destruct (PyStr.eqb p _); congruence.
    + eexists. split; [vm_compute; reflexivity|].
      split; [vm_compute; discriminate|].
      split; vm_compute; reflexivity.
Qed.

(** ** [strip] *)

Lemma lstrip_spec (s : pystr) :
  exists l : pystr,
    s = l ++ lstrip s
    /\ Forall (fun c => isspace c = true) l
    /\ (forall c t, lstrip s = c :: t -> isspace c = false).
Proof.
  induction s as [|c s (l & Hs & Hl & Hh)]; cbn [lstrip].
  - exists []. repeat split; [constructor | discriminate].
  - destruct (isspace c) eqn:Hc.
    + exists (c :: l). cbn [app]. rewrite <- Hs.
      repeat split; [now constructor | exact Hh].
    + exists []. repeat split; [constructor|].
      intros c' t [= <- _]. exact Hc.
Qed.

Lemma rstrip_spec (s : pystr) :
  exists r : pystr,
    s = rstrip s ++ r
    /\ Forall (fun c => isspace c = true) r
    /\ (forall t c, rstrip s = t ++ [c] -> isspace c = false).
Proof.
  unfold rstrip. destruct (lstrip_spec (rev s)) as (l & Hs & Hl & Hh).
  exists (rev l). split; [|split].
  - rewrite <- rev_app_distr, <- Hs. symmetry. apply rev_involutive.
  - now apply Forall_rev.
  - intros t c H. apply (f_equal (@rev codepoint)) in H.
    rewrite rev_involutive, rev_app_distr in H. cbn in H.
    exact (Hh _ _ H).
Qed.

Lemma strip_spec (s : pystr) :
  exists l r : pystr,
    s = l ++ strip s ++ r
    /\ Forall (fun c => isspace c = true) l
    /\ Forall (fun c => isspace c = true) r
    /\ (forall c t, strip s = c :: t -> isspace c = false)
    /\ (forall t c, strip s = t ++ [c] -> isspace c = false).
Proof.
  unfold strip.
  destruct (lstrip_spec s) as (l & Hs & Hl & Hh).
  destruct (rstrip_spec (lstrip s)) as (r & Hs' & Hr & Ht).
  exists l, r. split; [now rewrite <- Hs'|].
  split; [exact Hl|]. split; [exact Hr|]. split; [|exact Ht].
  intros c t H. rewrite H in Hs'. cbn in Hs'. exact (Hh _ _ Hs').
Qed.

Lemma strip_length (s : pystr) :
  (List.length (strip s) <= List.length s)%nat.
Proof.
  destruct (strip_spec s) as (l & r & Hs & _).
  rewrite Hs at 2. rewrite !length_app. lia.
Qed.

(** ** The snippet *)

Lemma make_snippet_length (content : pystr) :
  (List.length (make_snippet content) <= 303)%nat.
Proof.
  unfold make_snippet, replace_char, slice_to.
  rewrite length_app, length_map.
  change 303%nat with (300 + 3)%nat. apply Nat.add_le_mono.
  - eapply Nat.le_trans; [apply strip_length | apply firstn_le_length].
  - apply Nat.le_refl.
Qed.

Lemma process_result_snippet (E : Env) (blacklist : list pystr)
    (query : pystr) (r : SearchResult) (q : qstate) (st : state)
    (rec : ScrapedRecord) :
  query_data (fst (process_result E blacklist query r (q, st)))
  = query_data q ++ [rec] ->
  r_snippet rec = make_snippet (r_content rec).
Proof.
  unfold process_result. cbv zeta. cbn [fst snd].
  destruct (mem (netloc E (href r)) blacklist);
    [cbn; intros H; symmetry in H; now apply snoc_neq_self in H|].
  destruct (scrape_content E _ (href r) MIN_WORDS_FOR_CONTENT)
    as [[content|]|e];
    try (cbn; intros H; symmetry in H; now apply snoc_neq_self in H).
  destruct (truthy content);
    [|cbn; intros H; symmetry in H; now apply snoc_neq_self in H].
  destruct (extract_entities E content) as [ents|e];
    [|cbn; intros H; symmetry in H; now apply snoc_neq_self in H].
  cbn. intros H. apply app_inv_head in H. injection H as <-. reflexivity.
Qed.

(** C4, as stated, on the record of the calm scenario: the content is
    fifty words followed by a space; the snippet drops that space before the
    dots, so it is not the first 300 characters with the newlines replaced
    and the dots appended. *)
Lemma snippet_first_300_counterexample :
  exists rec : ScrapedRecord,
    query_data
      (fst (process_result Scenarios.calm Scenarios.blacklist (lit "test")
              Scenarios.first_result (empty_qstate, initial_state)))
    = [rec]
    /\ r_snippet rec
       <> replace_char newline space (slice_to 300 (r_content rec))
          ++ lit "...".
Proof.
  eexists. split; [vm_compute; reflexivity|].
  vm_compute. discriminate.
Qed.

(** C4, amended. The snippet of a record is made from the first 300
    characters of its content: the whitespace at their two ends is dropped,
    each newline of what remains is replaced by a space, and the three dots
    are appended, whatever the length of the content. *)
Theorem snippet_is_stripped_prefix :
  forall (E : Env) (blacklist : list pystr) (query : pystr)
         (r : SearchResult) (q : qstate) (st : state) (rec : ScrapedRecord),
    query_data (fst (process_result E blacklist query r (q, st)))
    = query_data q ++ [rec] ->
    exists l core t : pystr,
      slice_to 300 (r_content rec) = l ++ core ++ t
      /\ Forall (fun c => isspace c = true) l
      /\ Forall (fun c => isspace c = true) t
      /\ (forall c s, core = c :: s -> isspace c = false)
      /\ (forall s c, core = s ++ [c] -> isspace c = false)
      /\ r_snippet rec
         = List.map (fun c => if (c =? newline)%N then space else c) core
           ++ lit "..."
      /\ (List.length (r_snippet rec) <= 303)%nat.
Proof.
  intros E blacklist query r q st rec H.
  apply process_result_snippet in H. rewrite H.
  destruct (strip_spec (slice_to 300 (r_content rec)))
    as (l & t & Hs & Hl & Ht & Hhead & Hlast).
  exists l, (strip (slice_to 300 (r_content rec))), t.
  split; [exact Hs|]. split; [exact Hl|]. split; [exact Ht|].
  split; [exact Hhead|]. split; [exact Hlast|].
  split; [reflexivity | apply make_snippet_length].
Qed.

(** The theorem on the record of the calm scenario. *)
Lemma snippet_is_stripped_prefix_witness :
  exists (rec : ScrapedRecord) (l core t : pystr),
    slice_to 300 (r_content rec) = l ++ core ++ t
    /\ r_snippet rec
       = List.map (fun c => if (c =? newline)%N then space else c) core
         ++ lit "...".
Proof.
  assert (Hrec :
            exists rec : ScrapedRecord,
              query_data
                (fst (process_result Scenarios.calm Scenarios.blacklist
                        (lit "test") Scenarios.first_result
                        (empty_qstate, initial_state)))
              = query_data empty_qstate ++ [rec])
    by (eexists; vm_compute; reflexivity).
  destruct Hrec as (rec & Hrec).
  destruct (snippet_is_stripped_prefix
              Scenarios.calm Scenarios.blacklist (lit "test")
              Scenarios.first_result empty_qstate initial_state rec Hrec)
    as (l & core & t & Hs & _ & _ & _ & _ & Hsn & _).
  exists rec, l, core, t. split; assumption.
Defined.

(* ================================================================== *)
(** * Further properties *)
(* ================================================================== *)

(** ** File names *)

Lemma sanitize_filename_fixed_allowed (s : pystr) :
  sanitize_filename s = s -> Forall (fun c => allowed c = true) s.
Proof.
  unfold sanitize_filename. induction s as [|c s IH]; cbn [List.map].
  - constructor.
  - intros [= Hc Hs]. constructor; [|now apply IH].
    destruct (allowed c) eqn:Ha; [reflexivity|].
    rewrite <- Hc in Ha. discriminate.
Qed.

(** X1. [sanitize_filename] returns its argument unchanged exactly when
    the argument has only characters of [[A-Za-z0-9_]]. *)
Theorem sanitize_filename_fixed_iff :
  forall s : pystr,
    sanitize_filename s = s <-> Forall (fun c => allowed c = true) s.
Proof.
  intros s. split.
  - apply sanitize_filename_fixed_allowed.
  - apply sanitize_filename_fixes_allowed.
Qed.

(** X2. The file names of two queries are equal exactly when their
    sanitized names are equal; a query with a character outside the class
    is a different query from its sanitized name and has the same two file
    names, so the later of the two overwrites the files of the earlier. *)
Theorem query_file_names_collide :
  forall q1 q2 : pystr,
    (output_path_of q1 = output_path_of q2
     <-> sanitize_filename q1 = sanitize_filename q2)
    /\ (failed_log_path_of q1 = failed_log_path_of q2
        <-> sanitize_filename q1 = sanitize_filename q2)
    /\ (~ Forall (fun c => allowed c = true) q1 ->
        sanitize_filename q1 <> q1
        /\ output_path_of (sanitize_filename q1) = output_path_of q1
        /\ failed_log_path_of (sanitize_filename q1) = failed_log_path_of q1).
Proof.
  intros q1 q2. unfold output_path_of, failed_log_path_of.
  split; [|split].
  - split; [|intros ->; reflexivity].
    intros H. apply app_inv_head in H. apply app_inv_head in H.
    now apply app_inv_tail in H.
  - split; [|intros ->; reflexivity].
    intros H. apply app_inv_head in H. apply app_inv_head in H.
    now apply app_inv_tail in H.
  - intros Hq. split.
    + intros H. apply Hq. now apply sanitize_filename_fixed_allowed.
    + assert (Hi : sanitize_filename (sanitize_filename q1)
                   = sanitize_filename q1)
        by apply sanitize_filename_fixes_allowed, sanitize_filename_allowed.
      now rewrite Hi.
Qed.

(** The theorem at the query ["AI in healthcare"], whose spaces are not in
    the class. *)
Lemma query_file_names_collide_witness :
  sanitize_filename (lit "AI in healthcare") <> lit "AI in healthcare"
  /\ output_path_of (sanitize_filename (lit "AI in healthcare"))
     = output_path_of (lit "AI in healthcare").
Proof.
  destruct (query_file_names_collide (lit "AI in healthcare") [])
    as (_ & _ & H).
  destruct H as (Hne & Hp & _).
  - intros Hall. apply Forall_forall with (x := 32%N) in Hall.
    + discriminate.
    + vm_compute. tauto.
  - split; assumption.
Defined.

(** ** Sizes *)

Lemma round_half_even_scale (num den k : Z) :
  0 < den -> 0 < k ->
  round_half_even (num * k) (den * k) = round_half_even num den.
Proof.
  intros Hd Hk. unfold round_half_even.
  rewrite Z.div_mul_cancel_r, Z.mul_mod_distr_r by lia.
  assert (Hc : (2 * (num mod den * k) ?= den * k) = (2 * (num mod den) ?= den)).
  { destruct (Z.compare_spec (2 * (num mod den * k)) (den * k)),
             (Z.compare_spec (2 * (num mod den)) den);
      (reflexivity || nia). }
  now rewrite Hc.
Qed.

Lemma round_half_even_mono (num1 num2 den : Z) :
  0 < den -> num1 <= num2 ->
  round_half_even num1 den <= round_half_even num2 den.
Proof.
  intros Hd Hle.
  pose proof (round_half_even_near num1 den Hd) as H1.
  pose proof (round_half_even_near num2 den Hd) as H2.
  destruct (Z_le_gt_dec (round_half_even num1 den)
                        (round_half_even num2 den)) as [|Hgt];
    [assumption|].
  exfalso.
  assert (Heq : num1 = num2) by nia.
  subst num2. lia.
Qed.

(** Below 2^53 the quotient by a power of two is exact, so the hundredths
    printed for [b / 2^k] are the nearest to [100 * b / 2^k]. *)
Lemma hundredths_truediv_pow2 (b k : Z) :
  0 < b < 2 ^ 53 -> 0 <= k ->
  hundredths (truediv b (2 ^ k)) = round_half_even (100 * b) (2 ^ k).
Proof.
  intros [Hb Hlt] Hk.
  assert (Hl : Z.log2 b < 53) by (apply Z.log2_lt_pow2; lia).
  rewrite truediv_pow2_unfold by lia.
  set (s := 52 - (Z.log2 b - k)).
  assert (Hpk : 0 < 2 ^ k) by (apply Z.pow_pos_nonneg; lia).
  assert (Hps : 0 < 2 ^ (s - k)) by (apply Z.pow_pos_nonneg; unfold s; lia).
  assert (Hsplit : 2 ^ s = 2 ^ k * 2 ^ (s - k)).
  { rewrite <- Z.pow_add_r by (unfold s; lia). f_equal. lia. }
  replace (b * 2 ^ s) with ((b * 2 ^ (s - k)) * 2 ^ k) by (rewrite Hsplit; ring).
  rewrite round_half_even_exact by assumption.
  unfold hundredths. cbn [Qnum Qden].
  rewrite Z2Pos.id by (rewrite Hsplit; lia).
  rewrite Hsplit.
  replace (100 * (b * 2 ^ (s - k))) with (100 * b * 2 ^ (s - k)) by ring.
  now apply round_half_even_scale.
Qed.

(** X3. For a file of at least 1024 and less than 1024^2 bytes the number
    printed before [" KB"] is the hundredths nearest to [100 * b / 1024]
    (ties to even); it lies between 1.00 and 1024.00 and never decreases
    when the size grows. *)
Theorem kilobytes_are_monotone :
  forall (getsize : filesystem) (p1 p2 : pystr) (b1 b2 : Z),
    getsize p1 = Some b1 -> getsize p2 = Some b2 ->
    1024 <= b1 -> b1 <= b2 -> b2 < 1024 * 1024 ->
    get_file_size_human_readable getsize p1
    = fixed2 (round_half_even (100 * b1) 1024) ++ lit " KB"
    /\ get_file_size_human_readable getsize p2
       = fixed2 (round_half_even (100 * b2) 1024) ++ lit " KB"
    /\ 100 <= round_half_even (100 * b1) 1024
    /\ round_half_even (100 * b1) 1024 <= round_half_even (100 * b2) 1024
    /\ round_half_even (100 * b2) 1024 <= 102400.
Proof.
  intros getsize p1 p2 b1 b2 H1 H2 Hlo Hle Hhi.
  assert (Hfmt : forall p b, getsize p = Some b -> 1024 <= b < 1024 * 1024 ->
                 get_file_size_human_readable getsize p
                 = fixed2 (round_half_even (100 * b) 1024) ++ lit " KB").
  { intros p b Hp [Hb Hb']. unfold get_file_size_human_readable. rewrite Hp.
    destruct (Z.ltb_spec b 1024); [lia|].
    destruct (Z.ltb_spec b (1024 * 1024)); [|lia].
    unfold format_2f. change (truediv b 1024) with (truediv b (2 ^ 10)).
    rewrite hundredths_truediv_pow2 by lia. reflexivity. }
  split; [apply Hfmt; [assumption | lia]|].
  split; [apply Hfmt; [assumption | lia]|].
  split; [|split].
  - change 100 with (round_half_even (100 * 1024) 1024) at 1.
    apply round_half_even_mono; lia.
  - apply round_half_even_mono; lia.
  - change 102400 with (round_half_even (100 * (1024 * 1024)) 1024).
    apply round_half_even_mono; lia.
Qed.

(** The theorem at the 1500-byte file of the test file system, compared
    with itself. *)
Lemma kilobytes_are_monotone_witness :
  get_file_size_human_readable test_fs (lit "kb.txt")
  = fixed2 (round_half_even (100 * 1500) 1024) ++ lit " KB"
  /\ 100 <= round_half_even (100 * 1500) 1024 <= 102400.
Proof.
  destruct (kilobytes_are_monotone test_fs (lit "kb.txt") (lit "kb.txt")
              1500 1500 eq_refl eq_refl)
    as (H1 & _ & Hlo & _ & Hhi); try lia.
  split; [exact H1 | split; assumption].
Defined.

(** X4. For a file of at least 1024^2 and less than 2^53 bytes the number
    printed before [" MB"] is the hundredths nearest to [100 * b / 1024^2]
    (ties to even); it is at least 1.00 and never decreases when the size
    grows. *)
Theorem megabytes_are_monotone :
  forall (getsize : filesystem) (p1 p2 : pystr) (b1 b2 : Z),
    getsize p1 = Some b1 -> getsize p2 = Some b2 ->
    1024 * 1024 <= b1 -> b1 <= b2 -> b2 < 2 ^ 53 ->
    get_file_size_human_readable getsize p1
    = fixed2 (round_half_even (100 * b1) (1024 * 1024)) ++ lit " MB"
    /\ get_file_size_human_readable getsize p2
       = fixed2 (round_half_even (100 * b2) (1024 * 1024)) ++ lit " MB"
    /\ 100 <= round_half_even (100 * b1) (1024 * 1024)
    /\ round_half_even (100 * b1) (1024 * 1024)
       <= round_half_even (100 * b2) (1024 * 1024).
Proof.
  intros getsize p1 p2 b1 b2 H1 H2 Hlo Hle Hhi.
  assert (Hfmt : forall p b, getsize p = Some b -> 1024 * 1024 <= b < 2 ^ 53 ->
                 get_file_size_human_readable getsize p
                 = fixed2 (round_half_even (100 * b) (1024 * 1024))
                   ++ lit " MB").
  { intros p b Hp [Hb Hb']. unfold get_file_size_human_readable. rewrite Hp.
    destruct (Z.ltb_spec b 1024); [lia|].
    destruct (Z.ltb_spec b (1024 * 1024)); [lia|].
    unfold format_2f.
    change (truediv b (1024 * 1024)) with (truediv b (2 ^ 20)).
    rewrite hundredths_truediv_pow2 by lia. reflexivity. }
  split; [apply Hfmt; [assumption | lia]|].
  split; [apply Hfmt; [assumption | lia]|].
  split.
  - change 100 with (round_half_even (100 * (1024 * 1024)) (1024 * 1024)) at 1.
    apply round_half_even_mono; lia.
  - apply round_half_even_mono; lia.
Qed.

(** The theorem at the 2 MiB file of the test file system, compared with
    itself. *)
Lemma megabytes_are_monotone_witness :
  get_file_size_human_readable test_fs (lit "mb.txt")
  = fixed2 (round_half_even (100 * (1024 * 1024 * 2)) (1024 * 1024))
    ++ lit " MB".
Proof.
  destruct (megabytes_are_monotone test_fs (lit "mb.txt") (lit "mb.txt")
              (1024 * 1024 * 2) (1024 * 1024 * 2) eq_refl eq_refl)
    as (H1 & _); try lia.
  exact H1.
Defined.

(** ** Where the result of [scrape_content] comes from *)

(** X5. A text returned by [scrape_content] is not empty, has at least
    [min_words] words, and is either the structured text of the fetched
    document or, when the structured text was rejected, the newline-joined
    text of its non-empty paragraphs; the fetched document is not empty. *)
Theorem scrape_content_result_origin :
  forall (E : Env) (t : nat) (url : pystr) (min_words : Z) (c : pystr),
    scrape_content E t url min_words = Ret (Some c) ->
    c <> []
    /\ min_words <= word_count c
    /\ exists d : pystr,
         fetch_url E t url = Ret (Some d)
         /\ d <> []
         /\ (extract E d = Ret (Some c)
             \/ exists (content : option pystr) (ps : list pystr),
                  extract E d = Ret content
                  /\ long_enough min_words content = false
                  /\ find_all_p_text E d = Ret ps
                  /\ c = join [newline] (List.filter truthy ps)).
Proof.
  intros E t url min_words c H.
  destruct (scrape_content_accepts E t url min_words c H) as [Hc Hw].
  split; [exact Hc|]. split; [exact Hw|].
  revert H. unfold scrape_content, bind.
  destruct (fetch_url E t url) as [[d|]|]; try discriminate.
  destruct (truthy d) eqn:Hd; try discriminate.
  intros H. exists d. split; [reflexivity|].
  split; [now apply truthy_true|].
  destruct (extract E d) as [content|]; try discriminate.
  destruct (long_enough min_words content) eqn:Hl.
  - left. congruence.
  - right. destruct (find_all_p_text E d) as [ps|]; try discriminate.
    exists content, ps.
    destruct (long_enough min_words (Some _)); try discriminate.
    injection H as <-. auto.
Qed.

(** The theorem at the first page of the calm scenario. *)
Lemma scrape_content_result_origin_witness :
  Scenarios.fifty_words <> []
  /\ MIN_WORDS_FOR_CONTENT <= word_count Scenarios.fifty_words.
Proof.
  assert (H : scrape_content Scenarios.calm 0 Scenarios.url_a
                             MIN_WORDS_FOR_CONTENT
              = Ret (Some Scenarios.fifty_words))
    by (vm_compute; reflexivity).
  destruct (scrape_content_result_origin
              Scenarios.calm 0 Scenarios.url_a MIN_WORDS_FOR_CONTENT
              Scenarios.fifty_words H) as (Hc & Hw & _).
  split; assumption.
Defined.

(** X6. [scrape_content] raises exactly when one of the collaborators it
    calls raises, and then with that exception: the fetch; or the
    structured extraction of a non-empty document; or, after a rejected
    structured text, the paragraph scan. The paragraph scan is not run, and
    so cannot raise, when the structured text is accepted. *)
Theorem scrape_content_raises_iff :
  forall (E : Env) (t : nat) (url : pystr) (min_words : Z) (e : exn),
    scrape_content E t url min_words = Raise e
    <-> (fetch_url E t url = Raise e
         \/ exists d : pystr,
              fetch_url E t url = Ret (Some d)
              /\ d <> []
              /\ (extract E d = Raise e
                  \/ exists content : option pystr,
                       extract E d = Ret content
                       /\ long_enough min_words content = false
                       /\ find_all_p_text E d = Raise e)).
Proof.
  intros E t url min_words e. unfold scrape_content, bind. split.
  - destruct (fetch_url E t url) as [[d|]|e0]; try discriminate.
    + destruct (truthy d) eqn:Hd; try discriminate.
      intros H. right. exists d. split; [reflexivity|].
      split; [now apply truthy_true|].
      destruct (extract E d) as [content|e0].
      * destruct (long_enough min_words content) eqn:Hl; try discriminate.
        right. exists content. split; [reflexivity|]. split; [exact Hl|].
        destruct (find_all_p_text E d) as [ps|e0]; [|congruence].
        destruct (long_enough min_words (Some _)); discriminate.
      * left. congruence.
    + intros H. left. congruence.
  - intros [H|(d & Hf & Hd & H)].
    + now rewrite H.
    + rewrite Hf. apply truthy_true in Hd. rewrite Hd.
      destruct H as [H|(content & He & Hl & Hp)].
      * now rewrite H.
      * now rewrite He, Hl, Hp.
Qed.

(** ** Entities *)

Lemma entity_labels_NoDup : NoDup entity_labels.
Proof.
  apply (NoDup_count_occ' (list_eq_dec N.eq_dec)).
  intros k Hk. vm_compute in Hk.
  repeat (destruct Hk as [<-|Hk]; [vm_compute; reflexivity|]).
  contradiction.
Qed.

Section EntityTable.
Variable ents : list (pystr * pystr).

Lemma tagged_In (k t : pystr) : In t (tagged ents k) <-> In (k, t) ents.
Proof.
  unfold tagged. rewrite in_map_iff. split.
  - intros ([k' t'] & <- & H). apply filter_In in H as [H He].
    cbn in He. apply pystr_eqb_eq in He. now subst.
  - intros H. exists (k, t). split; [reflexivity|].
    apply filter_In. split; [exact H | apply pystr_eqb_refl].
Qed.

Lemma tagged_nil (k : pystr) :
  tagged ents k = []
  <-> existsb (fun e => PyStr.eqb (fst e) k) ents = false.
Proof.
  unfold tagged. induction ents as [|[k' t'] l IH]; cbn; [tauto|].
  destruct (PyStr.eqb k' k); cbn; [split; discriminate | exact IH].
Qed.

Lemma table_keys (ks : list pystr) :
  List.map fst (flat_map (entity_row ents) ks)
  = List.filter (fun k => existsb (fun e => PyStr.eqb (fst e) k) ents) ks.
Proof.
  induction ks as [|k ks IH]; [reflexivity|].
  cbn [flat_map List.filter]. rewrite map_app, IH. unfold entity_row at 1.
  destruct (tagged ents k) eqn:Hk.
  - apply tagged_nil in Hk. now rewrite Hk.
  - destruct (existsb _ ents) eqn:He; [reflexivity|].
    apply tagged_nil in He. congruence.
Qed.

Lemma table_In (ks : list pystr) (k : pystr) (v : list pystr) :
  In (k, v) (flat_map (entity_row ents) ks) ->
  In k ks /\ v = nodup (list_eq_dec N.eq_dec) (tagged ents k) /\ tagged ents k <> [].
Proof.
  rewrite in_flat_map. intros (k' & Hk' & H). unfold entity_row in H.
  destruct (tagged ents k') eqn:Ht; [contradiction|].
  destruct H as [[= <- <-]|[]]. rewrite Ht. repeat split; [exact Hk'|discriminate].
Qed.
End EntityTable.

(** X7. When the tagger returns, [extract_entities] returns a table whose
    keys are the labels of its dictionary literal that tag at least one
    entity, in the order of the literal and without repetition; the list of
    a key is not empty, has no repeated string, and holds exactly the
    surface strings the tagger gave that label. Entities with any other
    label are dropped. *)
Theorem extract_entities_table :
  forall (E : Env) (text : pystr) (ents : list (pystr * pystr)),
    nlp_ents E text = Ret ents ->
    exists table : Entities,
      extract_entities E text = Ret table
      /\ List.map fst table
         = List.filter
             (fun k => existsb (fun e => PyStr.eqb (fst e) k) ents)
             entity_labels
      /\ NoDup (List.map fst table)
      /\ (forall (k : pystr) (v : list pystr),
            In (k, v) table ->
            In k entity_labels
            /\ v <> []
            /\ NoDup v
            /\ forall t : pystr, In t v <-> In (k, t) ents).
Proof.
  intros E text ents H. unfold extract_entities, bind. rewrite H.
  exists (flat_map (entity_row ents) entity_labels).
  split; [reflexivity|].
  split; [apply table_keys|].
  split; [rewrite table_keys; apply NoDup_filter, entity_labels_NoDup|].
  intros k v Hin. apply table_In in Hin as (Hk & -> & Hne).
  unfold tagged in *.
  split; [exact Hk|]. split; [|split].
  - intros Hn. apply Hne.
    destruct (List.map snd _) as [|t l] eqn:Hv; [reflexivity|].
    assert (Ht : In t (nodup (list_eq_dec N.eq_dec) (t :: l)))
      by (apply nodup_In; now left).
    rewrite Hn in Ht. contradiction.
  - apply NoDup_nodup.
  - intros t. rewrite nodup_In. apply tagged_In.
Qed.

(** The theorem on a tagger that names one organisation twice, a person,
    and a label the dictionary does not have. *)
Lemma extract_entities_table_witness :
  exists table : Entities,
    extract_entities
      (Scenarios.world
         (fun _ => Ret [ (lit "ORG", lit "Acme"); (lit "PERSON", lit "Ada");
                         (lit "ORG", lit "Acme"); (lit "MISC", lit "x") ])
         (fun _ => Ret tt))
      (lit "Ada runs Acme")
    = Ret table
    /\ List.map fst table = [lit "PERSON"; lit "ORG"].
Proof.
  destruct (extract_entities_table
              (Scenarios.world
                 (fun _ => Ret [ (lit "ORG", lit "Acme");
                                 (lit "PERSON", lit "Ada");
                                 (lit "ORG", lit "Acme");
                                 (lit "MISC", lit "x") ])
                 (fun _ => Ret tt))
              (lit "Ada runs Acme") _ eq_refl)
    as (table & Ht & Hk & _).
  exists table. split; [exact Ht|]. rewrite Hk. vm_compute. reflexivity.
Defined.

(** ** The blacklist file *)

Lemma lstrip_fixed (s : pystr) :
  (forall c t, s = c :: t -> isspace c = false) -> lstrip s = s.
Proof.
  destruct s as [|c t]; [reflexivity|].
  intros H. cbn. now rewrite (H c t eq_refl).
Qed.

Lemma rstrip_fixed (s : pystr) :
  (forall t c, s = t ++ [c] -> isspace c = false) -> rstrip s = s.
Proof.
  intros H. unfold rstrip. rewrite lstrip_fixed; [apply rev_involutive|].
  intros c t Hr. apply (H (rev t) c).
  rewrite <- (rev_involutive s), Hr. reflexivity.
Qed.

Lemma strip_idempotent (s : pystr) : strip (strip s) = strip s.
Proof.
  destruct (strip_spec s) as (l & r & _ & _ & _ & Hhead & Hlast).
  unfold strip at 1. rewrite (lstrip_fixed (strip s) Hhead).
  now apply rstrip_fixed.
Qed.

(** X8. Without a blacklist file, or when opening or reading it fails
    with an [IOError], the run goes on with an empty blacklist. When the
    file is read, the blacklist holds exactly the non-empty stripped lines:
    blank lines give nothing, and no entry begins or ends with
    whitespace. *)
Theorem load_blacklist_entries :
  forall (files : text_files) (path : pystr),
    (files path = None -> load_blacklist files path = Ret [])
    /\ (files path = Some (Raise IOError) ->
        load_blacklist files path = Ret [])
    /\ (forall lines : list pystr,
          files path = Some (Ret lines) ->
          exists blacklist : list pystr,
            load_blacklist files path = Ret blacklist
            /\ (forall d : pystr,
                  In d blacklist
                  <-> d <> []
                      /\ exists line : pystr,
                           In line lines /\ strip line = d)
            /\ Forall (fun d =>
                         strip d = d
                         /\ (forall c t, d = c :: t -> isspace c = false)
                         /\ (forall t c, d = t ++ [c] -> isspace c = false))
                      blacklist).
Proof.
  intros files path. unfold load_blacklist.
  split; [now intros ->|]. split; [now intros ->|].
  intros lines ->. eexists. split; [reflexivity|]. split.
  - intros d. rewrite in_map_iff. split.
    + intros (line & <- & H). apply filter_In in H as [H Ht].
      split; [now apply truthy_true | eauto].
    + intros (Hd & line & H & <-). exists line. split; [reflexivity|].
      apply filter_In. split; [exact H | now apply truthy_true].
  - apply Forall_map, Forall_forall. intros line _.
    destruct (strip_spec line) as (l & r & _ & _ & _ & Hhead & Hlast).
    split; [apply strip_idempotent | split; assumption].
Qed.

(** The theorem on the four-line blacklist file. *)
Lemma load_blacklist_entries_witness :
  load_blacklist blacklist_file (lit "missing.txt") = Ret []
  /\ load_blacklist blacklist_file (lit "locked.txt") = Ret []
  /\ load_blacklist blacklist_file (lit "blacklist.txt")
     = Ret [lit "blocked.org"; lit "spam.example"].
Proof.
  destruct (load_blacklist_entries blacklist_file (lit "missing.txt"))
    as (H1 & _).
  destruct (load_blacklist_entries blacklist_file (lit "locked.txt"))
    as (_ & H2 & _).
  split; [apply H1; reflexivity|]. split; [apply H2; reflexivity|].
  vm_compute. reflexivity.
Defined.

(** A URL whose host is not blacklisted is scraped, whatever comes of
    it. *)
Lemma process_result_scrapes (E : Env) (blacklist : list pystr)
    (query : pystr) (r : SearchResult) (q : qstate) (st : state) :
  ~ In (netloc E (href r)) blacklist ->
  trace (snd (process_result E blacklist query r (q, st)))
  = trace st ++ [LogScraping (href r)].
Proof.
  intros Hout.
  assert (Hm : mem (netloc E (href r)) blacklist = false).
  { destruct (mem _ blacklist) eqn:H; [|reflexivity].
    apply mem_In in H. contradiction. }
  unfold process_result. cbv zeta. rewrite Hm. cbn [fst snd emit tick].
  destruct (scrape_content E (tick st) (href r) MIN_WORDS_FOR_CONTENT)
    as [[c|]|e]; try reflexivity.
  destruct (truthy c); [|reflexivity].
  destruct (extract_entities E c); reflexivity.
Qed.

(** X9. With a blacklist loaded from a file, the host that [urlparse]
    gives for the URL of a search result is blacklisted exactly when it is
    not the empty string and is the stripped form of some line of the file,
    however the line is padded. Such a result is skipped: it is not scraped,
    it yields no record, its URL is recorded as failed and the failure
    counter of its host grows by one. Every other result is scraped; so is,
    in particular, one whose host is the empty string, even when the file
    has blank lines. *)
Theorem listed_host_is_skipped :
  forall (files : text_files) (path : pystr) (lines blacklist : list pystr)
         (E : Env) (parse : url_parser) (query : pystr) (r : SearchResult)
         (d : pystr) (q : qstate) (st : state),
    files path = Some (Ret lines) ->
    load_blacklist files path = Ret blacklist ->
    parse (href r) = Ret d ->
    exists (q' : qstate) (st' : state),
      process_result_unguarded E parse blacklist query r (q, st)
      = Continue (q', st')
      /\ (In d blacklist
          <-> d <> [] /\ exists line : pystr, In line lines /\ strip line = d)
      /\ (In d blacklist ->
          trace st' = trace st ++ [LogSkipping (href r)]
          /\ query_data q' = query_data q
          /\ failed_urls q' = failed_urls q ++ [href r]
          /\ failures_of d (domain_stats st')
             = failures_of d (domain_stats st) + 1
          /\ successes_of d (domain_stats st')
             = successes_of d (domain_stats st))
      /\ (~ In d blacklist ->
          trace st' = trace st ++ [LogScraping (href r)])
      /\ (d = [] -> trace st' = trace st ++ [LogScraping (href r)]).
Proof.
  intros files path lines blacklist E parse query r d q st Hf Hl Hp.
  assert (Hmem : In d blacklist
                 <-> d <> [] /\ exists line, In line lines /\ strip line = d).
  { revert Hl. unfold load_blacklist. rewrite Hf. intros [= <-].
    rewrite in_map_iff. split.
    - intros (line & <- & H). apply filter_In in H as [H Ht].
      split; [now apply truthy_true | eauto].
    - intros (Hd & line & H & <-). exists line. split; [reflexivity|].
      apply filter_In. split; [exact H | now apply truthy_true]. }
  assert (Hhost : netloc (with_parser E parse) (href r) = d)
    by (cbn [netloc with_parser]; now rewrite Hp).
  unfold process_result_unguarded. rewrite Hp.
  destruct (process_result (with_parser E parse) blacklist query r (q, st))
    as [q' st'] eqn:Hstep.
  exists q', st'. split; [reflexivity|]. split; [exact Hmem|].
  assert (Hscraped : ~ In d blacklist ->
                     trace st' = trace st ++ [LogScraping (href r)]).
  { intros Hout.
    change st' with (snd (q', st')). rewrite <- Hstep.
    apply process_result_scrapes. now rewrite Hhost. }
  split; [|split; [exact Hscraped|]].
  - intros Hd.
    assert (Hd' : In (netloc (with_parser E parse) (href r)) blacklist)
      by now rewrite Hhost.
    rewrite (process_result_skip (with_parser E parse) blacklist query r
               q st Hd') in Hstep.
    rewrite Hhost in Hstep. injection Hstep as <- <-.
    cbn [record_failure fst snd query_data failed_urls with_stats
         domain_stats emit trace].
    rewrite failures_of_incr_fail, successes_of_incr_fail, pystr_eqb_refl.
    repeat split; reflexivity.
  - intros ->. apply Hscraped. intros Hin.
    apply Hmem in Hin as [Hne _]. now apply Hne.
Qed.

(** The theorem on the padded line of the blacklist file and the blocked
    URL of the scenarios. *)
Lemma listed_host_is_skipped_witness :
  exists (q' : qstate) (st' : state),
    process_result_unguarded Scenarios.calm lenient_parser
      [lit "blocked.org"; lit "spam.example"] (lit "test")
      {| href := Scenarios.url_b; title := None |}
      (empty_qstate, initial_state)
    = Continue (q', st')
    /\ In (lit "blocked.org") [lit "blocked.org"; lit "spam.example"]
    /\ failed_urls q' = [Scenarios.url_b]
    /\ trace st' = [LogSkipping Scenarios.url_b].
Proof.
  assert (Hload : load_blacklist blacklist_file (lit "blacklist.txt")
                  = Ret [lit "blocked.org"; lit "spam.example"])
    by (vm_compute; reflexivity).
  assert (Hparse : lenient_parser
                     (href {| href := Scenarios.url_b; title := None |})
                   = Ret (lit "blocked.org"))
    by (vm_compute; reflexivity).
  destruct (listed_host_is_skipped
              blacklist_file (lit "blacklist.txt") _
              [lit "blocked.org"; lit "spam.example"]
              Scenarios.calm lenient_parser (lit "test")
              {| href := Scenarios.url_b; title := None |}
              (lit "blocked.org") empty_qstate initial_state
              eq_refl Hload Hparse)
    as (q' & st' & Hstep & Hiff & Hskip & _).
  assert (Hin : In (lit "blocked.org")
                   [lit "blocked.org"; lit "spam.example"])
    by (left; reflexivity).
  destruct (Hskip Hin) as (Htr & _ & Hfail & _).
  exists q', st'. split; [exact Hstep|]. split; [exact Hin|].
  split; [exact Hfail | exact Htr].
Defined.

(** ** What the result loop leaves behind *)

Lemma count_domain_app (d : pystr) (l1 l2 : list ScrapedRecord) :
  count_domain d (l1 ++ l2) = count_domain d l1 + count_domain d l2.
Proof.
  unfold count_domain, len. rewrite filter_app, length_app.
  apply Nat2Z.inj_add.
Qed.

Lemma count_host_app (E : Env) (d : pystr) (l1 l2 : list pystr) :
  count_host E d (l1 ++ l2) = count_host E d l1 + count_host E d l2.
Proof.
  unfold count_host, len. rewrite filter_app, length_app.
  apply Nat2Z.inj_add.
Qed.

Lemma urls_sent_to_failure_logs_app (tr1 tr2 : list event) :
  urls_sent_to_failure_logs (tr1 ++ tr2)
  = urls_sent_to_failure_logs tr1 ++ urls_sent_to_failure_logs tr2.
Proof. apply flat_map_app. Qed.

Lemma urls_sent_to_failure_logs_none (evs : list event) :
  Forall (fun ev => match ev with WriteFailedLog _ _ => False | _ => True end)
         evs ->
  urls_sent_to_failure_logs evs = [].
Proof.
  induction 1 as [|ev evs Hev _ IH]; [reflexivity|].
  cbn [urls_sent_to_failure_logs flat_map]. fold (urls_sent_to_failure_logs evs).
  rewrite IH. now destruct ev.
Qed.

Lemma interleaved_length (A : Type) (l1 l2 l : list A) :
  interleaved l1 l2 l ->
  List.length l = (List.length l1 + List.length l2)%nat.
Proof.
  induction 1; cbn; [reflexivity | now rewrite IHinterleaved |].
  rewrite IHinterleaved. apply plus_n_Sm.
Qed.

Section LoopEffects.
Variable E : Env.
Variable blacklist : list pystr.

(** The two ends of an iteration, with what is known of the record. *)
Lemma process_result_cases (query : pystr) (r : SearchResult)
    (q : qstate) (st : state) :
  exists st1 : state,
    all_data st1 = all_data st
    /\ domain_stats st1 = domain_stats st
    /\ (process_result E blacklist query r (q, st)
        = record_failure (href r) (netloc E (href r)) (q, st1)
        \/ exists rec : ScrapedRecord,
             process_result E blacklist query r (q, st)
             = record_success rec (netloc E (href r)) (q, st1)
             /\ r_topic rec = query
             /\ r_url rec = href r
             /\ record_ok E blacklist rec).
Proof.
  unfold process_result. cbv zeta. cbn [fst snd].
  destruct (mem (netloc E (href r)) blacklist) eqn:Hm.
  { eexists. split; [|split; [|left; reflexivity]]; reflexivity. }
  cbn [emit tick].
  destruct (scrape_content E (tick st) (href r) MIN_WORDS_FOR_CONTENT)
    as [[c|]|e] eqn:Hs.
  - destruct (truthy c) eqn:Hc.
    + destruct (extract_entities E c) as [ents|e] eqn:He.
      * destruct (scrape_content_accepts E _ _ _ _ Hs) as [Hne Hw].
        eexists. split; [|split; [|right; eexists; split; [reflexivity|]]];
          try reflexivity.
        unfold record_ok.
        cbn [r_topic r_url r_domain r_content r_snippet r_keywords].
        split; [reflexivity|]. split; [reflexivity|].
        split; [reflexivity|]. split.
        { intros Hin. apply mem_In in Hin. congruence. }
        repeat split; auto.
      * eexists. split; [|split; [|left; reflexivity]]; reflexivity.
    + eexists. split; [|split; [|left; reflexivity]]; reflexivity.
  - eexists. split; [|split; [|left; reflexivity]]; reflexivity.
  - eexists. split; [|split; [|left; reflexivity]]; reflexivity.
Qed.
End LoopEffects.

Lemma count_domain_one (d : pystr) (rec : ScrapedRecord) :
  count_domain d [rec] = if PyStr.eqb d (r_domain rec) then 1 else 0.
Proof.
  unfold count_domain. cbn [List.filter].
  rewrite (pystr_eqb_sym (r_domain rec) d).
  now destruct (PyStr.eqb d (r_domain rec)).
Qed.

Lemma count_host_one (E : Env) (d url : pystr) :
  count_host E d [url] = if PyStr.eqb d (netloc E url) then 1 else 0.
Proof.
  unfold count_host. cbn [List.filter].
  rewrite (pystr_eqb_sym (netloc E url) d).
  now destruct (PyStr.eqb d (netloc E url)).
Qed.

Section LoopSplit.
Variable E : Env.
Variable blacklist : list pystr.

(** The result loop sends every result either to the records or to the
    failed URLs, and moves the counters accordingly. *)
Lemma process_results_split (query : pystr) (rs : list SearchResult)
    (q : qstate) (st : state) :
  exists (recs : list ScrapedRecord) (fs : list pystr),
    let qs' := fold_left (fun acc r => process_result E blacklist query r acc)
                         rs (q, st) in
    query_data (fst qs') = query_data q ++ recs
    /\ failed_urls (fst qs') = failed_urls q ++ fs
    /\ interleaved (List.map r_url recs) fs (List.map href rs)
    /\ Forall (fun rec => r_topic rec = query /\ record_ok E blacklist rec)
              recs
    /\ all_data (snd qs') = all_data st
    /\ forall d : pystr,
         successes_of d (domain_stats (snd qs'))
         = successes_of d (domain_stats st) + count_domain d recs
         /\ failures_of d (domain_stats (snd qs'))
            = failures_of d (domain_stats st) + count_host E d fs.
Proof.
  revert q st. induction rs as [|r rs IH]; intros q st.
  - exists [], []. cbn. rewrite !app_nil_r.
    repeat split; try constructor; lia.
  - cbn [fold_left].
    destruct (process_result_cases E blacklist query r q st)
      as (st1 & Ha & Hs & [Hp|(rec & Hp & Ht & Hu & Hok)]); rewrite Hp.
    + (* a failure *)
      unfold record_failure. cbn [fst snd].
      match goal with
      | |- context [fold_left _ rs (?q1, ?s1)] =>
          destruct (IH q1 s1) as (recs & fs & H)
      end.
      cbv zeta in H. destruct H as (Hq & Hf & Hi & Hr & Had & Hc).
      exists recs, (href r :: fs). cbv zeta.
      cbn [query_data failed_urls with_stats all_data domain_stats] in *.
      split; [exact Hq|]. split; [rewrite Hf, <- app_assoc; reflexivity|].
      split; [cbn [List.map]; now constructor|]. split; [exact Hr|].
      split; [congruence|]. intros d. destruct (Hc d) as [Hsd Hfd].
      rewrite Hsd, Hfd, Hs, successes_of_incr_fail, failures_of_incr_fail.
      change (href r :: fs) with ([href r] ++ fs).
      rewrite count_host_app, count_host_one.
      destruct (PyStr.eqb d (netloc E (href r))); split; ring.
    + (* a record *)
      unfold record_success. cbn [fst snd].
      match goal with
      | |- context [fold_left _ rs (?q1, ?s1)] =>
          destruct (IH q1 s1) as (recs & fs & H)
      end.
      cbv zeta in H. destruct H as (Hq & Hf & Hi & Hr & Had & Hc).
      exists (rec :: recs), fs. cbv zeta.
      cbn [query_data failed_urls with_stats all_data domain_stats] in *.
      split; [rewrite Hq, <- app_assoc; reflexivity|]. split; [exact Hf|].
      split; [cbn [List.map]; rewrite Hu; now constructor|].
      split; [constructor; [split; assumption | exact Hr]|].
      split; [congruence|]. intros d. destruct (Hc d) as [Hsd Hfd].
      rewrite Hsd, Hfd, Hs, successes_of_incr_success,
        failures_of_incr_success.
      change (rec :: recs) with ([rec] ++ recs).
      rewrite count_domain_app, count_domain_one.
      destruct Hok as (Hdom & _). rewrite Hdom, Hu.
      destruct (PyStr.eqb d (netloc E (href r))); split; ring.
Qed.
End LoopSplit.

(** X10. The result loop, with the URL parsed before the [try] as in the
    source, goes through all results exactly when [urlparse] accepts every
    URL; each result then lands in exactly one of the two lists: the URLs of
    the records and the failed URLs, each in result order, interleave to the
    URLs of the results. On the first URL that [urlparse] rejects the loop is
    left with that exception; the two lists then account for the results
    before it, and that result and the later ones reach neither list. *)
Theorem every_parsed_result_is_record_or_failure :
  forall (E : Env) (parse : url_parser) (blacklist : list pystr)
         (query : pystr) (rs : list SearchResult) (st : state),
    match process_results_unguarded E parse blacklist query rs
                                    (empty_qstate, st) with
    | Continue qs' =>
        Forall (fun r => exists d, parse (href r) = Ret d) rs
        /\ interleaved (List.map r_url (query_data (fst qs')))
                       (failed_urls (fst qs')) (List.map href rs)
        /\ len (query_data (fst qs')) + len (failed_urls (fst qs')) = len rs
    | Abort e qs' =>
        exists (pre : list SearchResult) (r : SearchResult)
               (post : list SearchResult),
          rs = pre ++ r :: post
          /\ Forall (fun r => exists d, parse (href r) = Ret d) pre
          /\ parse (href r) = Raise e
          /\ interleaved (List.map r_url (query_data (fst qs')))
                         (failed_urls (fst qs')) (List.map href pre)
          /\ len (query_data (fst qs')) + len (failed_urls (fst qs'))
             = len pre
    end.
Proof.
  intros E parse blacklist query rs st.
  assert (Hsplit : forall l,
            let q' := fst (fold_left
                             (fun acc r =>
                                process_result (with_parser E parse)
                                               blacklist query r acc)
                             l (empty_qstate, st)) in
            interleaved (List.map r_url (query_data q')) (failed_urls q')
                        (List.map href l)
            /\ len (query_data q') + len (failed_urls q') = len l).
  { intros l. cbv zeta.
    destruct (process_results_split (with_parser E parse) blacklist query l
                empty_qstate st) as (recs & fs & H).
    cbv zeta in H. destruct H as (Hq & Hf & Hi & _).
    cbn [empty_qstate query_data failed_urls app] in Hq, Hf.
    rewrite Hq, Hf. split; [exact Hi|].
    apply interleaved_length in Hi.
    rewrite !length_map in Hi. unfold len. rewrite Hi.
    symmetry. apply Nat2Z.inj_add. }
  pose proof (process_results_unguarded_spec E parse blacklist query rs
                (empty_qstate, st)) as H.
  destruct (process_results_unguarded E parse blacklist query rs
              (empty_qstate, st)) as [qs'|e qs'].
  - destruct H as [Hall ->]. split; [exact Hall|]. apply Hsplit.
  - destruct H as (pre & r & post & Hrs & Hall & Hr & ->).
    exists pre, r, post. split; [exact Hrs|]. split; [exact Hall|].
    split; [exact Hr|]. apply Hsplit.
Qed.

(** The theorem on the three results of the broken world: the loop is left
    at the second result, after one record and no failure. *)
Lemma every_parsed_result_is_record_or_failure_witness :
  exists (e : exn) (qs' : qstate * state),
    process_results_unguarded broken_world strict_parser Scenarios.blacklist
                              (lit "broken") broken_results
                              (empty_qstate, initial_state)
    = Abort e qs'
    /\ len (query_data (fst qs')) + len (failed_urls (fst qs')) = 1.
Proof.
  pose proof (every_parsed_result_is_record_or_failure
                broken_world strict_parser Scenarios.blacklist (lit "broken")
                broken_results initial_state) as H.
  destruct (process_results_unguarded broken_world strict_parser
              Scenarios.blacklist (lit "broken") broken_results
              (empty_qstate, initial_state)) as [qs'|e qs'] eqn:Hloop.
  - exfalso. destruct H as (Hall & _).
    apply Forall_inv_tail, Forall_inv in Hall. destruct Hall as (d & Hd).
    vm_compute in Hd. discriminate.
  - exists e, qs'. split; [reflexivity|].
    destruct H as (pre & r & post & Hrs & Hall & Hr & _ & Hlen).
    rewrite Hlen. clear Hlen Hloop.
    destruct pre as [|r1 [|r2 pre]].
    + injection Hrs as <- _. vm_compute in Hr. discriminate.
    + reflexivity.
    + exfalso. injection Hrs as _ <- _.
      apply Forall_inv_tail, Forall_inv in Hall. destruct Hall as (d & Hd).
      vm_compute in Hd. discriminate.
Defined.

(** ** The files of one query *)

Section QueryFiles.
Variable E : Env.
Variable blacklist : list pystr.
Variable max_results : Z.

Lemma query_tail_Finished (p1 p2 : pystr) (q : qstate) (st st' : state) :
  query_tail E p1 p2 q st = Finished st' ->
  all_data st' = all_data st ++ query_data q
  /\ domain_stats st' = domain_stats st
  /\ trace st'
     = trace st
       ++ match query_data q with
          | [] => []
          | _ => [WriteQueryCsv p1 (query_data q)]
          end
       ++ match failed_urls q with
          | [] => []
          | _ => [WriteFailedLog p2 (failed_urls q)]
          end.
Proof.
  unfold query_tail.
  destruct (save_query_data_ends E p1 q st) as (Ha1 & Hs1 & Ht1).
  destruct (save_query_data E p1 q st) as [st1|e st1];
    cbn [and_then final_state] in *; [|discriminate].
  destruct (save_failed_urls_ends E p2 q st1) as (Ha2 & Hs2 & Ht2).
  destruct (save_failed_urls E p2 q st1) as [st2|e st2];
    cbn [and_then final_state] in *; [|discriminate].
  intros [= <-]. cbn [extend_all_data all_data domain_stats trace].
  split; [congruence|]. split; [congruence|].
  rewrite Ht2, Ht1, <- app_assoc. reflexivity.
Qed.

Lemma query_tail_all_data (p1 p2 : pystr) (q : qstate) (st : state) :
  all_data (final_state (query_tail E p1 p2 q st)) = all_data st
  \/ all_data (final_state (query_tail E p1 p2 q st))
     = all_data st ++ query_data q.
Proof.
  destruct (query_tail E p1 p2 q st) as [st'|e st'] eqn:H.
  - right. now apply query_tail_Finished in H.
  - left. revert H. unfold query_tail.
    destruct (save_query_data_ends E p1 q st) as (Ha1 & _).
    destruct (save_query_data E p1 q st) as [st1|e1 st1];
      cbn [and_then final_state] in *.
    + destruct (save_failed_urls_ends E p2 q st1) as (Ha2 & _).
      destruct (save_failed_urls E p2 q st1) as [st2|e2 st2];
        cbn [and_then final_state] in *; [discriminate|].
      intros [= _ <-]. congruence.
    + intros [= _ <-]. exact Ha1.
Qed.

(** The records a query adds to [all_data], however the query ends. *)
Lemma run_query_all_data (query : pystr) (st : state) :
  exists recs : list ScrapedRecord,
    all_data (final_state (run_query E blacklist max_results query st))
    = all_data st ++ recs
    /\ Forall (fun rec => r_topic rec = query /\ record_ok E blacklist rec)
              recs.
Proof.
  rewrite run_query_unfold. cbv zeta.
  destruct (search_links E (tick st) query max_results) as [[|r rs]|e];
    try (exists []; split; [cbn; now rewrite app_nil_r | constructor]).
  set (st0 := advance (emit (LogSearching query) st)).
  destruct (process_results_split E blacklist query (r :: rs)
              empty_qstate st0) as (recs & fs & H).
  cbv zeta in H. destruct H as (Hq & _ & _ & Hr & Ha & _).
  set (qs := fold_left _ (r :: rs) _) in *.
  cbn [empty_qstate query_data app] in Hq.
  match goal with
  | |- context [query_tail E ?p1 ?p2 ?q ?s] =>
      destruct (query_tail_all_data p1 p2 q s) as [H|H]
  end; rewrite H, Ha.
  - exists []. split; [now rewrite app_nil_r | constructor].
  - exists recs. rewrite Hq. split; [reflexivity | exact Hr].
Qed.
End QueryFiles.

(** X11. When the search of a query returns results and the query ends
    normally, its steps after the search are, in order: one logged step per
    result; then the write of the query's CSV file, made exactly when there
    is at least one record, with all the records of the query in result
    order; then the write of the failure log, made exactly when at least one
    URL failed, with the failed URLs in result order. No empty file is
    written, and the records are appended to [all_data]. *)
Theorem per_query_files :
  forall (E : Env) (blacklist : list pystr) (max_results : Z)
         (query : pystr) (rs : list SearchResult) (st st' : state),
    search_links E (tick st) query max_results = Ret rs ->
    rs <> [] ->
    run_query E blacklist max_results query st = Finished st' ->
    exists (recs : list ScrapedRecord) (fs : list pystr)
           (evs : list event),
      interleaved (List.map r_url recs) fs (List.map href rs)
      /\ Forall (fun ev => is_attempt ev = true) evs
      /\ attempted_hosts E evs = List.map (fun r => netloc E (href r)) rs
      /\ trace st'
         = trace st ++ [LogSearching query] ++ evs
           ++ match recs with
              | [] => []
              | _ => [WriteQueryCsv (output_path_of query) recs]
              end
           ++ match fs with
              | [] => []
              | _ => [WriteFailedLog (failed_log_path_of query) fs]
              end
      /\ all_data st' = all_data st ++ recs.
Proof.
  intros E blacklist max_results query rs st st' Hsearch Hrs.
  rewrite run_query_unfold. cbv zeta. rewrite Hsearch.
  destruct rs as [|r rs]; [congruence|]. clear Hrs.
  set (st0 := advance (emit (LogSearching query) st)).
  destruct (process_results_split E blacklist query (r :: rs)
              empty_qstate st0) as (recs & fs & H).
  destruct (process_results_trace E blacklist query (r :: rs)
              (empty_qstate, st0)) as (_ & evs & Htr & Hall & Hhosts).
  cbv zeta in H, Htr. destruct H as (Hq & Hf & Hi & _ & Ha & _).
  set (qs := fold_left _ (r :: rs) _) in *.
  cbn [empty_qstate query_data failed_urls app snd] in Hq, Hf, Htr.
  intros Htail. apply query_tail_Finished in Htail.
  destruct Htail as (Ha' & _ & Ht').
  exists recs, fs, evs. split; [exact Hi|]. split; [exact Hall|].
  split; [exact Hhosts|]. split.
  - rewrite Ht', Htr, Hq, Hf. unfold st0. cbn [advance emit trace].
    rewrite <- !app_assoc. reflexivity.
  - rewrite Ha', Ha, Hq. reflexivity.
Qed.

(** The theorem on the first query of the calm scenario: one record and
    two failed URLs out of three results. *)
Lemma per_query_files_witness :
  exists (recs : list ScrapedRecord) (fs : list pystr),
    interleaved (List.map r_url recs) fs
                [Scenarios.url_a; Scenarios.url_b; Scenarios.url_d].
Proof.
  assert (Hrun :
            run_query Scenarios.calm Scenarios.blacklist 10 (lit "test")
                      initial_state
            = Finished
                (final_state
                   (run_query Scenarios.calm Scenarios.blacklist 10
                              (lit "test") initial_state)))
    by (vm_compute; reflexivity).
  destruct (per_query_files
              Scenarios.calm Scenarios.blacklist 10 (lit "test")
              [ {| href := Scenarios.url_a; title := Some (lit "A") |};
                {| href := Scenarios.url_b; title := None |};
                {| href := Scenarios.url_d; title := Some (lit "D") |} ]
              initial_state _ eq_refl ltac:(discriminate) Hrun)
    as (recs & fs & evs & Hi & _).
  exists recs, fs. exact Hi.
Defined.

(** ** The records of a run *)

Section RunRecords.
Variable E : Env.
Variable blacklist : list pystr.
Variable max_results : Z.

Lemma run_queries_all_data (queries : list pystr) (st : state) :
  exists recs : list ScrapedRecord,
    all_data (final_state (run_queries E blacklist max_results queries st))
    = all_data st ++ recs
    /\ Forall (fun rec => In (r_topic rec) queries
                          /\ record_ok E blacklist rec) recs.
Proof.
  revert st. induction queries as [|q qs IH]; intros st.
  - exists []. split; [cbn; now rewrite app_nil_r | constructor].
  - cbn [run_queries]. rewrite final_state_and_then.
    destruct (run_query_all_data E blacklist max_results q st)
      as (recs1 & Ha1 & Hr1).
    assert (Hr1' : Forall (fun rec => In (r_topic rec) (q :: qs)
                                      /\ record_ok E blacklist rec) recs1).
    { eapply Forall_impl; [|exact Hr1].
      intros rec [Ht Hok]. split; [left; now symmetry | exact Hok]. }
    destruct (run_query E blacklist max_results q st) as [st1|e st1];
      cbn [final_state] in Ha1.
    + destruct (IH st1) as (recs2 & Ha2 & Hr2).
      exists (recs1 ++ recs2). rewrite Ha2, Ha1, <- app_assoc.
      split; [reflexivity|]. apply Forall_app. split; [exact Hr1'|].
      eapply Forall_impl; [|exact Hr2].
      intros rec [Ht Hok]. split; [now right | exact Hok].
    + exists recs1. split; assumption.
Qed.

Lemma main_all_data (queries : list pystr) :
  all_data (final_state (main E blacklist max_results queries))
  = all_data
      (final_state
         (run_queries E blacklist max_results queries initial_state)).
Proof.
  unfold main. rewrite final_state_and_then.
  destruct (run_queries E blacklist max_results queries initial_state)
    as [st1|e st1]; cbn [final_state]; [|reflexivity].
  rewrite final_state_and_then.
  destruct (save_merged_ends E st1) as (evs & (Ha & _) & _).
  destruct (save_merged E st1) as [st2|e st2]; cbn [final_state] in *;
    [|exact Ha].
  destruct (save_domain_summary_ends E st2) as (Ha' & _). congruence.
Qed.
End RunRecords.

(** X12. However a run ends, every record it has collected carries a
    query of the command line as its topic, the host of its URL as its
    domain, a host that is not blacklisted, a content that is not empty and
    has at least the configured 50 words, the snippet made from that
    content, of at most 303 characters, and an empty keyword list. *)
Theorem every_record_is_well_formed :
  forall (E : Env) (blacklist : list pystr) (max_results : Z)
         (queries : list pystr) (rec : ScrapedRecord),
    In rec (all_data (final_state (main E blacklist max_results queries))) ->
    In (r_topic rec) queries
    /\ r_domain rec = netloc E (r_url rec)
    /\ ~ In (r_domain rec) blacklist
    /\ r_content rec <> []
    /\ 50 <= word_count (r_content rec)
    /\ r_snippet rec = make_snippet (r_content rec)
    /\ (List.length (r_snippet rec) <= 303)%nat
    /\ r_keywords rec = [].
Proof.
  intros E blacklist max_results queries rec Hin.
  rewrite main_all_data in Hin.
  destruct (run_queries_all_data E blacklist max_results queries
              initial_state) as (recs & Ha & Hr).
  rewrite Ha in Hin. cbn [initial_state all_data app] in Hin.
  rewrite Forall_forall in Hr.
  destruct (Hr rec Hin) as (Ht & Hd & Hb & Hc & Hw & Hs & Hk).
  repeat split; try assumption.
  rewrite Hs. apply make_snippet_length.
Qed.

(** The theorem on the record of the first page in the calm scenario. *)
Lemma every_record_is_well_formed_witness :
  exists rec : ScrapedRecord,
    r_url rec = Scenarios.url_a
    /\ 50 <= word_count (r_content rec)
    /\ r_keywords rec = [].
Proof.
  assert (Hin :
            exists rec,
              r_url rec = Scenarios.url_a
              /\ In rec (all_data
                           (final_state
                              (main Scenarios.calm Scenarios.blacklist 10
                                    [lit "test"]))))
    by (eexists; split; [|vm_compute; left; reflexivity]; reflexivity).
  destruct Hin as (rec & Hu & Hin).
  destruct (every_record_is_well_formed
              Scenarios.calm Scenarios.blacklist 10 [lit "test"] rec Hin)
    as (_ & _ & _ & _ & Hw & _ & _ & Hk).
  exists rec. repeat split; assumption.
Defined.

(** ** Counters and outputs *)

Lemma accounted_same (E : Env) (st st' : state) :
  all_data st' = all_data st ->
  domain_stats st' = domain_stats st ->
  urls_sent_to_failure_logs (trace st') = urls_sent_to_failure_logs (trace st) ->
  accounted E st -> accounted E st'.
Proof. unfold accounted. intros -> -> ->. auto. Qed.

Lemma urls_sent_to_failure_logs_log (p : pystr) (fs : list pystr) :
  urls_sent_to_failure_logs
    match fs with
    | [] => []
    | _ => [WriteFailedLog p fs]
    end
  = fs.
Proof.
  destruct fs as [|u fs]; [reflexivity|].
  cbn [urls_sent_to_failure_logs flat_map]. apply app_nil_r.
Qed.

Section Accounting.
Variable E : Env.
Variable blacklist : list pystr.
Variable max_results : Z.

Lemma run_query_accounted (query : pystr) (st st' : state) :
  run_query E blacklist max_results query st = Finished st' ->
  accounted E st -> accounted E st'.
Proof.
  intros Hrun Hacc.
  destruct (search_links E (tick st) query max_results) as [rs|e] eqn:Hs.
  - destruct rs as [|r rs].
    + rewrite (run_query_abandoned E blacklist max_results query st
                 (or_intror Hs)) in Hrun.
      injection Hrun as <-.
      apply (accounted_same E st); try reflexivity; [|exact Hacc].
      cbn [trace]. rewrite urls_sent_to_failure_logs_app. apply app_nil_r.
    + revert Hrun. rewrite run_query_unfold. cbv zeta. rewrite Hs.
      set (st0 := advance (emit (LogSearching query) st)).
      destruct (process_results_split E blacklist query (r :: rs)
                  empty_qstate st0) as (recs & fs & H).
      destruct (process_results_trace E blacklist query (r :: rs)
                  (empty_qstate, st0)) as (_ & evs & Htr & Hall & _).
      cbv zeta in H, Htr. destruct H as (Hq & Hf & _ & _ & Ha & Hc).
      set (qs := fold_left _ (r :: rs) _) in *.
      cbn [empty_qstate query_data failed_urls app snd] in Hq, Hf, Htr.
      intros Htail. apply query_tail_Finished in Htail.
      destruct Htail as (Ha' & Hs' & Ht').
      intros d. destruct (Hc d) as [Hsd Hfd]. destruct (Hacc d) as [Had Hbd].
      rewrite Hs', Ha', Ht', Ha, Hq, Hf, Hsd, Hfd, Htr.
      unfold st0. cbn [advance emit trace all_data domain_stats].
      rewrite count_domain_app, !urls_sent_to_failure_logs_app,
        urls_sent_to_failure_logs_log, !count_host_app.
      rewrite (urls_sent_to_failure_logs_none evs).
      2: { eapply Forall_impl; [|exact Hall]. intros ev. now destruct ev. }
      rewrite (urls_sent_to_failure_logs_none
                 match recs with
                 | [] => []
                 | _ :: _ => [WriteQueryCsv _ recs]
                 end) by (destruct recs; repeat constructor).
      cbn [urls_sent_to_failure_logs flat_map app count_host List.filter len
           List.length].
      change (count_host E d []) with 0.
      rewrite Had, Hbd. split; ring.
  - rewrite (run_query_abandoned E blacklist max_results query st
               (or_introl (ex_intro _ e Hs))) in Hrun.
    injection Hrun as <-.
    apply (accounted_same E st); try reflexivity; [|exact Hacc].
    cbn [trace]. rewrite urls_sent_to_failure_logs_app. apply app_nil_r.
Qed.

Lemma run_queries_accounted (queries : list pystr) (st st' : state) :
  run_queries E blacklist max_results queries st = Finished st' ->
  accounted E st -> accounted E st'.
Proof.
  revert st. induction queries as [|q qs IH]; intros st; cbn [run_queries].
  - now intros [= <-].
  - destruct (run_query E blacklist max_results q st) as [st1|e st1] eqn:H1;
      cbn [and_then]; [|discriminate].
    intros H Hacc. apply (IH st1 H).
    now apply (run_query_accounted q st st1).
Qed.
End Accounting.

Lemma main_accounted (E : Env) (blacklist : list pystr) (max_results : Z)
    (queries : list pystr) (st : state) :
  main E blacklist max_results queries = Finished st -> accounted E st.
Proof.
  intros Hmain.
  destruct (main_inversion E blacklist max_results queries st Hmain)
    as (st1 & st2 & H1 & H2 & H3).
  assert (Hacc1 : accounted E st1).
  { apply (run_queries_accounted E blacklist max_results queries
             initial_state st1 H1).
    intros d. split; reflexivity. }
  destruct (save_merged_ends E st1) as (evs & (Ha2 & Hs2 & Ht2) & Hall).
  rewrite H2 in Ha2, Hs2, Ht2. cbn [final_state] in Ha2, Hs2, Ht2.
  destruct (save_domain_summary_ends E st2) as (Ha3 & Hs3 & Ht3).
  rewrite H3 in Ha3, Hs3, Ht3. cbn [final_state] in Ha3, Hs3, Ht3.
  apply (accounted_same E st1); try congruence; [|exact Hacc1].
  rewrite Ht3, Ht2, !urls_sent_to_failure_logs_app.
  rewrite (urls_sent_to_failure_logs_none evs).
  - cbn. now rewrite !app_nil_r.
  - eapply Forall_impl; [|exact Hall]. intros ev [H|H]; now destruct ev.
Qed.

(** X13. When [main] ends normally, the counters agree with what the run
    hands to its writers: for every domain, its successes in the domain
    statistics are the number of its records in the merged data, and its
    failures are the number of URLs of that host among those handed to the
    failure-log writes, whether or not those writes succeed. *)
Theorem counters_agree_with_outputs :
  forall (E : Env) (blacklist : list pystr) (max_results : Z)
         (queries : list pystr) (st : state),
    main E blacklist max_results queries = Finished st ->
    forall d : pystr,
      successes_of d (domain_stats st) = count_domain d (all_data st)
      /\ failures_of d (domain_stats st)
         = count_host E d (urls_sent_to_failure_logs (trace st)).
Proof.
  intros E blacklist max_results queries st Hmain.
  exact (main_accounted E blacklist max_results queries st Hmain).
Qed.

(** The theorem on the calm scenario: [example.com] has one record and
    one URL handed to a failure-log write. *)
Lemma counters_agree_with_outputs_witness :
  let st := final_state
              (main Scenarios.calm Scenarios.blacklist 10
                    [lit "test"; lit "other"]) in
  successes_of (lit "example.com") (domain_stats st)
  = count_domain (lit "example.com") (all_data st)
  /\ failures_of (lit "example.com") (domain_stats st)
     = count_host Scenarios.calm (lit "example.com")
                  (urls_sent_to_failure_logs (trace st)).
Proof.
  cbv zeta.
  assert (Hmain :
            main Scenarios.calm Scenarios.blacklist 10
                 [lit "test"; lit "other"]
            = Finished
                (final_state
                   (main Scenarios.calm Scenarios.blacklist 10
                         [lit "test"; lit "other"])))
    by (vm_compute; reflexivity).
  exact (counters_agree_with_outputs
           Scenarios.calm Scenarios.blacklist 10 [lit "test"; lit "other"]
           _ Hmain (lit "example.com")).
Defined.

(** ** The merged files *)

Section Merged.
Variable E : Env.
Variable blacklist : list pystr.
Variable max_results : Z.

Lemma run_queries_trace (queries : list pystr) (st : state) :
  exists evs : list event,
    trace (final_state (run_queries E blacklist max_results queries st))
    = trace st ++ evs
    /\ Forall (fun ev => is_merged_csv_write ev = false
                         /\ is_merged_json_write ev = false) evs.
Proof.
  revert st. induction queries as [|q qs IH]; intros st.
  - exists []. split; [cbn; now rewrite app_nil_r | constructor].
  - cbn [run_queries]. rewrite final_state_and_then.
    destruct (run_query_trace E blacklist max_results q st)
      as (evs1 & Ht1 & Hall1).
    assert (Hall1' : Forall (fun ev => is_merged_csv_write ev = false
                                       /\ is_merged_json_write ev = false)
                            (LogSearching q :: evs1)).
    { constructor; [split; reflexivity|].
      eapply Forall_impl; [|exact Hall1].
      intros ev [H|H]; destruct ev; try discriminate; split; reflexivity. }
    destruct (run_query E blacklist max_results q st) as [st1|e st1];
      cbn [final_state] in Ht1.
    + destruct (IH st1) as (evs2 & Ht2 & Hall2).
      exists ((LogSearching q :: evs1) ++ evs2).
      rewrite Ht2, Ht1, <- app_assoc. split; [reflexivity|].
      now apply Forall_app.
    + eexists. split; [exact Ht1 | exact Hall1'].
Qed.

(** The steps of [save_merged]: nothing without records; otherwise the
    CSV write and, unless it raised, the JSON write, both of [all_data]. *)
Lemma save_merged_events (st : state) :
  exists evs : list event,
    ends_with st evs (save_merged E st)
    /\ Forall (fun ev =>
                 all_data st <> []
                 /\ (ev = WriteMergedCsv
                            (lit "output/_all_queries_merged.csv")
                            (all_data st)
                     \/ ev = WriteMergedJson
                               (lit "output/_all_queries_merged.json")
                               (all_data st))) evs.
Proof.
  unfold ends_with, save_merged.
  destruct (all_data st) as [|rec rows] eqn:Ha.
  - exists []. cbn [final_state]. rewrite app_nil_r, Ha. auto.
  - cbv zeta. cbn [emit tick advance all_data]. rewrite !Ha.
    match goal with
    | |- context [to_csv E ?t ?p ?r] => destruct (to_csv E t p r) as [u|e]
    end.
    + eexists [_; _]. rewrite final_state_except_ioerror.
      cbn [advance emit all_data domain_stats trace].
      rewrite <- app_assoc, Ha.
      repeat split; try reflexivity.
      repeat constructor; (discriminate || (now left) || (now right)).
    + eexists [_]. rewrite final_state_except_ioerror.
      cbn [advance emit all_data domain_stats trace]. rewrite Ha.
      repeat split; try reflexivity.
      repeat constructor; (discriminate || (now left)).
Qed.
End Merged.

(** X14. However a run ends, a merged file is only written with records:
    every write of the merged CSV or of the merged JSON file carries exactly
    the records collected by the run, which are then at least one. A run
    that collected nothing writes neither merged file. *)
Theorem merged_files_hold_all_records :
  forall (E : Env) (blacklist : list pystr) (max_results : Z)
         (queries : list pystr),
    let st := final_state (main E blacklist max_results queries) in
    (forall (p : pystr) (rows : list ScrapedRecord),
       In (WriteMergedCsv p rows) (trace st)
       \/ In (WriteMergedJson p rows) (trace st) ->
       rows = all_data st /\ rows <> [])
    /\ (all_data st = [] ->
        existsb is_merged_csv_write (trace st) = false
        /\ existsb is_merged_json_write (trace st) = false).
Proof.
  intros E blacklist max_results queries. cbv zeta.
  assert (Hmerged :
            forall ev,
              In ev (trace (final_state
                              (main E blacklist max_results queries))) ->
              is_merged_csv_write ev = true
              \/ is_merged_json_write ev = true ->
              all_data (final_state (main E blacklist max_results queries))
              <> []
              /\ forall p rows,
                   ev = WriteMergedCsv p rows \/ ev = WriteMergedJson p rows ->
                   rows = all_data
                            (final_state
                               (main E blacklist max_results queries))).
  { rewrite main_all_data. unfold main. rewrite final_state_and_then.
    destruct (run_queries_trace E blacklist max_results queries
                initial_state) as (evs1 & Ht1 & Hall1).
    cbn [initial_state trace app] in Ht1.
    destruct (run_queries E blacklist max_results queries initial_state)
      as [st1|e st1]; cbn [final_state] in *.
    - rewrite final_state_and_then.
      destruct (save_merged_events E st1) as (evs2 & (_ & _ & Ht2) & Hall2).
      assert (Hin2 : forall ev,
                In ev (evs1 ++ evs2) ->
                is_merged_csv_write ev = true
                \/ is_merged_json_write ev = true ->
                all_data st1 <> []
                /\ forall p rows,
                     ev = WriteMergedCsv p rows
                     \/ ev = WriteMergedJson p rows ->
                     rows = all_data st1).
      { intros ev Hin Hm. apply in_app_or in Hin as [Hin|Hin].
        - rewrite Forall_forall in Hall1.
          destruct (Hall1 ev Hin) as [Hc Hj].
          destruct Hm; congruence.
        - rewrite Forall_forall in Hall2.
          destruct (Hall2 ev Hin) as [Hne Hev]. split; [exact Hne|].
          intros p rows Hp.
          destruct Hev as [->| ->], Hp as [Hp|Hp]; congruence. }
      destruct (save_merged E st1) as [st2|e st2]; cbn [final_state] in *.
      + destruct (save_domain_summary_ends E st2) as (_ & _ & Ht3).
        rewrite Ht3, Ht2, Ht1. intros ev Hin Hm.
        apply in_app_or in Hin as [Hin|[<-|[]]]; [now apply Hin2|].
        destruct Hm; discriminate.
      + rewrite Ht2, Ht1. exact Hin2.
    - rewrite Ht1. intros ev Hin Hm.
      rewrite Forall_forall in Hall1. destruct (Hall1 ev Hin) as [Hc Hj].
      destruct Hm; congruence. }
  split.
  - intros p rows [Hin|Hin].
    + destruct (Hmerged _ Hin (or_introl eq_refl)) as [Hne Hrows].
      rewrite (Hrows p rows (or_introl eq_refl)). auto.
    + destruct (Hmerged _ Hin (or_intror eq_refl)) as [Hne Hrows].
      rewrite (Hrows p rows (or_intror eq_refl)). auto.
  - intros Hnil. split.
    + destruct (existsb is_merged_csv_write _) eqn:Hex; [|reflexivity].
      apply existsb_exists in Hex as (ev & Hin & Hev).
      destruct (Hmerged ev Hin (or_introl Hev)) as [Hne _]. contradiction.
    + destruct (existsb is_merged_json_write _) eqn:Hex; [|reflexivity].
      apply existsb_exists in Hex as (ev & Hin & Hev).
      destruct (Hmerged ev Hin (or_intror Hev)) as [Hne _]. contradiction.
Qed.

(** The theorem on a run of the calm scenario that collects one record:
    the merged CSV write carries it. *)
Lemma merged_files_hold_all_records_witness :
  exists (p : pystr) (rows : list ScrapedRecord),
    In (WriteMergedCsv p rows)
       (trace (final_state
                 (main Scenarios.calm Scenarios.blacklist 10 [lit "test"])))
    /\ rows
       = all_data
           (final_state
              (main Scenarios.calm Scenarios.blacklist 10 [lit "test"]))
    /\ rows <> [].
Proof.
  assert (Hin :
            exists p rows,
              In (WriteMergedCsv p rows)
                 (trace (final_state
                           (main Scenarios.calm Scenarios.blacklist 10
                                 [lit "test"])))).
  { eexists. eexists. vm_compute.
    do 6 right. left. reflexivity. }
  destruct Hin as (p & rows & Hin).
  destruct (proj1 (merged_files_hold_all_records
                     Scenarios.calm Scenarios.blacklist 10 [lit "test"])
                  p rows (or_introl Hin)) as [Hrows Hne].
  exists p, rows. split; [exact Hin|]. split; assumption.
Defined.

(** ** Blacklisted domains in the statistics *)

Lemma count_domain_blacklisted (E : Env) (blacklist : list pystr)
    (d : pystr) (recs : list ScrapedRecord) :
  In d blacklist ->
  Forall (fun rec => record_ok E blacklist rec) recs ->
  count_domain d recs = 0.
Proof.
  intros Hd. induction 1 as [|rec recs Hok _ IH]; [reflexivity|].
  change (rec :: recs) with ([rec] ++ recs).
  rewrite count_domain_app, count_domain_one, IH.
  destruct (PyStr.eqb d (r_domain rec)) eqn:He; [|reflexivity].
  apply pystr_eqb_eq in He. subst d.
  destruct Hok as (_ & Hb & _). contradiction.
Qed.

Section Blacklisted.
Variable E : Env.
Variable blacklist : list pystr.
Variable max_results : Z.

Lemma run_query_no_success (query d : pystr) (st : state) :
  In d blacklist ->
  successes_of d (domain_stats st) = 0 ->
  successes_of d
    (domain_stats
       (final_state (run_query E blacklist max_results query st))) = 0.
Proof.
  intros Hd H0. rewrite run_query_unfold. cbv zeta.
  destruct (search_links E (tick st) query max_results) as [[|r rs]|e];
    try exact H0.
  set (st0 := advance (emit (LogSearching query) st)).
  destruct (process_results_split E blacklist query (r :: rs)
              empty_qstate st0) as (recs & fs & H).
  cbv zeta in H. destruct H as (_ & _ & _ & Hr & _ & Hc).
  set (qs := fold_left _ (r :: rs) _) in *.
  match goal with
  | |- context [query_tail E ?p1 ?p2 ?q ?s] =>
      destruct (query_tail_ends E p1 p2 q s) as (Hs & _)
  end.
  rewrite Hs. destruct (Hc d) as [Hsd _]. rewrite Hsd.
  rewrite (count_domain_blacklisted E blacklist d recs Hd).
  - unfold st0. cbn [advance emit domain_stats]. lia.
  - eapply Forall_impl; [|exact Hr]. intros rec [_ Hok]. exact Hok.
Qed.

Lemma run_queries_no_success (queries : list pystr) (d : pystr)
    (st : state) :
  In d blacklist ->
  successes_of d (domain_stats st) = 0 ->
  successes_of d
    (domain_stats
       (final_state (run_queries E blacklist max_results queries st))) = 0.
Proof.
  intros Hd. revert st. induction queries as [|q qs IH]; intros st H0;
    [exact H0|].
  cbn [run_queries]. rewrite final_state_and_then.
  pose proof (run_query_no_success q d st Hd H0) as H1.
  destruct (run_query E blacklist max_results q st) as [st1|e st1];
    cbn [final_state] in H1; auto.
Qed.

Lemma main_domain_stats (queries : list pystr) :
  domain_stats (final_state (main E blacklist max_results queries))
  = domain_stats
      (final_state
         (run_queries E blacklist max_results queries initial_state)).
Proof.
  unfold main. rewrite final_state_and_then.
  destruct (run_queries E blacklist max_results queries initial_state)
    as [st1|e st1]; cbn [final_state]; [|reflexivity].
  rewrite final_state_and_then.
  destruct (save_merged_ends E st1) as (evs & (_ & Hs & _) & _).
  destruct (save_merged E st1) as [st2|e st2]; cbn [final_state] in *;
    [|exact Hs].
  destruct (save_domain_summary_ends E st2) as (_ & Hs' & _). congruence.
Qed.
End Blacklisted.

(** X15. However a run ends, a blacklisted domain has no success: its
    success counter is zero and its failure counter is the number of its
    URLs that the searches returned and the loop handled. *)
Theorem blacklisted_domain_never_succeeds :
  forall (E : Env) (blacklist : list pystr) (max_results : Z)
         (queries : list pystr) (d : pystr),
    In d blacklist ->
    let st := final_state (main E blacklist max_results queries) in
    successes_of d (domain_stats st) = 0
    /\ failures_of d (domain_stats st) = attempts E d (trace st).
Proof.
  intros E blacklist max_results queries d Hd. cbv zeta.
  assert (H0 : successes_of d
                 (domain_stats
                    (final_state (main E blacklist max_results queries)))
               = 0).
  { rewrite main_domain_stats.
    now apply run_queries_no_success. }
  split; [exact H0|].
  destruct (main_well_formed E blacklist max_results queries)
    as (_ & Hc & _).
  specialize (Hc d). lia.
Qed.

(** The theorem on the blacklisted host of the calm scenario. *)
Lemma blacklisted_domain_never_succeeds_witness :
  let st := final_state
              (main Scenarios.calm Scenarios.blacklist 10 [lit "test"]) in
  successes_of (lit "blocked.org") (domain_stats st) = 0
  /\ failures_of (lit "blocked.org") (domain_stats st)
     = attempts Scenarios.calm (lit "blocked.org") (trace st).
Proof.
  apply (blacklisted_domain_never_succeeds
           Scenarios.calm Scenarios.blacklist 10 [lit "test"]
           (lit "blocked.org")).
  left. reflexivity.
Defined.

(** ** The totals of the summary *)

Lemma sum_over_cons (A : Type) (f : A -> Z) (a : A) (l : list A) :
  sum_over f (a :: l) = f a + sum_over f l.
Proof. reflexivity. Qed.

Lemma sum_over_perm (A : Type) (f : A -> Z) (l l' : list A) :
  Permutation l l' -> sum_over f l = sum_over f l'.
Proof.
  induction 1; rewrite ?sum_over_cons; [reflexivity | | | congruence].
  - now rewrite IHPermutation.
  - ring.
Qed.

Lemma sum_over_map (A B : Type) (g : A -> B) (f : B -> Z) (l : list A) :
  sum_over f (List.map g l) = sum_over (fun a => f (g a)) l.
Proof.
  induction l as [|a l IH]; [reflexivity|].
  cbn [List.map]. rewrite !sum_over_cons. now rewrite IH.
Qed.

Lemma sum_over_ext_in (A : Type) (f g : A -> Z) (l : list A) :
  (forall a, In a l -> f a = g a) -> sum_over f l = sum_over g l.
Proof.
  induction l as [|a l IH]; intros H; [reflexivity|].
  rewrite !sum_over_cons.
  rewrite (H a (or_introl eq_refl)), IH; [reflexivity|].
  intros b Hb. apply H. now right.
Qed.

Lemma sum_over_add (A : Type) (f g : A -> Z) (l : list A) :
  sum_over (fun a => f a + g a) l = sum_over f l + sum_over g l.
Proof.
  induction l as [|a l IH]; [reflexivity|].
  rewrite !sum_over_cons, IH. ring.
Qed.

Lemma sum_over_zero (A : Type) (l : list A) : sum_over (fun _ => 0) l = 0.
Proof.
  induction l as [|a l IH]; [reflexivity|].
  now rewrite sum_over_cons, IH.
Qed.

(** Over a list without repetition, the indicator of one of its elements
    sums to one. *)
Lemma sum_over_indicator (a : pystr) (ks : list pystr) :
  NoDup ks ->
  sum_over (fun k => if PyStr.eqb k a then 1 else 0) ks
  = if mem a ks then 1 else 0.
Proof.
  induction 1 as [|k ks Hk _ IH]; [reflexivity|].
  rewrite sum_over_cons, IH. unfold mem. cbn [existsb]. fold (mem a ks).
  rewrite (pystr_eqb_sym a k).
  destruct (PyStr.eqb k a) eqn:He; [|reflexivity].
  apply pystr_eqb_eq in He. subst k.
  destruct (mem a ks) eqn:Hm; [|reflexivity].
  apply mem_In in Hm. contradiction.
Qed.

(** Counting the elements of [l] key by key counts each of them once,
    when every key that occurs is among [ks]. *)
Lemma sum_over_counts (A : Type) (key : A -> pystr) (ks : list pystr)
    (l : list A) :
  NoDup ks ->
  (forall a, In a l -> In (key a) ks) ->
  sum_over (fun k => len (List.filter (fun a => PyStr.eqb (key a) k) l)) ks
  = len l.
Proof.
  intros Hnd. induction l as [|a l IH]; intros Hin.
  - cbn [List.filter]. apply sum_over_zero.
  - rewrite (sum_over_ext_in _ _
               (fun k => (if PyStr.eqb k (key a) then 1 else 0)
                         + len (List.filter
                                  (fun a => PyStr.eqb (key a) k) l))).
    + rewrite sum_over_add, sum_over_indicator, IH by auto with datatypes.
      assert (Hm : mem (key a) ks = true)
        by (apply mem_In, Hin; now left).
      rewrite Hm. unfold len. cbn [List.length]. lia.
    + intros k _. cbn [List.filter]. rewrite (pystr_eqb_sym (key a) k).
      destruct (PyStr.eqb k (key a)); unfold len; cbn [List.length]; lia.
Qed.

Lemma column_sum_rows (column : SummaryRow -> Z) (m : stats_dict) :
  column_sum column (domain_summary_rows m)
  = sum_over (fun kv => column {| row_domain := fst kv;
                                  row_successes := success (snd kv);
                                  row_failures := fail (snd kv) |}) m.
Proof.
  unfold column_sum, domain_summary_rows. rewrite sum_over_map.
  apply sum_over_perm, sorted_perm.
Qed.

Lemma sum_over_entries (m : stats_dict) (f : DomainStat -> Z) :
  NoDup (keys m) ->
  sum_over (fun kv => f (snd kv)) m
  = sum_over (fun k => match lookup k m with Some s => f s | None => 0 end)
             (keys m).
Proof.
  intros Hnd. unfold keys. rewrite sum_over_map.
  apply sum_over_ext_in. intros [k s] Hin. cbn [fst snd].
  now rewrite (lookup_In m k s Hnd Hin).
Qed.

Lemma attempted_hosts_counts (E : Env) (d : pystr) (tr : list event) :
  attempts E d tr
  = len (List.filter (fun h => PyStr.eqb h d) (attempted_hosts E tr)).
Proof.
  unfold attempts, len. f_equal.
  induction (attempted_hosts E tr) as [|h l IH]; [reflexivity|].
  cbn [count_occ List.filter].
  destruct (list_eq_dec N.eq_dec h d) as [->|Hne].
  - rewrite pystr_eqb_refl. cbn [List.length]. now rewrite IH.
  - apply pystr_eqb_neq in Hne. now rewrite Hne.
Qed.

(** X16. When [main] ends normally, the rows of the domain summary add
    up to what the run hands to its other writers: the successes to the
    number of records in the merged data, the failures to the number of
    URLs handed to the failure-log writes, whether or not those writes
    succeed, and both together to the number of URLs the result loops
    handled. *)
Theorem summary_totals :
  forall (E : Env) (blacklist : list pystr) (max_results : Z)
         (queries : list pystr) (st : state),
    main E blacklist max_results queries = Finished st ->
    exists (tr : list event) (rows : list SummaryRow),
      trace st
      = tr ++ [WriteDomainSummary (lit "output/_domain_stats_summary.csv")
                                  rows]
      /\ column_sum row_successes rows = len (all_data st)
      /\ column_sum row_failures rows = len (urls_sent_to_failure_logs (trace st))
      /\ column_sum row_successes rows + column_sum row_failures rows
         = len (attempted_hosts E (trace st)).
Proof.
  intros E blacklist max_results queries st Hmain.
  pose proof (main_well_formed E blacklist max_results queries) as Hwf.
  rewrite Hmain in Hwf. cbn [final_state] in Hwf.
  pose proof (main_accounted E blacklist max_results queries st Hmain)
    as Hacc.
  destruct (main_inversion E blacklist max_results queries st Hmain)
    as (st1 & st2 & _ & _ & Hsum).
  destruct (save_domain_summary_ends E st2) as (_ & Hs & Ht).
  rewrite Hsum in Hs, Ht. cbn [final_state] in Hs, Ht. rewrite <- Hs in Ht.
  pose proof (well_formed_keys_NoDup E st Hwf) as Hnd.
  exists (trace st2), (domain_summary_rows (domain_stats st)).
  split; [exact Ht|].
  assert (Hkeys : forall d, ~ In d (keys (domain_stats st)) ->
                            successes_of d (domain_stats st) = 0
                            /\ failures_of d (domain_stats st) = 0).
  { intros d Hd. apply lookup_None_keys in Hd.
    unfold successes_of, failures_of. now rewrite Hd. }
  assert (Hsucc : column_sum row_successes
                    (domain_summary_rows (domain_stats st))
                  = len (all_data st)).
  { rewrite column_sum_rows. cbn [row_successes].
    rewrite (sum_over_entries (domain_stats st) success Hnd).
    rewrite (sum_over_ext_in _ _
               (fun k => len (List.filter
                                (fun rec => PyStr.eqb (r_domain rec) k)
                                (all_data st)))).
    - apply sum_over_counts; [exact Hnd|].
      intros rec Hin.
      destruct (in_dec (list_eq_dec N.eq_dec) (r_domain rec)
                       (keys (domain_stats st))) as [|Hout];
        [assumption|].
      exfalso. destruct (Hkeys _ Hout) as [H0 _].
      destruct (Hacc (r_domain rec)) as [Hs0 _]. rewrite H0 in Hs0.
      unfold count_domain, len in Hs0.
      assert (Hf : In rec (List.filter
                             (fun r => PyStr.eqb (r_domain r) (r_domain rec))
                             (all_data st)))
        by (apply filter_In; split; [exact Hin | apply pystr_eqb_refl]).
      destruct (List.filter _ (all_data st)); [contradiction|].
      cbn [List.length] in Hs0. lia.
    - intros k _. destruct (Hacc k) as [Hs0 _].
      unfold successes_of in Hs0. exact Hs0. }
  assert (Hfail : column_sum row_failures
                    (domain_summary_rows (domain_stats st))
                  = len (urls_sent_to_failure_logs (trace st))).
  { rewrite column_sum_rows. cbn [row_failures].
    rewrite (sum_over_entries (domain_stats st) fail Hnd).
    rewrite (sum_over_ext_in _ _
               (fun k => len (List.filter
                                (fun url => PyStr.eqb (netloc E url) k)
                                (urls_sent_to_failure_logs (trace st))))).
    - apply sum_over_counts; [exact Hnd|].
      intros url Hin.
      destruct (in_dec (list_eq_dec N.eq_dec) (netloc E url)
                       (keys (domain_stats st))) as [|Hout];
        [assumption|].
      exfalso. destruct (Hkeys _ Hout) as [_ H0].
      destruct (Hacc (netloc E url)) as [_ Hf0]. rewrite H0 in Hf0.
      unfold count_host, len in Hf0.
      assert (Hf : In url (List.filter
                             (fun u => PyStr.eqb (netloc E u) (netloc E url))
                             (urls_sent_to_failure_logs (trace st))))
        by (apply filter_In; split; [exact Hin | apply pystr_eqb_refl]).
      destruct (List.filter _ (urls_sent_to_failure_logs (trace st)));
        [contradiction|].
      cbn [List.length] in Hf0. lia.
    - intros k _. destruct (Hacc k) as [_ Hf0].
      unfold failures_of in Hf0. exact Hf0. }
  split; [exact Hsucc|]. split; [exact Hfail|].
  rewrite !column_sum_rows. cbn [row_successes row_failures].
  rewrite <- sum_over_add.
  rewrite (sum_over_entries (domain_stats st)
             (fun s => success s + fail s) Hnd).
  destruct Hwf as (Hk & Hc & _).
  rewrite (sum_over_ext_in _ _
             (fun k => len (List.filter (fun h => PyStr.eqb h k)
                                        (attempted_hosts E (trace st))))).
  - apply sum_over_counts; [exact Hnd|].
    intros h Hin. rewrite Hk. now apply first_seen_In.
  - intros k _. rewrite <- attempted_hosts_counts, <- (Hc k).
    unfold successes_of, failures_of.
    destruct (lookup k (domain_stats st)); reflexivity.
Qed.

(** The theorem on the calm scenario: two records, two failed URLs, four
    URLs handled. *)
Lemma summary_totals_witness :
  exists (tr : list event) (rows : list SummaryRow),
    trace (final_state
             (main Scenarios.calm Scenarios.blacklist 10
                   [lit "test"; lit "other"]))
    = tr ++ [WriteDomainSummary (lit "output/_domain_stats_summary.csv") rows]
    /\ column_sum row_successes rows = 2
    /\ column_sum row_failures rows = 2.
Proof.
  assert (Hmain :
            main Scenarios.calm Scenarios.blacklist 10
                 [lit "test"; lit "other"]
            = Finished
                (final_state
                   (main Scenarios.calm Scenarios.blacklist 10
                         [lit "test"; lit "other"])))
    by (vm_compute; reflexivity).
  destruct (summary_totals
              Scenarios.calm Scenarios.blacklist 10 [lit "test"; lit "other"]
              _ Hmain) as (tr & rows & Htr & Hs & Hf & _).
  exists tr, rows. split; [exact Htr|].
  split; [rewrite Hs | rewrite Hf]; vm_compute; reflexivity.
Defined.

